(** * claimso-services: content interpretation and generation pipeline

    A shallow embedding of the service's source (the TypeScript module with
    the four POST handlers and their helpers) together with the properties
    its specification states about it.

    Layout of the development:
    - Part I    data: JavaScript strings, numbers, JSON values, exceptions;
    - Part II   the host runtime and the external collaborators, as interfaces;
    - Part III  the program, function by function, in source order;
    - Part IV   definitions that follow the wording of the specification;
    - Part V    lemmas and the theorems about the program. *)

From Stdlib Require Import Floats.PrimFloat Floats.SpecFloat Floats.FloatOps.
From Stdlib Require Import Uint63 DecimalString.
From Stdlib Require Import ZArith NArith Bool Lia String Ascii List.
Import ListNotations.

Set Implicit Arguments.

(* ================================================================== *)
(** * Part I: data *)
(* ================================================================== *)

(** ** Strings

    A JavaScript string is a sequence of UTF-16 code units; [length],
    [substring] and the regular expressions of the source all count code
    units.  A code unit is kept as its number. *)

Definition char := N.
Definition jsstring := list char.

(** A literal of the source, written with an ASCII string. *)
Definition lit (s : string) : jsstring :=
  map N_of_ascii (list_ascii_of_string s).

Definition char_space : char := 32%N.
Definition char_quote : char := 34%N.
Definition char_newline : char := 10%N.

Definition char_eqb (a b : char) : bool := N.eqb a b.

Fixpoint jsstring_eqb (a b : jsstring) : bool :=
  match a, b with
  | [], [] => true
  | x :: a', y :: b' => char_eqb x y && jsstring_eqb a' b'
  | _, _ => false
  end.

(** [!s] for a string: only the empty string is falsy. *)
Definition string_truthy (s : jsstring) : bool :=
  match s with [] => false | _ :: _ => true end.

(** [a || b] on strings one of which may be [undefined]. *)
Definition or_default (a : option jsstring) (b : jsstring) : jsstring :=
  match a with
  | Some s => if string_truthy s then s else b
  | None => b
  end.

(** [!a] for a string-valued field that may be [undefined]. *)
Definition field_truthy (a : option jsstring) : bool :=
  match a with Some s => string_truthy s | None => false end.

(** [String.prototype.startsWith]. *)
Fixpoint startsWith (s prefix : jsstring) : bool :=
  match prefix, s with
  | [], _ => true
  | p :: prefix', c :: s' => char_eqb c p && startsWith s' prefix'
  | _ :: _, [] => false
  end.

(** [String.prototype.slice(n)] for a non-negative [n]. *)
Definition slice_from (s : jsstring) (n : nat) : jsstring := skipn n s.

(** [String.prototype.substring(a, b)] for non-negative indices: the
    indices are clamped to the length and swapped when [a > b]. *)
Definition substring (s : jsstring) (a b : nat) : jsstring :=
  let lo := Nat.min a b in
  let hi := Nat.max a b in
  firstn (hi - lo) (skipn lo s).

(** The class [\s] of a regular expression, which is also the set that
    [trim] strips: WhiteSpace and LineTerminator of ECMAScript. *)
Definition is_whitespace (c : char) : bool :=
  ((9 <=? c) && (c <=? 13) || (c =? 32) || (c =? 160) || (c =? 5760)
   || ((8192 <=? c) && (c <=? 8202)) || (c =? 8232) || (c =? 8233)
   || (c =? 8239) || (c =? 8287) || (c =? 12288) || (c =? 65279))%N.

Fixpoint drop_while (p : char -> bool) (s : jsstring) : jsstring :=
  match s with
  | [] => []
  | c :: s' => if p c then drop_while p s' else s
  end.

Definition trimStart (s : jsstring) : jsstring := drop_while is_whitespace s.
Definition trimEnd (s : jsstring) : jsstring :=
  rev (drop_while is_whitespace (rev s)).

(** [String.prototype.trim]. *)
Definition trim (s : jsstring) : jsstring := trimEnd (trimStart s).

(** [s.replace(/[class]/g, repl)]: every code unit of the class is a match
    of its own and is replaced. *)
Definition replace_class (cls : char -> bool) (repl s : jsstring) : jsstring :=
  flat_map (fun c => if cls c then repl else [c]) s.

(** [s.replace(/[class]+/g, repl)]: the scan goes left to right; a match
    starts at a code unit of the class and, the quantifier being greedy,
    runs to the end of the run; [in_match] says that the code unit before
    was part of the current match. *)
Fixpoint replace_class_plus_from (cls : char -> bool) (repl : jsstring)
    (in_match : bool) (s : jsstring) : jsstring :=
  match s with
  | [] => []
  | c :: s' =>
      if cls c
      then (if in_match then [] else repl)
             ++ replace_class_plus_from cls repl true s'
      else c :: replace_class_plus_from cls repl false s'
  end.

Definition replace_class_plus (cls : char -> bool) (repl s : jsstring) : jsstring :=
  replace_class_plus_from cls repl false s.

(** [s.split(' ')]: the pieces between the separators; a string with [n]
    separators has [n + 1] pieces, empty ones included. *)
Fixpoint split (sep : char) (s : jsstring) : list jsstring :=
  match s with
  | [] => [[]]
  | c :: s' =>
      if char_eqb c sep then [] :: split sep s'
      else match split sep s' with
           | [] => [[c]]
           | w :: ws => (c :: w) :: ws
           end
  end.

(** ** Numbers

    A JavaScript number is an IEEE 754 binary64 value. *)

Definition number := float.

Definition Number_isNaN (x : number) : bool := negb (PrimFloat.eqb x x).

(** [!x] for a number: [+0], [-0] and [NaN] are falsy. *)
Definition number_truthy (x : number) : bool :=
  negb (PrimFloat.eqb x 0%float || Number_isNaN x).

Definition opt_number_truthy (x : option number) : bool :=
  match x with Some v => number_truthy v | None => false end.

(** The number that holds an integer; exact for [0 <= z < 2^53]. *)
Definition Number_of_Z (z : Z) : number := PrimFloat.of_uint63 (Uint63.of_Z z).

(** ToIntegerOrInfinity of ECMAScript: [NaN] and the zeros give [0], a
    finite value is truncated toward zero, an infinity has no integer. *)
Definition ToIntegerOrInfinity (x : number) : option Z :=
  match Prim2SF x with
  | S754_zero _ => Some 0%Z
  | S754_nan => Some 0%Z
  | S754_infinity _ => None
  | S754_finite s m e =>
      let v := if (0 <=? e)%Z then (Zpos m * 2 ^ e)%Z
               else (Zpos m / 2 ^ (- e))%Z in
      Some (if s then (- v)%Z else v)
  end.

(** ** Exceptions

    A computation that may throw returns [Ok] or [Throw]; [try]/[catch] is a
    match on the result. *)

Inductive error : Type :=
  | Error (message : jsstring)      (* [new Error(message)] of the source *)
  | TypeError                       (* a property read on null or undefined *)
  | SyntaxError                     (* [JSON.parse] on malformed text *)
  | ExternalFailure (tag : N).      (* whatever a collaborator throws *)

Inductive result (A : Type) : Type :=
  | Ok (a : A)
  | Throw (e : error).

Arguments Ok {A} a.
Arguments Throw {A} e.

Definition bind {A B} (m : result A) (k : A -> result B) : result B :=
  match m with
  | Ok a => k a
  | Throw e => Throw e
  end.

Notation "'let*' x ':=' m 'in' k" := (bind m (fun x => k))
  (at level 10, x name, m at level 100, k at level 200).

(** [try { body } catch (error) { handler }] where the handler ignores the
    error value apart from logging it. *)
Definition try_catch {A} (body : result A) (handler : A) : A :=
  match body with
  | Ok a => a
  | Throw _ => handler
  end.

(** ** JSON values

    What [JSON.parse] returns and what [c.json] serialises.  An object keeps
    its properties as an association list; the first entry of a key is the
    property. *)

#[warnings="-register-all"]
Inductive JSON : Type :=
  | JNull
  | JBool (b : bool)
  | JNumber (x : number)
  | JString (s : jsstring)
  | JArray (items : list JSON)
  | JObject (props : list (jsstring * JSON)).

Fixpoint assoc {V} (key : jsstring) (props : list (jsstring * V)) : option V :=
  match props with
  | [] => None
  | (k, v) :: rest => if jsstring_eqb k key then Some v else assoc key rest
  end.

(** [v.key] for a key that is no built-in property name: [None] is
    [undefined]; reading a property of [null] throws. *)
Definition getProp (v : JSON) (key : jsstring) : result (option JSON) :=
  match v with
  | JNull => Throw TypeError
  | JObject props => Ok (assoc key props)
  | _ => Ok None
  end.

(** [!!v] for a value that may be [undefined]. *)
Definition truthy (v : option JSON) : bool :=
  match v with
  | None => false
  | Some JNull => false
  | Some (JBool b) => b
  | Some (JNumber x) => number_truthy x
  | Some (JString s) => string_truthy s
  | Some (JArray _) => true
  | Some (JObject _) => true
  end.

(** [a === b] where [b] is a string literal. *)
Definition strict_equals_string (a : option JSON) (b : jsstring) : bool :=
  match a with
  | Some (JString s) => jsstring_eqb s b
  | _ => false
  end.

(* ================================================================== *)
(** * Part II: the interfaces of the source and of what it calls *)
(* ================================================================== *)

(** ** The TypeScript interfaces

    A request body is whatever JSON the caller sent, cast to the interface
    without a check, so every property may be [undefined] ([None]); the
    handlers test the required ones before use. *)

Module EmailContent.
Record t : Type := Build {
  to : option jsstring;
  from : option jsstring;
  subject : option jsstring;
  text : option jsstring;
  html : option jsstring
}.
End EmailContent.

Module Product.
Record t : Type := Build {
  id : option jsstring;
  name : option jsstring;
  brand : option jsstring;
  serial_number : option jsstring;
  purchase_date : option jsstring;
  order_number : option jsstring;
  retailer : option jsstring;
  price : option number;
  currency : option jsstring;
  category : option jsstring
}.
End Product.

Module User.
Record t : Type := Build {
  name : option jsstring;
  email : option jsstring
}.
End User.

Module GeneratePacketRequest.
Record t : Type := Build {
  product : option Product.t;
  problemDescription : option jsstring;
  user : option User.t
}.
End GeneratePacketRequest.

Module UserProfile.
Record t : Type := Build {
  id : option jsstring;
  full_name : option jsstring;
  email : option jsstring;
  productCount : option number
}.
End UserProfile.

Module PassField.
Record t : Type := Build {
  key : jsstring;
  label : jsstring;
  value : jsstring
}.
End PassField.

Module PassBarcode.
Record t : Type := Build {
  message : option jsstring;
  format : jsstring;
  messageEncoding : jsstring
}.
End PassBarcode.

Module PassGeneric.
Record t : Type := Build {
  primaryFields : list PassField.t;
  secondaryFields : list PassField.t;
  auxiliaryFields : list PassField.t;
  backFields : list PassField.t
}.
End PassGeneric.

Module PassTemplate.
Record t : Type := Build {
  formatVersion : Z;
  passTypeIdentifier : jsstring;
  teamIdentifier : jsstring;
  organizationName : jsstring;
  description : jsstring;
  logoText : jsstring;
  foregroundColor : jsstring;
  backgroundColor : jsstring;
  labelColor : jsstring;
  generic : PassGeneric.t;
  barcodes : list PassBarcode.t;
  locations : list JSON;
  maxDistance : Z;
  relevantDate : jsstring;
  expirationDate : jsstring;
  serialNumber : option jsstring
}.
End PassTemplate.

Module CalendarProduct.
Record t : Type := Build {
  id : option jsstring;
  product_name : option jsstring;
  purchase_date : option jsstring;
  warranty_length_months : option number
}.
End CalendarProduct.

(** ** The request context of the web framework *)

Definition bytes := list N.

Inductive Response : Type :=
  | JsonResponse (body : JSON) (status : Z)        (* [c.json(body, status)] *)
  | BodyResponse (body : bytes) (contentType : jsstring)
  | TextResponse (body : jsstring) (contentType : jsstring).

(** [c.json({ error: message }, status)]. *)
Definition json_error (message : jsstring) (status : Z) : Response :=
  JsonResponse (JObject [(lit "error", JString message)]) status.

(** The context [c] of one request whose body is read at type [B]:
    [c.req.header('Authorization')] and the outcome of [c.req.json()],
    which throws on a body that is no JSON. *)
Record Context (B : Type) : Type := {
  req_header_Authorization : option jsstring;
  req_json : result B
}.

(** ** The page of the document library

    The page is the list of what has been drawn on it, in drawing order. *)

Inductive Font : Type := Helvetica | HelveticaBold.

(** [blackColor = rgb(0, 0, 0)], [grayColor = rgb(0.4, 0.4, 0.4)],
    [blueColor = rgb(0.2, 0.4, 0.8)]. *)
Inductive Color : Type := blackColor | grayColor | blueColor.

Inductive draw_op : Type :=
  | DrawText (text : jsstring) (x y size : Z) (font : Font) (color : option Color)
  | DrawLine (x1 y1 x2 y2 thickness : Z) (color : Color).

(** [PageSizes.Letter] of the document library, in points. *)
Definition PageSizes_Letter : Z * Z := (612, 792)%Z.

(** ** The calendar event handed to the encoder *)

Module Alarm.
Record t : Type := Build {
  action : jsstring;
  description : jsstring;
  trigger_weeks : Z;
  trigger_before : bool
}.
End Alarm.

Module Event.
Record t : Type := Build {
  start : option (Z * Z * Z);     (* [None]: the three numbers are NaN *)
  duration_hours : Z;
  title : jsstring;
  description : jsstring;
  alarms : list Alarm.t
}.
End Event.

(** What [createEvent] returns: [{ error, value }]. *)
Record ics_result : Type := {
  ics_error : option jsstring;
  ics_value : option jsstring
}.

(** ** The language-model request *)

(** The three system prompts are fixed literals of the source; a request
    carries the name of the one it uses. *)
Inductive Prompt : Type :=
  | EMAIL_CLASSIFICATION_PROMPT
  | RECEIPT_PARSING_PROMPT
  | STATUS_UPDATE_PARSING_PROMPT.

(** The OpenAI client: [new OpenAI({ apiKey })]. *)
Record OpenAI : Type := { apiKey : jsstring }.

Record ChatRequest : Type := {
  chat_model : jsstring;
  chat_system : Prompt;
  chat_user : jsstring;
  chat_temperature : number;
  chat_max_tokens : Z
}.

(** The signing material handed to the pass library. *)
Record Certificates : Type := {
  signerCert : bytes;
  signerKey : bytes;
  signerKeyPassphrase : jsstring;
  wwdr : bytes
}.

(** ** The host runtime

    What the JavaScript engine and the process provide and the source only
    calls: the environment, the clock, the local time zone, and built-ins
    whose algorithm is the engine's. *)
Class Host : Type := {
  (** [process.env[key]] *)
  process_env : jsstring -> option jsstring;
  (** [JSON.parse(text)]; [None] when it throws a SyntaxError *)
  JSON_parse : jsstring -> option JSON;
  (** [Number.prototype.toString] and a number in a template literal *)
  Number_toString : number -> jsstring;
  (** a parsed value in a template literal: [`${v}`] *)
  JSON_toString : option JSON -> jsstring;
  (** the offset of local time in milliseconds: [LocalTZA(t, isUTC)] *)
  LocalTZA : Z -> bool -> Z;
  (** [Date.parse] on a string that is not of the form YYYY-MM-DD with a
      day that exists; [None] is NaN *)
  Date_parse_other : jsstring -> option Z;
  (** the reading of the clock at its [n]-th use within a request *)
  Date_now : nat -> Z;
  (** [toLocaleDateString('en-US', { year, month: 'long', day })] *)
  Date_toLocaleDateString : Z -> jsstring;
  (** [Date.prototype.toISOString] *)
  Date_toISOString : Z -> jsstring;
  (** [Buffer.from(text, 'base64')] and [Buffer.from(text, 'utf-8')] *)
  Buffer_from_base64 : jsstring -> bytes;
  Buffer_from_utf8 : jsstring -> bytes;
  (** the SVG markup of the fallback icon, a fixed literal of the source *)
  svgIcon : jsstring
}.

(** ** The external collaborators

    The packages the source imports and calls once per request. *)
Class Collaborators : Type := {
  (** [openai.chat.completions.create(request)] followed by the read of
      [completion.choices[0]?.message?.content]: it throws, or gives the
      content, [None] when that is [undefined] or [null] *)
  chat_completions_create : OpenAI -> ChatRequest -> result (option jsstring);
  (** [font.widthOfTextAtSize(text, size)], in thousandths of a point; the
      library encodes the text with the font and throws on a character
      the font cannot encode *)
  widthOfTextAtSize : Font -> jsstring -> Z -> result Z;
  (** what [page.drawText(text, { font, ... })] does before it draws: it
      encodes the text with the font, and throws on a character the font
      cannot encode *)
  PDFPage_drawText : Font -> jsstring -> result unit;
  (** [pdfDoc.save()] on the page as drawn *)
  PDFDocument_save : list draw_op -> result bytes;
  (** [new PKPass(files, certificates, props).getAsBuffer()] *)
  PKPass_getAsBuffer : bytes -> Certificates -> PassTemplate.t -> result bytes;
  (** [createEvent(event)] *)
  createEvent : Event.t -> ics_result
}.

(** ** Dates

    The [Date] built-in after ECMAScript's "Date Objects": a time value is a
    number of milliseconds since the epoch, UTC, or NaN ([None]); the
    abstract operations below are the ones of that chapter, on integers. *)

Open Scope Z_scope.

Definition msPerDay : Z := 86400000.

Definition Day (t : Z) : Z := t / msPerDay.
Definition TimeWithinDay (t : Z) : Z := t mod msPerDay.

Definition DaysInYear (y : Z) : Z :=
  if negb (y mod 4 =? 0) then 365
  else if negb (y mod 100 =? 0) then 366
  else if negb (y mod 400 =? 0) then 365
  else 366.

Definition DayFromYear (y : Z) : Z :=
  365 * (y - 1970) + (y - 1969) / 4 - (y - 1901) / 100 + (y - 1601) / 400.

(** The year of a day number: "the largest integer [y] such that
    [TimeFromYear y <= t]", computed over the 400-, 100-, 4- and 1-year
    cycles counted from 1 January of year 1 (day [-719162]). *)
Definition YearFromDay (d : Z) : Z :=
  let n := d + 719162 in
  let n400 := n / 146097 in
  let r := n mod 146097 in
  let n100 := Z.min (r / 36524) 3 in
  let r2 := r - n100 * 36524 in
  let n4 := r2 / 1461 in
  let r3 := r2 mod 1461 in
  let n1 := Z.min (r3 / 365) 3 in
  1 + 400 * n400 + 100 * n100 + 4 * n4 + n1.

Definition YearFromTime (t : Z) : Z := YearFromDay (Day t).

(** [InLeapYear] as the number 0 or 1. *)
Definition LeapOfYear (y : Z) : Z := if DaysInYear y =? 366 then 1 else 0.
Definition InLeapYear (t : Z) : Z := LeapOfYear (YearFromTime t).

Definition DayWithinYear (t : Z) : Z := Day t - DayFromYear (YearFromTime t).

(** The month table of ECMAScript, on the day within the year [d] of a year
    with leap flag [l]. *)
Definition month_of_day (l d : Z) : Z :=
  if d <? 31 then 0
  else if d <? 59 + l then 1
  else if d <? 90 + l then 2
  else if d <? 120 + l then 3
  else if d <? 151 + l then 4
  else if d <? 181 + l then 5
  else if d <? 212 + l then 6
  else if d <? 243 + l then 7
  else if d <? 273 + l then 8
  else if d <? 304 + l then 9
  else if d <? 334 + l then 10
  else 11.

(** The number of days of the year before month [m] (0 to 11). *)
Definition days_before_month (l m : Z) : Z :=
  match m with
  | 0 => 0
  | 1 => 31
  | 2 => 59 + l
  | 3 => 90 + l
  | 4 => 120 + l
  | 5 => 151 + l
  | 6 => 181 + l
  | 7 => 212 + l
  | 8 => 243 + l
  | 9 => 273 + l
  | 10 => 304 + l
  | _ => 334 + l
  end.

Definition MonthFromTime (t : Z) : Z :=
  month_of_day (InLeapYear t) (DayWithinYear t).

Definition DateFromTime (t : Z) : Z :=
  DayWithinYear t
  - days_before_month (InLeapYear t) (MonthFromTime t) + 1.

(** The number of days of month [m] (0 to 11) of year [y]. *)
Definition DaysInMonth (y m : Z) : Z :=
  match m with
  | 1 => 28 + LeapOfYear y
  | 3 | 5 | 8 | 10 => 30
  | _ => 31
  end.

(** [MakeDay(year, month, date)] on integers: the day number of the first
    of the month [month] counted from January of [year], plus [date - 1]. *)
Definition MakeDay (year month date : Z) : Z :=
  let ym := year + month / 12 in
  let mn := month mod 12 in
  DayFromYear ym + days_before_month (LeapOfYear ym) mn + date - 1.

Definition MakeDate (day time : Z) : Z := day * msPerDay + time.

(** [TimeClip]: a time value further than 8.64e15 ms from the epoch is NaN. *)
Definition TimeClip (t : Z) : option Z :=
  if Z.abs t <=? 8640000000000000 then Some t else None.

Close Scope Z_scope.

(** A [Date] object is its time value. *)
Definition Date := option Z.

(** The integer of a finite number, for the arguments of [MakeDay]: NaN and
    the infinities have none, which makes the result NaN. *)
Definition finite_integer (x : number) : option Z :=
  if Number_isNaN x then None else ToIntegerOrInfinity x.

Definition digit (c : char) : option Z :=
  if (48 <=? c)%N && (c <=? 57)%N then Some (Z.of_N c - 48)%Z else None.

(** The date-only form YYYY-MM-DD of the Date Time String Format. *)
Definition parse_iso_date (s : jsstring) : option (Z * Z * Z) :=
  match s with
  | [y1; y2; y3; y4; h1; m1; m2; h2; d1; d2] =>
      match digit y1, digit y2, digit y3, digit y4,
            digit m1, digit m2, digit d1, digit d2 with
      | Some a, Some b, Some c, Some d, Some e, Some f, Some g, Some h =>
          if (h1 =? 45)%N && (h2 =? 45)%N
          then Some (1000 * a + 100 * b + 10 * c + d, 10 * e + f, 10 * g + h)%Z
          else None
      | _, _, _, _, _, _, _, _ => None
      end
  | _ => None
  end.

Section DateBuiltins.
Context {host : Host}.

Definition LocalTime (t : Z) : Z := (t + LocalTZA t true)%Z.
Definition UTC (t : Z) : Z := (t - LocalTZA t false)%Z.

(** [Date.parse]: a date-only string is midnight UTC of that day; any other
    string is left to the engine. *)
Definition Date_parse (s : jsstring) : option Z :=
  match parse_iso_date s with
  | Some (y, m, d) =>
      if ((1 <=? m) && (m <=? 12) && (1 <=? d) && (d <=? DaysInMonth y (m - 1)))%Z
      then Some (MakeDate (MakeDay y (m - 1) d) 0)
      else Date_parse_other s
  | None => Date_parse_other s
  end.

(** [new Date(string)]. *)
Definition Date_of_string (s : jsstring) : Date :=
  match Date_parse s with
  | Some t => TimeClip t
  | None => None
  end.

(** [new Date(date)]: a copy of the time value. *)
Definition Date_of_Date (d : Date) : Date := d.

(** [new Date()] at the [n]-th use of the clock. *)
Definition Date_current (n : nat) : Date := TimeClip (Date_now n).

(** [getMonth()], a number: NaN for an invalid date. *)
Definition getMonth (d : Date) : number :=
  match d with
  | Some t => Number_of_Z (MonthFromTime (LocalTime t))
  | None => nan
  end.

(** [setMonth(month)]. *)
Definition setMonth (d : Date) (month : number) : Date :=
  match d with
  | None => None
  | Some tv =>
      let t := LocalTime tv in
      let dt := DateFromTime t in
      match finite_integer month with
      | None => None
      | Some m =>
          let newDate := MakeDate (MakeDay (YearFromTime t) m dt) (TimeWithinDay t) in
          TimeClip (UTC newDate)
      end
  end.

(** [[d.getFullYear(), d.getMonth() + 1, d.getDate()]]; [None] when the
    three are NaN. *)
Definition date_fields (d : Date) : option (Z * Z * Z) :=
  match d with
  | Some tv =>
      let t := LocalTime tv in
      Some (YearFromTime t, (MonthFromTime t + 1)%Z, DateFromTime t)
  | None => None
  end.

(** [d.getFullYear().toString()]. *)
Definition getFullYear_toString (d : Date) : jsstring :=
  match d with
  | Some tv => Number_toString (Number_of_Z (YearFromTime (LocalTime tv)))
  | None => Number_toString nan
  end.

(** [d.toISOString()], which throws a RangeError on an invalid date. *)
Definition toISOString (d : Date) : result jsstring :=
  match d with
  | Some tv => Ok (Date_toISOString tv)
  | None => Throw (ExternalFailure 0)
  end.

End DateBuiltins.

(* ================================================================== *)
(** * Part III: the program *)
(* ================================================================== *)

Section Program.
Context {host : Host} {collaborators : Collaborators}.

(** ** Environment validation *)

Definition getRequiredEnvVar (key : jsstring) : result jsstring :=
  match process_env key with
  | Some value =>
      if negb (string_truthy value)
      then Throw (Error (lit "Missing required environment variable: " ++ key))
      else Ok value
  | None => Throw (Error (lit "Missing required environment variable: " ++ key))
  end.

Definition getOptionalEnvVar (key defaultValue : jsstring) : jsstring :=
  match process_env key with
  | Some value => if string_truthy value then value else defaultValue
  | None => defaultValue
  end.

(** ** Utility functions *)

(** The class [[\x00-\x08\x0B\x0C\x0E-\x1F\x7F]]. *)
Definition class_control (c : char) : bool :=
  ((c <=? 8) || (c =? 11) || (c =? 12) || ((14 <=? c) && (c <=? 31))
   || (c =? 127))%N.

(** The class [[<>{}]]. *)
Definition class_markup (c : char) : bool :=
  ((c =? 60) || (c =? 62) || (c =? 123) || (c =? 125))%N.

Definition sanitizeText (text : jsstring) : jsstring :=
  if negb (string_truthy text) then []
  else
    substring
      (trim
         (replace_class_plus is_whitespace (lit " ")
            (replace_class class_markup []
               (replace_class class_control [] text))))
      0 1000.

(** [sanitizeText(x)] where [x] may be [undefined]: the guard
    [!text || typeof text !== 'string'] answers the empty string. *)
Definition sanitizeText_opt (text : option jsstring) : jsstring :=
  match text with
  | Some s => sanitizeText s
  | None => []
  end.

(** The outcome of [checkAuth]: [Some] response to send back, or [None]
    ([null]) when the request may proceed. *)
Definition checkAuth {B} (c : Context B) : result (option Response) :=
  let authHeader := req_header_Authorization c in
  let* expectedKey := getRequiredEnvVar (lit "SERVICES_API_KEY") in
  match authHeader with
  | None => Ok (Some (json_error (lit "Missing Authorization header") 401))
  | Some header =>
      if negb (string_truthy header) || negb (startsWith header (lit "Bearer "))
      then Ok (Some (json_error (lit "Missing Authorization header") 401))
      else
        let providedKey := slice_from header 7 in
        if negb (jsstring_eqb providedKey expectedKey)
        then Ok (Some (json_error (lit "Invalid API key") 401))
        else Ok None
  end.

(** ** AI processing functions *)

(** The template [`Subject: ${subject}\n\nBody:\n${text}`]. *)
Definition emailContent (subject text : jsstring) : jsstring :=
  lit "Subject: " ++ subject ++ [char_newline; char_newline]
    ++ lit "Body:" ++ [char_newline] ++ text.

Definition completion_request (system : Prompt) (subject text : jsstring)
    (max_tokens : Z) : ChatRequest :=
  {| chat_model := lit "gpt-4o";
     chat_system := system;
     chat_user := emailContent subject text;
     chat_temperature := 0x1.999999999999ap-4%float;   (* 0.1 *)
     chat_max_tokens := max_tokens |}.

(** [completion.choices[0]?.message?.content?.trim()], then the test
    [if (!responseText) throw new Error(message)]. *)
Definition responseText_of (content : option jsstring) (message : jsstring)
    : result jsstring :=
  match content with
  | Some s =>
      let responseText := trim s in
      if negb (string_truthy responseText) then Throw (Error message)
      else Ok responseText
  | None => Throw (Error message)
  end.

(** [JSON.parse(responseText)]. *)
Definition JSON_parse_or_throw (s : jsstring) : result JSON :=
  match JSON_parse s with
  | Some v => Ok v
  | None => Throw SyntaxError
  end.

(** [['PURCHASE', 'RETURN', 'SHIPMENT_UPDATE'].includes(v)]. *)
Definition is_intent_label (v : option JSON) : bool :=
  strict_equals_string v (lit "PURCHASE")
  || strict_equals_string v (lit "RETURN")
  || strict_equals_string v (lit "SHIPMENT_UPDATE").

Definition classifyEmailIntent (openai : OpenAI) (subject text : jsstring)
    : option JSON :=
  try_catch
    (let* content :=
       chat_completions_create openai
         (completion_request EMAIL_CLASSIFICATION_PROMPT subject text 50) in
     let* responseText :=
       responseText_of content (lit "No response from OpenAI classification") in
     let* parsed := JSON_parse_or_throw responseText in
     let* intent := getProp parsed (lit "intent") in
     if negb (truthy intent) || negb (is_intent_label intent)
     then Throw (Error (lit "Invalid intent in classification response"))
     else Ok (Some parsed))
    None.

Definition parseReceiptWithAI (openai : OpenAI) (subject text : jsstring)
    : option JSON :=
  try_catch
    (let* content :=
       chat_completions_create openai
         (completion_request RECEIPT_PARSING_PROMPT subject text 500) in
     let* responseText := responseText_of content (lit "No response from OpenAI") in
     let* parsed := JSON_parse_or_throw responseText in
     let* product_name := getProp parsed (lit "product_name") in
     if negb (truthy product_name)
     then Throw (Error (lit "No product_name in AI response"))
     else Ok (Some parsed))
    (Some
       (JObject
          [ (lit "product_name", JString (lit "Email Purchase: " ++ subject));
            (lit "notes",
             JString
               (lit "Automated extraction failed. Original content: "
                  ++ substring text 0 500 ++ lit "...")) ])).

Definition parseStatusUpdateWithAI (openai : OpenAI) (subject text : jsstring)
    : option JSON :=
  try_catch
    (let* content :=
       chat_completions_create openai
         (completion_request STATUS_UPDATE_PARSING_PROMPT subject text 300) in
     let* responseText :=
       responseText_of content (lit "No response from OpenAI status parsing") in
     let* parsed := JSON_parse_or_throw responseText in
     let* order_id := getProp parsed (lit "order_id") in
     let* status := getProp parsed (lit "status") in
     if negb (truthy order_id) || negb (truthy status)
     then Throw (Error (lit "Missing required fields in status update response"))
     else Ok (Some parsed))
    None.

(** ** PDF generation *)

(** The mutable state of [generateWarrantyClaimPacket]: the cursor
    [yPosition] and the page. *)
Record layout : Type := {
  yPosition : Z;
  page : list draw_op
}.

Definition width : Z := fst PageSizes_Letter.
Definition height : Z := snd PageSizes_Letter.

Definition boldFont : Font := HelveticaBold.
Definition regularFont : Font := Helvetica.

(** [page.drawText(text, { x, y: yPosition, size, font, color })]: the
    library encodes the text first and throws when the font cannot; the
    text is on the page when the call returns. *)
Definition drawText (text : jsstring) (x size : Z) (font : Font)
    (color : option Color) (st : layout) : result layout :=
  let* _ := PDFPage_drawText font text in
  Ok {| yPosition := yPosition st;
        page := page st ++ [DrawText text x (yPosition st) size font color] |}.

Definition drawLine (x1 y1 x2 y2 : Z) (color : Color) (st : layout) : layout :=
  {| yPosition := yPosition st;
     page := page st ++ [DrawLine x1 y1 x2 y2 1 color] |}.

Definition move_down (dy : Z) (st : layout) : layout :=
  {| yPosition := (yPosition st - dy)%Z; page := page st |}.

(** The closure [addText(text, x, fontSize, font = regularFont,
    color = blackColor)]. *)
Definition addText (text : jsstring) (x fontSize : Z) (font : Font)
    (color : Color) (st : layout) : result layout :=
  let* st := drawText text x fontSize font (Some color) st in
  Ok (move_down (fontSize + 5) st).

(** The closure [addSectionSpacing(spacing = 20)]. *)
Definition addSectionSpacing (spacing : Z) (st : layout) : layout :=
  move_down spacing st.

(** [array.forEach(callback)] for a callback that works on the state [A]
    and may throw: the exception ends the loop. *)
Fixpoint forEach {A B} (callback : A -> B -> result A) (array : list B) (a : A)
    : result A :=
  match array with
  | [] => Ok a
  | b :: rest => let* a := callback a b in forEach callback rest a
  end.

(** One pass of [rows.forEach(([label, value]) => ...)]. *)
Definition draw_row (st : layout) (row : jsstring * jsstring) : result layout :=
  let '(label, value) := row in
  let* st := drawText label 70 11 boldFont None st in
  let* st := drawText value 200 11 regularFont None st in
  Ok (move_down 16 st).

(** The template [`"${currentLine}"`]. *)
Definition quoted (line : jsstring) : jsstring :=
  [char_quote] ++ line ++ [char_quote].

Definition maxLineWidth : Z := (width - 140)%Z.

(** [lineWidth > maxLineWidth], the width being in thousandths of a point. *)
Definition exceeds (lineWidth : Z) : bool := (1000 * maxLineWidth <? lineWidth)%Z.

(** One pass of [words.forEach(word => ...)] on the state and the line
    buffer [currentLine]. *)
Definition wrap_word (acc : layout * jsstring) (word : jsstring)
    : result (layout * jsstring) :=
  let '(st, currentLine) := acc in
  let testLine :=
    currentLine ++ (if string_truthy currentLine then lit " " else []) ++ word in
  let* lineWidth := widthOfTextAtSize regularFont testLine 11 in
  if exceeds lineWidth && string_truthy currentLine
  then
    let* st := addText (quoted currentLine) 70 11 regularFont blackColor st in
    Ok (st, word)
  else Ok (st, testLine).

(** The problem-description block: the loop over the words and the flush of
    the last buffer. *)
Definition draw_description (sanitizedDescription : jsstring) (st : layout)
    : result layout :=
  let words := split char_space sanitizedDescription in
  let* acc := forEach wrap_word words (st, []) in
  let '(st1, currentLine) := acc in
  if string_truthy currentLine
  then addText (quoted currentLine) 70 11 regularFont blackColor st1
  else Ok st1.

(** [`${x}`] for a string that may be [undefined]. *)
Definition template_string (x : option jsstring) : jsstring :=
  match x with
  | Some s => s
  | None => lit "undefined"
  end.

(** The row ['Price:', request.product.price ? `${currency || '$'}${price}`
    : 'N/A']. *)
Definition price_text (product : Product.t) : jsstring :=
  match Product.price product with
  | Some price =>
      if number_truthy price
      then or_default (Product.currency product) (lit "$") ++ Number_toString price
      else lit "N/A"
  | None => lit "N/A"
  end.

(** [[label, sanitizeText(field || 'N/A')]]. *)
Definition detail_row (label : string) (field : option jsstring)
    : jsstring * jsstring :=
  (lit label, sanitizeText (or_default field (lit "N/A"))).

(** The statements of [generateWarrantyClaimPacket], by the sections its
    comments name; each takes the state and gives it back, or throws. *)

Definition header_section (st : layout) : result layout :=
  let* st := addText (lit "WARRANTY CLAIM PACKET") 50 24 boldFont blueColor st in
  let* st := addText (lit "CLAIMSO") (width - 150) 16 boldFont grayColor st in
  let st := addSectionSpacing 10 st in
  let st := drawLine 50 (yPosition st) (width - 50) (yPosition st) grayColor st in
  Ok (addSectionSpacing 20 st).

Definition generation_date (st : layout) : result layout :=
  let currentDate := Date_toLocaleDateString (Date_now 0) in
  let* st := addText (lit "Generated: " ++ currentDate) 50 12 regularFont grayColor st in
  Ok (addSectionSpacing 20 st).

Definition prepared_for_section (user : User.t) (st : layout) : result layout :=
  let* st := addText (sanitizeText_opt (User.name user)) 70 12 regularFont blackColor st in
  let* st := addText (sanitizeText_opt (User.email user)) 70 12 regularFont grayColor st in
  Ok (addSectionSpacing 20 st).

Definition productDetails (product : Product.t) : list (jsstring * jsstring) :=
  [ detail_row "Product Name:" (Product.name product);
    detail_row "Brand:" (Product.brand product);
    detail_row "Category:" (Product.category product);
    detail_row "Serial Number:" (Product.serial_number product) ].

Definition product_details_section (product : Product.t) (st : layout)
    : result layout :=
  let* st := forEach draw_row (productDetails product) st in
  Ok (addSectionSpacing 20 st).

Definition purchaseInfo (product : Product.t) : list (jsstring * jsstring) :=
  [ detail_row "Purchase Date:" (Product.purchase_date product);
    detail_row "Retailer:" (Product.retailer product);
    detail_row "Order Number:" (Product.order_number product);
    (lit "Price:", price_text product) ].

Definition purchase_information_section (product : Product.t) (st : layout)
    : result layout :=
  let* st := addText (lit "PURCHASE INFORMATION:") 50 14 boldFont blackColor st in
  let st := addSectionSpacing 5 st in
  let* st := forEach draw_row (purchaseInfo product) st in
  Ok (addSectionSpacing 20 st).

Definition problem_description_section (problemDescription : option jsstring)
    (st : layout) : result layout :=
  let* st := addText (lit "PROBLEM DESCRIPTION:") 50 14 boldFont blackColor st in
  let st := addSectionSpacing 5 st in
  let sanitizedDescription := sanitizeText_opt problemDescription in
  let* st := draw_description sanitizedDescription st in
  Ok (addSectionSpacing 20 st).

Definition supporting_evidence_section (st : layout) : result layout :=
  let* st := addText (lit "SUPPORTING EVIDENCE:") 50 14 boldFont blackColor st in
  let st := addSectionSpacing 5 st in
  let* st := addText (lit "Photos/videos available upon request.") 70 11
               regularFont grayColor st in
  let* st := addText (lit "Additional documentation can be provided as needed.")
               70 11 regularFont grayColor st in
  Ok (addSectionSpacing 20 st).

(** The template [`Document ID: ${request.product.id}-${Date.now()}`]. *)
Definition document_id (product : Product.t) : jsstring :=
  lit "Document ID: " ++ template_string (Product.id product)
    ++ lit "-" ++ Number_toString (Number_of_Z (Date_now 1)).

Definition footer (product : Product.t) (st : layout) : result layout :=
  let st := {| yPosition := 50; page := page st |} in
  let st := drawLine 50 (yPosition st + 20) (width - 50) (yPosition st + 20)
              grayColor st in
  let* st := drawText (lit "Generated by CLAIMSO") 50 10 regularFont
               (Some grayColor) st in
  drawText (document_id product) (width - 200) 10 regularFont (Some grayColor) st.

(** The page as drawn when the function reaches the save.  Reading a
    property of an absent [user] or [product] throws, and so does a text
    that the library cannot measure or draw. *)
Definition claimPacketPage (request : GeneratePacketRequest.t)
    : result (list draw_op) :=
  let st := {| yPosition := (height - 50)%Z; page := [] |} in
  let* st := header_section st in
  let* st := generation_date st in
  (* Prepared For Section *)
  let* st := addText (lit "PREPARED FOR:") 50 14 boldFont blackColor st in
  match GeneratePacketRequest.user request with
  | None => Throw TypeError
  | Some user =>
  let* st := prepared_for_section user st in
  (* Product Details Section *)
  let* st := addText (lit "PRODUCT DETAILS:") 50 14 boldFont blackColor st in
  let st := addSectionSpacing 5 st in
  match GeneratePacketRequest.product request with
  | None => Throw TypeError
  | Some product =>
  let* st := product_details_section product st in
  let* st := purchase_information_section product st in
  let* st :=
    problem_description_section
      (GeneratePacketRequest.problemDescription request) st in
  let* st := supporting_evidence_section st in
  let* st := footer product st in
  Ok (page st)
  end
  end.

Definition generateWarrantyClaimPacket (request : GeneratePacketRequest.t)
    : result bytes :=
  let* drawn := claimPacketPage request in
  PDFDocument_save drawn.

(** ** Apple Wallet pass generation *)

Definition generateDefaultIcon : bytes := Buffer_from_utf8 svgIcon.

(** [365 * 24 * 60 * 60 * 1000]. *)
Definition msPerYear : Z := (365 * 24 * 60 * 60 * 1000)%Z.

(** The template of [loadPassAssets].  The two dates are made from later
    readings of the clock; [toISOString] throws on a date out of range. *)
Definition loadPassAssets : result (PassTemplate.t * bytes) :=
  let memberSince := getFullYear_toString (Date_current 0) in
  let* relevantDate := toISOString (TimeClip (Date_now 1 + msPerYear)) in
  let* expirationDate := toISOString (TimeClip (Date_now 2 + 2 * msPerYear)) in
  let passJson :=
    {| PassTemplate.formatVersion := 1;
       PassTemplate.passTypeIdentifier :=
         getOptionalEnvVar (lit "PASS_TYPE_IDENTIFIER") (lit "pass.com.claimso.smartpass");
       PassTemplate.teamIdentifier :=
         getOptionalEnvVar (lit "APPLE_TEAM_ID") (lit "YOUR_TEAM_ID");
       PassTemplate.organizationName := lit "CLAIMSO";
       PassTemplate.description := lit "CLAIMSO Smart Pass - Personal Warranty Assistant";
       PassTemplate.logoText := lit "CLAIMSO";
       PassTemplate.foregroundColor := lit "rgb(255, 255, 255)";
       PassTemplate.backgroundColor := lit "rgb(37, 99, 235)";
       PassTemplate.labelColor := lit "rgb(255, 255, 255)";
       PassTemplate.generic :=
         {| PassGeneric.primaryFields :=
              [ {| PassField.key := lit "title";
                   PassField.label := lit "Smart Pass";
                   PassField.value := lit "Personal Warranty Assistant" |} ];
            PassGeneric.secondaryFields :=
              [ {| PassField.key := lit "status";
                   PassField.label := lit "Status";
                   PassField.value := lit "Active" |};
                {| PassField.key := lit "products";
                   PassField.label := lit "Products Protected";
                   PassField.value := lit "Loading..." |} ];
            PassGeneric.auxiliaryFields :=
              [ {| PassField.key := lit "member-since";
                   PassField.label := lit "Member Since";
                   PassField.value := memberSince |} ];
            PassGeneric.backFields :=
              [ {| PassField.key := lit "description";
                   PassField.label := lit "About CLAIMSO Smart Pass";
                   PassField.value :=
                     lit "Your personal warranty assistant that helps you track purchases, manage warranties, and file claims with confidence." |};
                {| PassField.key := lit "features";
                   PassField.label := lit "Features";
                   PassField.value :=
                     [8226%N] ++ lit " Real-time warranty notifications" ++ [char_newline]
                       ++ [8226%N] ++ lit " Automatic receipt processing" ++ [char_newline]
                       ++ [8226%N] ++ lit " Smart claim assistance" ++ [char_newline]
                       ++ [8226%N] ++ lit " Universal product tracking" |};
                {| PassField.key := lit "support";
                   PassField.label := lit "Support";
                   PassField.value :=
                     lit "Need help? Visit claimso.com/support or email hello@claimso.com" |} ]
         |};
       PassTemplate.barcodes :=
         [ {| PassBarcode.message := Some [];
              PassBarcode.format := lit "PKBarcodeFormatQR";
              PassBarcode.messageEncoding := lit "iso-8859-1" |} ];
       PassTemplate.locations := [];
       PassTemplate.maxDistance := 1000;
       PassTemplate.relevantDate := relevantDate;
       PassTemplate.expirationDate := expirationDate;
       PassTemplate.serialNumber := None |} in
  let iconBuffer := generateDefaultIcon in
  Ok (passJson, iconBuffer).

(** The statements of [generateApplePass], in the order of the source; the
    function is run with a log of the ones it has completed. *)
Inductive pass_step : Type :=
  | LoadedAssets                                  (* [await loadPassAssets()] *)
  | ComposedPass (customizedPassJson : PassTemplate.t)
  | ReadCredentials                               (* the four [process.env] reads *)
  | CheckedCredentials                            (* the test passed *)
  | BuiltPass.                                    (* [new PKPass(...).getAsBuffer()] *)

Definition logged (A : Type) : Type := list pass_step * result A.

Definition log_bind {A B} (m : logged A) (k : A -> logged B) : logged B :=
  match m with
  | (steps, Ok a) => let '(steps', r) := k a in (steps ++ steps', r)
  | (steps, Throw e) => (steps, Throw e)
  end.

(** A statement that may throw; it is logged when it completes. *)
Definition statement {A} (step : A -> pass_step) (r : result A) : logged A :=
  match r with
  | Ok a => ([step a], Ok a)
  | Throw e => ([], Throw e)
  end.

Notation "'do' x '<-' m ';' k" := (log_bind m (fun x => k))
  (at level 10, x name, m at level 100, k at level 200).

(** [x.toString()] on a number that may be [undefined]. *)
Definition number_toString_opt (x : option number) : result jsstring :=
  match x with
  | Some v => Ok (Number_toString v)
  | None => Throw TypeError
  end.

(** The object literal [customizedPassJson]. *)
Definition customizePass (passJson : PassTemplate.t) (userProfile : UserProfile.t)
    : result PassTemplate.t :=
  let* productCount := number_toString_opt (UserProfile.productCount userProfile) in
  let generic := PassTemplate.generic passJson in
  Ok
    {| PassTemplate.formatVersion := PassTemplate.formatVersion passJson;
       PassTemplate.passTypeIdentifier := PassTemplate.passTypeIdentifier passJson;
       PassTemplate.teamIdentifier := PassTemplate.teamIdentifier passJson;
       PassTemplate.organizationName := PassTemplate.organizationName passJson;
       PassTemplate.description := PassTemplate.description passJson;
       PassTemplate.logoText := PassTemplate.logoText passJson;
       PassTemplate.foregroundColor := PassTemplate.foregroundColor passJson;
       PassTemplate.backgroundColor := PassTemplate.backgroundColor passJson;
       PassTemplate.labelColor := PassTemplate.labelColor passJson;
       PassTemplate.generic :=
         {| PassGeneric.primaryFields := PassGeneric.primaryFields generic;
            PassGeneric.secondaryFields :=
              filter
                (fun field => negb (jsstring_eqb (PassField.key field) (lit "products")))
                (PassGeneric.secondaryFields generic)
              ++ [ {| PassField.key := lit "products";
                      PassField.label := lit "Products Protected";
                      PassField.value := productCount |} ];
            PassGeneric.auxiliaryFields := PassGeneric.auxiliaryFields generic;
            PassGeneric.backFields :=
              PassGeneric.backFields generic
              ++ [ {| PassField.key := lit "user-info";
                      PassField.label := lit "Vault Owner";
                      PassField.value :=
                        or_default (UserProfile.full_name userProfile) (lit "User")
                          ++ [char_newline]
                          ++ template_string (UserProfile.email userProfile) |} ]
         |};
       PassTemplate.barcodes :=
         [ {| PassBarcode.message := UserProfile.id userProfile;
              PassBarcode.format := lit "PKBarcodeFormatQR";
              PassBarcode.messageEncoding := lit "iso-8859-1" |} ];
       PassTemplate.locations := PassTemplate.locations passJson;
       PassTemplate.maxDistance := PassTemplate.maxDistance passJson;
       PassTemplate.relevantDate := PassTemplate.relevantDate passJson;
       PassTemplate.expirationDate := PassTemplate.expirationDate passJson;
       PassTemplate.serialNumber := UserProfile.id userProfile |}.

(** The credentials as read from the environment. *)
Record credentials_read : Type := {
  passkitCert : option jsstring;
  passkitKey : option jsstring;
  passkitKeyPassphrase : jsstring;
  wwdrCert : jsstring
}.

Definition read_credentials : credentials_read :=
  {| passkitCert := process_env (lit "PASSKIT_CERT");
     passkitKey := process_env (lit "PASSKIT_KEY");
     passkitKeyPassphrase := or_default (process_env (lit "PASSKIT_KEY_PASSPHRASE")) [];
     wwdrCert := or_default (process_env (lit "WWDR_CERT")) [] |}.

(** [if (!passkitCert || !passkitKey) throw ...], then the certificate
    bundle. *)
Definition check_credentials (cr : credentials_read) : result Certificates :=
  match passkitCert cr, passkitKey cr with
  | Some cert, Some key =>
      if negb (string_truthy cert) || negb (string_truthy key)
      then Throw (Error (lit "Missing required certificate environment variables: PASSKIT_CERT, PASSKIT_KEY"))
      else
        Ok {| signerCert := Buffer_from_base64 cert;
              signerKey := Buffer_from_base64 key;
              signerKeyPassphrase := passkitKeyPassphrase cr;
              wwdr := if string_truthy (wwdrCert cr)
                      then Buffer_from_base64 (wwdrCert cr) else [] |}
  | _, _ =>
      Throw (Error (lit "Missing required certificate environment variables: PASSKIT_CERT, PASSKIT_KEY"))
  end.

Definition generateApplePass_logged (userProfile : UserProfile.t) : logged bytes :=
  do assets <- statement (fun _ => LoadedAssets) loadPassAssets;
  do customizedPassJson <-
     statement ComposedPass (customizePass (fst assets) userProfile);
  do cr <- statement (fun _ => ReadCredentials) (Ok read_credentials);
  do certificates <- statement (fun _ => CheckedCredentials) (check_credentials cr);
  statement (fun _ => BuiltPass)
    (PKPass_getAsBuffer (snd assets) certificates customizedPassJson).

(** [generateApplePass]: what the function returns or throws. *)
Definition generateApplePass (userProfile : UserProfile.t) : result bytes :=
  snd (generateApplePass_logged userProfile).

(** ** The routes *)

(** [!x] on a required string property; [Some] is the string when truthy. *)
Definition required (x : option jsstring) : option jsstring :=
  match x with
  | Some s => if string_truthy s then Some s else None
  | None => None
  end.

(** A route: the authorization check, outside the [try] block, then the
    [try] block, whose [catch] answers the route's fixed failure response.
    [Throw] is an exception that leaves the handler. *)
Definition route {B} (c : Context B) (try_block : result Response)
    (on_catch : Response) : result Response :=
  let* authError := checkAuth c in
  match authError with
  | Some response => Ok response
  | None => Ok (try_catch try_block on_catch)
  end.

(** The end of route 1: [if (!result) ...] and the success response
    [c.json({ intent, data: result })]. *)
Definition extraction_response (intent : option JSON) (result : option JSON)
    : Response :=
  match result with
  | None => json_error (lit "Failed to extract data from email") 500
  | Some data =>
      JsonResponse
        (JObject [ (lit "intent", match intent with Some v => v | None => JNull end);
                   (lit "data", data) ])
        200
  end.

(** Route 1: the [try] block of [app.post('/email-parser', ...)]. *)
Definition email_parser_try (c : Context EmailContent.t) : result Response :=
  let* body := req_json c in
  match required (EmailContent.to body), required (EmailContent.from body),
        required (EmailContent.subject body), required (EmailContent.text body)
  with
  | Some _, Some _, Some subject, Some text =>
      let* OPENAI_API_KEY := getRequiredEnvVar (lit "OPENAI_API_KEY") in
      let openai := {| apiKey := OPENAI_API_KEY |} in
      (* Stage 1: classify email intent *)
      match classifyEmailIntent openai subject text with
      | None => Ok (json_error (lit "Failed to classify email intent") 500)
      | Some intentResult =>
          let* intent := getProp intentResult (lit "intent") in
          (* Stage 2: process based on intent *)
          if strict_equals_string intent (lit "PURCHASE")
          then Ok (extraction_response intent
                     (parseReceiptWithAI openai subject text))
          else if strict_equals_string intent (lit "RETURN")
                  || strict_equals_string intent (lit "SHIPMENT_UPDATE")
          then Ok (extraction_response intent
                     (parseStatusUpdateWithAI openai subject text))
          else Ok (json_error
                     (lit "Unsupported email intent: " ++ JSON_toString intent)
                     400)
      end
  | _, _, _, _ => Ok (json_error (lit "Missing required email fields") 400)
  end.

Definition email_parser (c : Context EmailContent.t) : result Response :=
  route c (email_parser_try c) (json_error (lit "Internal server error") 500).

(** [body.product?.id] and the like. *)
Definition product_field (body : GeneratePacketRequest.t)
    (f : Product.t -> option jsstring) : option jsstring :=
  match GeneratePacketRequest.product body with
  | Some p => f p
  | None => None
  end.

Definition user_field (body : GeneratePacketRequest.t)
    (f : User.t -> option jsstring) : option jsstring :=
  match GeneratePacketRequest.user body with
  | Some u => f u
  | None => None
  end.

(** Route 2: the [try] block of [app.post('/pdf-generator', ...)]. *)
Definition pdf_generator_try (c : Context GeneratePacketRequest.t)
    : result Response :=
  let* body := req_json c in
  if negb (field_truthy (product_field body Product.id))
     || negb (field_truthy (product_field body Product.name))
     || negb (field_truthy (GeneratePacketRequest.problemDescription body))
     || negb (field_truthy (user_field body User.name))
     || negb (field_truthy (user_field body User.email))
  then Ok (json_error (lit "Missing required fields") 400)
  else
    let* pdfBytes := generateWarrantyClaimPacket body in
    Ok (BodyResponse pdfBytes (lit "application/pdf")).

Definition pdf_generator (c : Context GeneratePacketRequest.t) : result Response :=
  route c (pdf_generator_try c) (json_error (lit "Failed to generate PDF") 500).

(** Route 3: the [try] block of [app.post('/pass-generator', ...)]. *)
Definition pass_generator_try (c : Context UserProfile.t) : result Response :=
  let* body := req_json c in
  if negb (field_truthy (UserProfile.id body))
     || negb (field_truthy (UserProfile.email body))
  then Ok (json_error (lit "Missing required user fields") 400)
  else
    let* passBytes := generateApplePass body in
    Ok (BodyResponse passBytes (lit "application/vnd.apple.pkpass")).

Definition pass_generator (c : Context UserProfile.t) : result Response :=
  route c (pass_generator_try c) (json_error (lit "Failed to generate pass") 500).

(** The expiration date of route 4: a copy of the purchase date with its
    month advanced by the warranty length. *)
Definition expirationDate_of (purchase_date : jsstring)
    (warranty_length_months : number) : Date :=
  let purchaseDate := Date_of_string purchase_date in
  let expirationDate := Date_of_Date purchaseDate in
  setMonth expirationDate
    (PrimFloat.add (getMonth expirationDate) warranty_length_months).

Definition warranty_event (product_name purchase_date : jsstring)
    (warranty_length_months : number) : Event.t :=
  let expirationDate := expirationDate_of purchase_date warranty_length_months in
  {| Event.start := date_fields expirationDate;
     Event.duration_hours := 1;
     Event.title := lit "Warranty Expiration: " ++ product_name;
     Event.description :=
       lit "Your warranty for " ++ product_name ++ lit " expires today.";
     Event.alarms :=
       [ {| Alarm.action := lit "display";
            Alarm.description :=
              lit "Reminder: Warranty expires in 1 week for " ++ product_name;
            Alarm.trigger_weeks := 1;
            Alarm.trigger_before := true |} ] |}.

(** Route 4: the [try] block of [app.post('/calendar-generator', ...)]. *)
Definition calendar_generator_try (c : Context CalendarProduct.t)
    : result Response :=
  let* body := req_json c in
  match required (CalendarProduct.id body),
        required (CalendarProduct.product_name body),
        required (CalendarProduct.purchase_date body),
        CalendarProduct.warranty_length_months body
  with
  | Some _, Some product_name, Some purchase_date, Some months =>
      if negb (number_truthy months)
      then Ok (json_error (lit "Missing required product fields") 400)
      else
        let event := warranty_event product_name purchase_date months in
        let r := createEvent event in
        match ics_error r, ics_value r with
        | None, Some icsContent =>
            if string_truthy icsContent
            then Ok (TextResponse icsContent (lit "text/calendar"))
            else Ok (json_error (lit "Failed to generate calendar event") 500)
        | _, _ => Ok (json_error (lit "Failed to generate calendar event") 500)
        end
  | _, _, _, _ => Ok (json_error (lit "Missing required product fields") 400)
  end.

Definition calendar_generator (c : Context CalendarProduct.t) : result Response :=
  route c (calendar_generator_try c)
    (json_error (lit "Failed to generate calendar event") 500).

End Program.

(* ================================================================== *)
(** * Part IV: definitions after the wording of the specification *)
(* ================================================================== *)

(** ** The five steps of the TextSanitizer contract

    "remove non-printable control characters, remove the four characters
    that could be used to inject markup or structural delimiters, collapse
    runs of whitespace to single spaces, trim, and truncate to at most 1000
    characters".  Each step is written on its own, without the regular
    expressions of the source. *)

(** A control character of ASCII (below the space, or DEL). *)
Definition is_ascii_control (c : char) : bool := ((c <? 32) || (c =? 127))%N.

(** The layout characters tab, line feed and carriage return are control
    characters that print as spacing; the remaining control characters are
    the non-printable ones. *)
Definition is_layout_control (c : char) : bool :=
  ((c =? 9) || (c =? 10) || (c =? 13))%N.

Definition is_nonprintable_control (c : char) : bool :=
  is_ascii_control c && negb (is_layout_control c).

Definition remove_control_characters (s : jsstring) : jsstring :=
  filter (fun c => negb (is_nonprintable_control c)) s.

(** The four delimiters [< > { }]. *)
Definition is_markup_delimiter (c : char) : bool :=
  existsb (char_eqb c) (lit "<>{}").

Definition remove_markup_delimiters (s : jsstring) : jsstring :=
  filter (fun c => negb (is_markup_delimiter c)) s.

(** Of a run of whitespace only its last character is kept... *)
Fixpoint drop_repeated_whitespace (s : jsstring) : jsstring :=
  match s with
  | [] => []
  | a :: rest =>
      match rest with
      | [] => [a]
      | b :: _ =>
          if is_whitespace a && is_whitespace b
          then drop_repeated_whitespace rest
          else a :: drop_repeated_whitespace rest
      end
  end.

(** ... and it becomes a space. *)
Definition collapse_whitespace (s : jsstring) : jsstring :=
  map (fun c => if is_whitespace c then char_space else c)
      (drop_repeated_whitespace s).

Definition strip_leading_whitespace (s : jsstring) : jsstring :=
  drop_while is_whitespace s.

Fixpoint strip_trailing_whitespace (s : jsstring) : jsstring :=
  match s with
  | [] => []
  | c :: s' =>
      match strip_trailing_whitespace s' with
      | [] => if is_whitespace c then [] else [c]
      | r => c :: r
      end
  end.

Definition trim_whitespace (s : jsstring) : jsstring :=
  strip_trailing_whitespace (strip_leading_whitespace s).

Definition truncate (n : nat) (s : jsstring) : jsstring := firstn n s.

Definition sanitize_by_steps (s : jsstring) : jsstring :=
  truncate 1000
    (trim_whitespace
       (collapse_whitespace
          (remove_markup_delimiters
             (remove_control_characters s)))).

(** A string ends in a space. *)
Definition ends_with_space (s : jsstring) : bool :=
  match rev s with
  | c :: _ => char_eqb c char_space
  | [] => false
  end.

(** The shape of a sanitized string: no control character of the class,
    no delimiter, and no whitespace other than the space... *)
Definition clean_char (c : char) : Prop :=
  class_control c = false /\ class_markup c = false
  /\ (is_whitespace c = true -> c = char_space).

(** ... and no two whitespace characters side by side. *)
Definition single_spaced (s : jsstring) : Prop :=
  forall l1 a b l2, s = l1 ++ a :: b :: l2 ->
    is_whitespace a = true -> is_whitespace b = true -> False.

(** [m] is a run of consecutive characters of [s]. *)
Definition infix_of (m s : jsstring) : Prop :=
  exists p q, s = p ++ m ++ q.

(** The first character, when there is one, is no whitespace. *)
Definition starts_solid (s : jsstring) : Prop :=
  match s with
  | c :: _ => is_whitespace c = false
  | [] => True
  end.

(** ** The outcome of a language-model call, as the specification sorts it *)

(** "no completion text, unparseable JSON" or a parsed value. *)
Inductive completion_outcome : Type :=
  | CallFailed                 (* the request itself threw *)
  | NoCompletionText           (* no content, or only whitespace *)
  | UnparseableJSON
  | Parsed (v : JSON).

Definition outcome_of `{Host} (r : result (option jsstring)) : completion_outcome :=
  match r with
  | Throw _ => CallFailed
  | Ok None => NoCompletionText
  | Ok (Some content) =>
      if string_truthy (trim content)
      then match JSON_parse (trim content) with
           | Some v => Parsed v
           | None => UnparseableJSON
           end
      else NoCompletionText
  end.

(** The property [key] of [v] is present and non-empty: it can be read, and
    the value is truthy (so it is neither [undefined], [null], the empty
    string, [false] nor zero). *)
Definition present_nonempty (v : JSON) (key : jsstring) : Prop :=
  exists j, getProp v key = Ok (Some j) /\ truthy (Some j) = true
            /\ j <> JNull /\ j <> JString [].

(** The same as a test; it is [false] too when the read throws. *)
Definition has_field (v : JSON) (key : jsstring) : bool :=
  match getProp v key with
  | Ok o => truthy o
  | Throw _ => false
  end.

(** The degraded record of the ReceiptExtractor: "[product_name] set to a
    literal combining a fixed prefix with the original subject, and [notes]
    carrying a truncated (at most 500-character) copy of the original body
    with a trailing ellipsis marker"; [preamble] is whatever fixed text
    stands before the copy. *)
Definition degraded_record (preamble subject body : jsstring) : JSON :=
  JObject
    [ (lit "product_name", JString (lit "Email Purchase: " ++ subject));
      (lit "notes", JString (preamble ++ firstn 500 body ++ lit "...")) ].

(** ** Lines of words *)

(** Words joined by single spaces. *)
Fixpoint join_words (ws : list jsstring) : jsstring :=
  match ws with
  | [] => []
  | w :: rest =>
      match rest with
      | [] => w
      | _ :: _ => w ++ char_space :: join_words rest
      end
  end.

(** The measured width of a line at the body size 11 does not exceed the
    usable width [maxLineWidth]. *)
Definition fits `{Collaborators} (line : jsstring) : Prop :=
  exists lineWidth,
    widthOfTextAtSize regularFont line 11 = Ok lineWidth
    /\ (lineWidth <= 1000 * maxLineWidth)%Z.

(** The drawing of one wrapped line: the line between quotes, at x = 70,
    size 11, in the regular font, black. *)
Definition line_drawn (op : draw_op) (words : list jsstring) : Prop :=
  exists y, op = DrawText (quoted (join_words words)) 70 y 11 regularFont
                   (Some blackColor).

(** A line is admissible when it fits, or is a single word that alone is
    too wide. *)
Definition line_admissible `{Collaborators} (words : list jsstring) : Prop :=
  fits (join_words words) \/ exists w, words = [w] /\ ~ fits w.

(** ** Checks over a finite range, for the calendar *)

(** [p] holds of the [n] integers from [k] on. *)
Fixpoint all_from (n : nat) (k : Z) (p : Z -> bool) : bool :=
  match n with
  | O => true
  | S n' => p k && all_from n' (k + 1) p
  end.

(** [p] holds of every integer from 0 up to [n - 1]. *)
Definition all_below (n : nat) (p : Z -> bool) : bool := all_from n 0 p.

(** The year, counted from year 1, of the day [r] of a 400-year cycle. *)
Definition year_in_cycle (r : Z) : Z :=
  let n100 := Z.min (r / 36524) 3 in
  let r2 := (r - n100 * 36524)%Z in
  let n4 := (r2 / 1461)%Z in
  let r3 := (r2 mod 1461)%Z in
  let n1 := Z.min (r3 / 365) 3 in
  (1 + 100 * n100 + 4 * n4 + n1)%Z.

(** Day [r] of the cycle lies in the year computed for it. *)
Definition cycle_day_ok (r : Z) : bool :=
  ((DayFromYear (year_in_cycle r) <=? r - 719162)
   && (r - 719162 <? DayFromYear (year_in_cycle r + 1)))%Z.

(** The sum of a month index and a whole number of months, as the numbers
    of the program compute it, is the integer sum. *)
Definition month_sum_exact (m n : Z) : bool :=
  match finite_integer (PrimFloat.add (Number_of_Z m) (Number_of_Z n)) with
  | Some k => (k =? m + n)%Z && number_truthy (Number_of_Z n)
  | None => false
  end.

(** The longest warranty the theorems on the calendar consider, in months. *)
Definition longest_warranty : Z := 1200.

(** The configuration error of [generateApplePass]. *)
Definition missing_credentials : error :=
  Error (lit "Missing required certificate environment variables: PASSKIT_CERT, PASSKIT_KEY").

(** ** Pages and the wrapping loop *)

Section WrapInvariant.
Context {collaborators : Collaborators}.

(** The invariant of the wrapping loop.

    After the words [done], the lines flushed so far are the blocks
    [flushed], and the buffer holds the block [current]. *)
Definition block_ok (b : list jsstring) : Prop :=
  b <> [] /\ (fits (join_words b) \/ exists w, b = [w]).

Definition wrap_inv (st0 : layout) (done : list jsstring)
    (acc : layout * jsstring) : Prop :=
  exists (flushed : list (list jsstring)) (current : list jsstring)
         (ops : list draw_op),
    page (fst acc) = page st0 ++ ops
    /\ Forall2 line_drawn ops flushed
    /\ snd acc = join_words current
    /\ filter string_truthy (concat flushed ++ current) = filter string_truthy done
    /\ Forall block_ok flushed
    /\ (snd acc <> [] -> block_ok current)
    /\ Forall (fun w => In w done) (concat flushed ++ current).

End WrapInvariant.


(* ================================================================== *)
(** * Further notions used by the theorems on the rest of the code *)
(* ================================================================== *)

(** ** What the email route may answer *)

(** The three intent labels. *)
Definition intent_labels : list jsstring :=
  [lit "PURCHASE"; lit "RETURN"; lit "SHIPMENT_UPDATE"].

(** The responses of the email route: a rejection by the authorization
    check, one of its four fixed errors, or an extraction under one of the
    three labels. *)
Inductive email_response : Response -> Prop :=
  | Email_unauthorized (message : jsstring) :
      email_response (json_error message 401)
  | Email_missing_fields :
      email_response (json_error (lit "Missing required email fields") 400)
  | Email_internal_error :
      email_response (json_error (lit "Internal server error") 500)
  | Email_unclassified :
      email_response (json_error (lit "Failed to classify email intent") 500)
  | Email_unextracted :
      email_response (json_error (lit "Failed to extract data from email") 500)
  | Email_extracted (label : jsstring) (data : JSON) :
      In label intent_labels ->
      email_response
        (JsonResponse (JObject [(lit "intent", JString label); (lit "data", data)])
           200).


(** ** The fields of the pass *)

(** The field of the pass that counts the products. *)
Definition products_field (value : jsstring) : PassField.t :=
  {| PassField.key := lit "products";
     PassField.label := lit "Products Protected";
     PassField.value := value |}.

Definition is_products (field : PassField.t) : bool :=
  jsstring_eqb (PassField.key field) (lit "products").

(** ** What the sanitizer keeps *)

(** A character that [sanitizeText] keeps as it is: no whitespace, no
    control character of the class, no delimiter. *)
Definition visible (c : char) : bool :=
  negb (is_whitespace c) && negb (class_control c) && negb (class_markup c).

Definition solid (c : char) : bool := negb (is_whitespace c).

(** The strings that [sanitizeText] produces unchanged. *)
Definition sanitized (s : jsstring) : Prop :=
  Forall clean_char s /\ single_spaced s /\ starts_solid s
  /\ ends_with_space s = false /\ length s <= 1000.

(** ** The lines of the description, without the page *)

(** Lines drawn one below the other from the height [y] on: between quotes,
    at x = 70 and size 11, each 16 points below the one before. *)
Fixpoint lines_from (y : Z) (lines : list jsstring) : list draw_op :=
  match lines with
  | [] => []
  | line :: rest =>
      DrawText (quoted line) 70 y 11 regularFont (Some blackColor)
        :: lines_from (y - 16) rest
  end.

(** The state after [lines] were drawn from the cursor of [st] on. *)
Definition draw_lines (st : layout) (lines : list jsstring) : layout :=
  {| yPosition := (yPosition st - 16 * Z.of_nat (length lines))%Z;
     page := page st ++ lines_from (yPosition st) lines |}.

Section WrapLines.
Context {collaborators : Collaborators}.

(** The library draws the line, between its quotes. *)
Definition drawable (line : jsstring) : Prop :=
  PDFPage_drawText regularFont (quoted line) = Ok tt.

(** The library measures and draws every text. *)
Definition accepts_every_text : Prop :=
  (forall font text, PDFPage_drawText font text = Ok tt)
  /\ (forall font text size, exists w, widthOfTextAtSize font text size = Ok w).

(** The wrapping loop on the lines alone, with its measurements and without
    the page: the lines flushed so far and the buffer. *)
Definition wrap_step (acc : list jsstring * jsstring) (word : jsstring)
    : result (list jsstring * jsstring) :=
  let '(lines, currentLine) := acc in
  let testLine :=
    currentLine ++ (if string_truthy currentLine then lit " " else []) ++ word in
  let* lineWidth := widthOfTextAtSize regularFont testLine 11 in
  if exceeds lineWidth && string_truthy currentLine
  then Ok (lines ++ [currentLine], word)
  else Ok (lines, testLine).

Definition flush (acc : list jsstring * jsstring) : list jsstring :=
  let '(lines, currentLine) := acc in
  if string_truthy currentLine then lines ++ [currentLine] else lines.

Definition wrap_lines (text : jsstring) : result (list jsstring) :=
  let* acc := forEach wrap_step (split char_space text) ([], []) in
  Ok (flush acc).

End WrapLines.

(** Rows drawn one below the other from the height [y] on: the label at
    x = 70 in the bold font, the value at x = 200, each row 16 points below
    the one before. *)
Fixpoint rows_from (y : Z) (rows : list (jsstring * jsstring)) : list draw_op :=
  match rows with
  | [] => []
  | (label, value) :: rest =>
      DrawText label 70 y 11 boldFont None
        :: DrawText value 200 y 11 regularFont None
        :: rows_from (y - 16) rest
  end.

Section PageStart.
Context {host : Host}.

(** What the page holds before the description, from the top of a Letter
    page (height 792) on. *)
Definition page_start (user : User.t) (product : Product.t) : list draw_op :=
  [ DrawText (lit "WARRANTY CLAIM PACKET") 50 742 24 boldFont (Some blueColor);
    DrawText (lit "CLAIMSO") 462 713 16 boldFont (Some grayColor);
    DrawLine 50 682 562 682 1 grayColor;
    DrawText (lit "Generated: " ++ Date_toLocaleDateString (Date_now 0)) 50 662 12
      regularFont (Some grayColor);
    DrawText (lit "PREPARED FOR:") 50 625 14 boldFont (Some blackColor);
    DrawText (sanitizeText_opt (User.name user)) 70 606 12 regularFont
      (Some blackColor);
    DrawText (sanitizeText_opt (User.email user)) 70 589 12 regularFont
      (Some grayColor);
    DrawText (lit "PRODUCT DETAILS:") 50 552 14 boldFont (Some blackColor) ]
  ++ rows_from 528 (productDetails product)
  ++ [ DrawText (lit "PURCHASE INFORMATION:") 50 444 14 boldFont (Some blackColor) ]
  ++ rows_from 420 (purchaseInfo product)
  ++ [ DrawText (lit "PROBLEM DESCRIPTION:") 50 336 14 boldFont (Some blackColor) ].

End PageStart.

(** What the page holds from the description on, the cursor being at [y]
    after the last line of the description. *)
Definition page_end (document_id : jsstring) (y : Z) : list draw_op :=
  [ DrawText (lit "SUPPORTING EVIDENCE:") 50 (y - 20) 14 boldFont (Some blackColor);
    DrawText (lit "Photos/videos available upon request.") 70 (y - 44) 11
      regularFont (Some grayColor);
    DrawText (lit "Additional documentation can be provided as needed.") 70
      (y - 60) 11 regularFont (Some grayColor);
    DrawLine 50 70 562 70 1 grayColor;
    DrawText (lit "Generated by CLAIMSO") 50 50 10 regularFont (Some grayColor);
    DrawText document_id 412 50 10 regularFont (Some grayColor) ].

(** ** The texts of the page *)

(** A text with no delimiter and no control character of the two classes
    that [sanitizeText] removes. *)
Definition inert_char (c : char) : bool :=
  negb (class_markup c) && negb (class_control c).

Definition inert (text : jsstring) : Prop := forallb inert_char text = true.

Section PageTexts.
Context {host : Host}.

(** What a text on the page may be. *)
Definition page_text (product : Product.t) (op : draw_op) : Prop :=
  match op with
  | DrawText text _ _ _ _ _ =>
      inert text
      \/ text = price_text product
      \/ text = document_id product
      \/ text = lit "Generated: " ++ Date_toLocaleDateString (Date_now 0)
  | DrawLine _ _ _ _ _ _ => True
  end.

End PageTexts.
(* ================================================================== *)
(** * Concrete inputs used by the examples below *)
(* ================================================================== *)

(** 999 letters, a space, a letter. *)
Definition long_text : jsstring := repeat 97%N 999 ++ lit " b".

(** A host for the examples: the environment is a list of settings, local
    time is a fixed offset from UTC, a number prints as its integer part in
    decimal, and the remaining built-ins answer fixed values. *)
Definition env_of (settings : list (string * string)) (key : jsstring)
    : option jsstring :=
  assoc key (map (fun kv => (lit (fst kv), lit (snd kv))) settings).

Definition decimal (z : Z) : jsstring :=
  lit (NilZero.string_of_int (Z.to_int z)).

Definition example_host (settings : list (string * string)) (offset : Z) : Host :=
  {| process_env := env_of settings;
     JSON_parse := fun _ => None;
     Number_toString :=
       fun x => match ToIntegerOrInfinity x with
                | Some z => decimal z
                | None => lit "Infinity"
                end;
     JSON_toString := fun _ => lit "undefined";
     LocalTZA := fun _ _ => offset;
     Date_parse_other := fun _ => None;
     Date_now := fun _ => 1700000000000%Z;
     Date_toLocaleDateString := fun _ => lit "November 14, 2023";
     Date_toISOString := fun _ => lit "2024-11-13T22:13:20.000Z";
     Buffer_from_base64 := fun s => s;
     Buffer_from_utf8 := fun s => s;
     svgIcon := lit "<svg/>" |}.

(** Collaborators for the examples: the language model gives no content,
    a glyph is 500 units wide, every text is drawn, and the libraries
    answer fixed bytes. *)
Definition example_collaborators : Collaborators :=
  {| chat_completions_create := fun _ _ => Ok None;
     widthOfTextAtSize :=
       fun _ text size => Ok (500 * size * Z.of_nat (length text))%Z;
     PDFPage_drawText := fun _ _ => Ok tt;
     PDFDocument_save := fun _ => Ok (lit "%PDF");
     PKPass_getAsBuffer := fun _ _ _ => Ok (lit "PK");
     createEvent :=
       fun _ => {| ics_error := None; ics_value := Some (lit "BEGIN:VCALENDAR") |} |}.

(** A configured deployment, in UTC. *)
Definition configured : list (string * string) :=
  [ ("SERVICES_API_KEY", "secret"); ("OPENAI_API_KEY", "sk-test");
    ("PASSKIT_CERT", "Y2VydA=="); ("PASSKIT_KEY", "a2V5") ]%string.

Definition utc_host : Host := example_host configured 0.

(** The same deployment with no signer key. *)
Definition keyless_host : Host :=
  example_host
    [ ("SERVICES_API_KEY", "secret"); ("PASSKIT_CERT", "Y2VydA==") ]%string 0.

(** A deployment with no [SERVICES_API_KEY]. *)
Definition unconfigured_host : Host := example_host [] 0.

(** A host five hours west of UTC. *)
Definition new_york_host : Host := example_host configured (-18000000).

Definition authorized {B} (body : B) : Context B :=
  {| req_header_Authorization := Some (lit "Bearer secret");
     req_json := Ok body |}.

Definition example_user : User.t :=
  {| User.name := Some (lit "Ada Lovelace");
     User.email := Some (lit "ada@example.com") |}.

(** A product whose currency and identifier carry delimiters. *)
Definition marked_product : Product.t :=
  {| Product.id := Some (lit "{x}");
     Product.name := Some (lit "Kettle");
     Product.brand := None;
     Product.serial_number := None;
     Product.purchase_date := Some (lit "2024-01-15");
     Product.order_number := None;
     Product.retailer := None;
     Product.price := Some 5%float;
     Product.currency := Some (lit "<b>");
     Product.category := None |}.

Definition marked_request : GeneratePacketRequest.t :=
  {| GeneratePacketRequest.product := Some marked_product;
     GeneratePacketRequest.problemDescription := Some (lit "It leaks.");
     GeneratePacketRequest.user := Some example_user |}.

(** A product given away: its price is zero. *)
Definition free_product : Product.t :=
  {| Product.id := Some (lit "p1");
     Product.name := Some (lit "Kettle");
     Product.brand := None;
     Product.serial_number := None;
     Product.purchase_date := None;
     Product.order_number := None;
     Product.retailer := None;
     Product.price := Some 0%float;
     Product.currency := Some (lit "EUR");
     Product.category := None |}.

Definition example_profile : UserProfile.t :=
  {| UserProfile.id := Some (lit "u1");
     UserProfile.full_name := Some (lit "Ada Lovelace");
     UserProfile.email := Some (lit "ada@example.com");
     UserProfile.productCount := Some 3%float |}.

Definition calendar_body (purchase_date : string) (months : number)
    : CalendarProduct.t :=
  {| CalendarProduct.id := Some (lit "p1");
     CalendarProduct.product_name := Some (lit "Kettle");
     CalendarProduct.purchase_date := Some (lit purchase_date);
     CalendarProduct.warranty_length_months := Some months |}.

Definition example_email : EmailContent.t :=
  {| EmailContent.to := Some (lit "vault@claimso.com");
     EmailContent.from := Some (lit "shop@example.com");
     EmailContent.subject := Some (lit "Your order");
     EmailContent.text := Some (lit "Thank you for your purchase.");
     EmailContent.html := None |}.


(** ** Further inputs *)

(** A claim-packet request whose requester has no email. *)
Definition unsigned_request : GeneratePacketRequest.t :=
  {| GeneratePacketRequest.product := Some marked_product;
     GeneratePacketRequest.problemDescription := Some (lit "It leaks.");
     GeneratePacketRequest.user :=
       Some {| User.name := Some (lit "Ada"); User.email := None |} |}.

(** A profile with no product count. *)
Definition uncounted_profile : UserProfile.t :=
  {| UserProfile.id := Some (lit "u1");
     UserProfile.full_name := None;
     UserProfile.email := Some (lit "ada@example.com");
     UserProfile.productCount := None |}.

(** A deployment whose model answers to every request the object with the
    one property [intent], and whose [JSON.parse] reads that text. *)
Definition label_text (label : string) : jsstring :=
  lit "{" ++ [34%N] ++ lit "intent" ++ [34%N] ++ lit ":" ++ [34%N]
    ++ lit label ++ [34%N] ++ lit "}".

Definition classifying_host (label : string) : Host :=
  {| process_env := env_of configured;
     JSON_parse :=
       fun s => if jsstring_eqb s (label_text label)
                then Some (JObject [(lit "intent", JString (lit label))])
                else None;
     Number_toString := fun _ => lit "0";
     JSON_toString := fun _ => lit "undefined";
     LocalTZA := fun _ _ => 0%Z;
     Date_parse_other := fun _ => None;
     Date_now := fun _ => 1700000000000%Z;
     Date_toLocaleDateString := fun _ => lit "November 14, 2023";
     Date_toISOString := fun _ => lit "2024-11-13T22:13:20.000Z";
     Buffer_from_base64 := fun s => s;
     Buffer_from_utf8 := fun s => s;
     svgIcon := lit "<svg/>" |}.

Definition labelling_collaborators (label : string) : Collaborators :=
  {| chat_completions_create := fun _ _ => Ok (Some (label_text label));
     widthOfTextAtSize :=
       fun _ text size => Ok (500 * size * Z.of_nat (length text))%Z;
     PDFPage_drawText := fun _ _ => Ok tt;
     PDFDocument_save := fun _ => Ok (lit "%PDF");
     PKPass_getAsBuffer := fun _ _ _ => Ok (lit "PK");
     createEvent :=
       fun _ => {| ics_error := None; ics_value := Some (lit "BEGIN:VCALENDAR") |} |}.


(** A library whose standard fonts encode the code units below 256 only, in
    the place of the WinAnsi encoding of the standard fonts: a text with
    another code unit is neither measured nor drawn. *)
Definition encodable (text : jsstring) : bool :=
  forallb (fun c => (c <? 256)%N) text.

Definition strict_collaborators : Collaborators :=
  {| chat_completions_create := fun _ _ => Ok None;
     widthOfTextAtSize :=
       fun _ text size =>
         if encodable text then Ok (500 * size * Z.of_nat (length text))%Z
         else Throw (ExternalFailure 1);
     PDFPage_drawText :=
       fun _ text => if encodable text then Ok tt else Throw (ExternalFailure 1);
     PDFDocument_save := fun _ => Ok (lit "%PDF");
     PKPass_getAsBuffer := fun _ _ _ => Ok (lit "PK");
     createEvent :=
       fun _ => {| ics_error := None; ics_value := Some (lit "BEGIN:VCALENDAR") |} |}.

(** The one character U+738B. *)
Definition unencodable_text : jsstring := [29579%N].

(** Two words of 42 letters: 85 code units with the space between them. *)
Definition two_long_words : jsstring :=
  repeat 97%N 42 ++ lit " " ++ repeat 97%N 42.

(** A word of 43 letters, and a description of 22 such words: no two of
    them fit one line of the example library. *)
Definition long_word : jsstring := repeat 97%N 43.

Definition long_description : jsstring :=
  long_word ++ concat (repeat (lit " " ++ long_word) 21).

Definition long_request : GeneratePacketRequest.t :=
  {| GeneratePacketRequest.product := Some marked_product;
     GeneratePacketRequest.problemDescription := Some long_description;
     GeneratePacketRequest.user := Some example_user |}.

(** A claim-packet request whose product name is the character U+738B. *)
Definition unencodable_request : GeneratePacketRequest.t :=
  {| GeneratePacketRequest.product :=
       Some {| Product.id := Some (lit "p1");
               Product.name := Some unencodable_text;
               Product.brand := None;
               Product.serial_number := None;
               Product.purchase_date := None;
               Product.order_number := None;
               Product.retailer := None;
               Product.price := None;
               Product.currency := None;
               Product.category := None |};
     GeneratePacketRequest.problemDescription := Some (lit "It leaks.");
     GeneratePacketRequest.user := Some example_user |}.
(* ================================================================== *)
(** * Part V: lemmas and theorems *)
(* ================================================================== *)

(** ** TextSanitizer *)

Section SanitizerFacts.

(** *** Character classes *)

Ltac char_cases :=
  repeat match goal with
         | |- context [(?a <=? ?b)%N] => destruct (N.leb_spec a b)
         | |- context [(?a <? ?b)%N] => destruct (N.ltb_spec a b)
         | |- context [(?a =? ?b)%N] => destruct (N.eqb_spec a b)
         | H : context [(?a <=? ?b)%N] |- _ => destruct (N.leb_spec a b)
         | H : context [(?a <? ?b)%N] |- _ => destruct (N.ltb_spec a b)
         | H : context [(?a =? ?b)%N] |- _ => destruct (N.eqb_spec a b)
         end;
  simpl in *; try reflexivity; try discriminate; try lia.

Lemma class_control_nonprintable (c : char) :
  class_control c = is_nonprintable_control c.
Proof.
  unfold class_control, is_nonprintable_control, is_ascii_control,
    is_layout_control.
  char_cases.
Qed.

Lemma class_markup_delimiter (c : char) :
  class_markup c = is_markup_delimiter c.
Proof.
  unfold class_markup, is_markup_delimiter, char_eqb. simpl.
  char_cases.
Qed.

Lemma space_is_whitespace : is_whitespace char_space = true.
Proof. reflexivity. Qed.

Lemma space_not_control : class_control char_space = false.
Proof. reflexivity. Qed.

Lemma space_not_markup : class_markup char_space = false.
Proof. reflexivity. Qed.

(** A character that is neither in the control class nor whitespace is no
    control character of ASCII at all. *)
Ltac bool_to_prop :=
  repeat match goal with
         | H : _ || _ = false |- _ => apply orb_false_iff in H; destruct H
         | H : _ && _ = false |- _ => apply andb_false_iff in H
         | H : (_ <=? _)%N = false |- _ => apply N.leb_gt in H
         | H : (_ <? _)%N = false |- _ => apply N.ltb_ge in H
         | H : (_ =? _)%N = false |- _ => apply N.eqb_neq in H
         end.

Lemma not_control_not_whitespace_printable (c : char) :
  class_control c = false -> is_whitespace c = false -> is_ascii_control c = false.
Proof.
  unfold class_control, is_whitespace, is_ascii_control. intros H1 H2.
  bool_to_prop.
  apply orb_false_iff. split; [apply N.ltb_ge | apply N.eqb_neq]; [|assumption].
  repeat match goal with
         | H : _ \/ _ |- _ => destruct H
         end; bool_to_prop; lia.
Qed.

(** *** The regular-expression replacements *)

Lemma replace_class_filter (cls : char -> bool) (s : jsstring) :
  replace_class cls [] s = filter (fun c => negb (cls c)) s.
Proof.
  unfold replace_class.
  induction s as [|c s IH]; simpl; [reflexivity|].
  rewrite IH. now destruct (cls c).
Qed.

Lemma filter_ext_bool (p q : char -> bool) (s : jsstring) :
  (forall c, p c = q c) -> filter p s = filter q s.
Proof.
  intros E. induction s as [|c s IH]; simpl; [reflexivity|].
  now rewrite E, IH.
Qed.

Lemma replace_plus_from_false (cls : char -> bool) (sp : char) (s : jsstring) :
  replace_class_plus_from cls [sp] false s =
  match s with
  | c :: _ => if cls c then sp :: replace_class_plus_from cls [sp] true s
              else replace_class_plus_from cls [sp] true s
  | [] => replace_class_plus_from cls [sp] true s
  end.
Proof.
  destruct s as [|c s]; simpl; [reflexivity|].
  now destruct (cls c).
Qed.

Lemma replace_plus_collapse (s : jsstring) :
  replace_class_plus is_whitespace (lit " ") s = collapse_whitespace s.
Proof.
  unfold replace_class_plus, collapse_whitespace. change (lit " ") with [char_space].
  induction s as [|a rest IH]; [reflexivity|].
  cbn [replace_class_plus_from drop_repeated_whitespace].
  destruct rest as [|b rest'].
  - simpl. now destruct (is_whitespace a).
  - rewrite replace_plus_from_false in IH.
    destruct (is_whitespace a) eqn:Ea; cbn [andb app].
    + destruct (is_whitespace b) eqn:Eb.
      * rewrite <- IH. cbn [replace_class_plus_from]. rewrite Eb. reflexivity.
      * cbn [map]. rewrite Ea. f_equal. rewrite <- IH.
        cbn [replace_class_plus_from]. rewrite Eb. reflexivity.
    + cbn [map]. rewrite Ea. f_equal.
      rewrite <- IH. rewrite replace_plus_from_false.
      destruct (is_whitespace b); reflexivity.
Qed.

(** *** Trimming *)

Lemma strip_trailing_snoc (s : jsstring) (c : char) :
  strip_trailing_whitespace (s ++ [c]) =
  if is_whitespace c then strip_trailing_whitespace s else s ++ [c].
Proof.
  induction s as [|a s IH]; simpl.
  - now destruct (is_whitespace c).
  - rewrite IH. destruct (is_whitespace c) eqn:Ec; [reflexivity|].
    destruct (s ++ [c]) eqn:E; [|reflexivity].
    now destruct s.
Qed.

Lemma trimEnd_strip_trailing (s : jsstring) :
  trimEnd s = strip_trailing_whitespace s.
Proof.
  unfold trimEnd.
  induction s as [|c s IH] using rev_ind; [reflexivity|].
  rewrite rev_app_distr, strip_trailing_snoc. simpl.
  destruct (is_whitespace c); [exact IH|].
  simpl. now rewrite rev_involutive.
Qed.

Lemma trim_trim_whitespace (s : jsstring) : trim s = trim_whitespace s.
Proof. unfold trim, trim_whitespace. apply trimEnd_strip_trailing. Qed.

Lemma substring_0 (s : jsstring) (n : nat) : substring s 0 n = firstn n s.
Proof. unfold substring. simpl. now rewrite Nat.sub_0_r. Qed.

End SanitizerFacts.

(** C6.  [sanitizeText] is the composition of the five steps of the
    contract, in their order: remove the non-printable control characters,
    remove the four delimiters, collapse every run of whitespace to one
    space, trim, truncate to 1000 code units. *)
Theorem sanitizeText_is_the_five_steps (s : jsstring) :
  sanitizeText s = sanitize_by_steps s.
Proof.
  unfold sanitizeText, sanitize_by_steps, truncate.
  destruct s as [|c s]; [reflexivity|].
  cbn [string_truthy negb].
  rewrite substring_0, trim_trim_whitespace, replace_plus_collapse.
  rewrite !replace_class_filter.
  unfold remove_markup_delimiters, remove_control_characters.
  rewrite (filter_ext_bool (fun c => negb (class_control c))
             (fun c => negb (is_nonprintable_control c)))
    by (intros; now rewrite class_control_nonprintable).
  rewrite (filter_ext_bool (fun c => negb (class_markup c))
             (fun c => negb (is_markup_delimiter c)))
    by (intros; now rewrite class_markup_delimiter).
  reflexivity.
Qed.

Section SanitizerShape.

Lemma infix_refl (s : jsstring) : infix_of s s.
Proof. exists [], []. now rewrite app_nil_r. Qed.

Lemma infix_trans (a b c : jsstring) :
  infix_of a b -> infix_of b c -> infix_of a c.
Proof.
  intros (p & q & ->) (p' & q' & ->).
  exists (p' ++ p), (q ++ q'). now rewrite <- !app_assoc.
Qed.

Lemma drop_while_suffix (f : char -> bool) (s : jsstring) :
  exists p, s = p ++ drop_while f s.
Proof.
  induction s as [|c s (p & IH)]; simpl.
  - now exists [].
  - destruct (f c).
    + exists (c :: p). simpl. now f_equal.
    + now exists [].
Qed.

Lemma drop_while_head (f : char -> bool) (s : jsstring) (c : char) (t : jsstring) :
  drop_while f s = c :: t -> f c = false.
Proof.
  induction s as [|a s IH]; simpl; [discriminate|].
  destruct (f a) eqn:E; [exact IH|].
  intros [= -> _]. exact E.
Qed.

Lemma trimEnd_prefix (s : jsstring) : exists q, s = trimEnd s ++ q.
Proof.
  unfold trimEnd.
  destruct (drop_while_suffix is_whitespace (rev s)) as (p & E).
  exists (rev p).
  rewrite <- rev_app_distr, <- E. now rewrite rev_involutive.
Qed.

Lemma infix_trimStart (s : jsstring) : infix_of (trimStart s) s.
Proof.
  destruct (drop_while_suffix is_whitespace s) as (p & E).
  exists p, []. now rewrite app_nil_r.
Qed.

Lemma infix_trimEnd (s : jsstring) : infix_of (trimEnd s) s.
Proof. destruct (trimEnd_prefix s) as (q & E). now exists [], q. Qed.

Lemma infix_firstn (n : nat) (s : jsstring) : infix_of (firstn n s) s.
Proof. exists [], (skipn n s). simpl. now rewrite firstn_skipn. Qed.

Lemma infix_Forall (P : char -> Prop) (m s : jsstring) :
  infix_of m s -> Forall P s -> Forall P m.
Proof.
  intros (p & q & ->) H.
  apply Forall_app in H as [_ H]. now apply Forall_app in H as [H _].
Qed.

Lemma infix_single_spaced (m s : jsstring) :
  infix_of m s -> single_spaced s -> single_spaced m.
Proof.
  intros (p & q & ->) H l1 a b l2 ->.
  apply (H (p ++ l1) a b (l2 ++ q)).
  rewrite <- !app_assoc. simpl. reflexivity.
Qed.

Lemma single_spaced_tail (c : char) (s : jsstring) :
  single_spaced (c :: s) -> single_spaced s.
Proof. apply infix_single_spaced. now exists [c], []; rewrite app_nil_r. Qed.

(** *** What the collapse of whitespace produces *)

Lemma collapse_true_starts_solid (s : jsstring) :
  starts_solid (replace_class_plus_from is_whitespace [char_space] true s).
Proof.
  induction s as [|c s IH]; simpl; [exact I|].
  destruct (is_whitespace c) eqn:E; simpl; [exact IH | exact E].
Qed.

Lemma single_spaced_cons (c : char) (s : jsstring) :
  single_spaced s ->
  (is_whitespace c = true -> starts_solid s) ->
  single_spaced (c :: s).
Proof.
  intros Hs Hc l1 a b l2 E Ha Hb.
  destruct l1 as [|x l1]; simpl in E; injection E as -> E.
  - subst s. specialize (Hc Ha). simpl in Hc. congruence.
  - exact (Hs _ _ _ _ E Ha Hb).
Qed.

Lemma single_spaced_nil : single_spaced [].
Proof. intros [|x l1] a b l2 E; discriminate E. Qed.

Lemma collapse_single_spaced (b : bool) (s : jsstring) :
  single_spaced (replace_class_plus_from is_whitespace [char_space] b s).
Proof.
  revert b. induction s as [|c s IH]; intros b; simpl.
  - apply single_spaced_nil.
  - destruct (is_whitespace c) eqn:E.
    + destruct b; simpl; [apply IH|].
      apply single_spaced_cons; [apply IH|].
      intros _. apply collapse_true_starts_solid.
    + apply single_spaced_cons; [apply IH|]. congruence.
Qed.

Lemma collapse_clean (b : bool) (s : jsstring) :
  Forall (fun c => class_control c = false /\ class_markup c = false) s ->
  Forall clean_char (replace_class_plus_from is_whitespace [char_space] b s).
Proof.
  intros H. revert b. induction H as [|c s [Hc Hm] _ IH]; intros b; simpl.
  - constructor.
  - destruct (is_whitespace c) eqn:E.
    + destruct b; simpl; [apply IH|].
      constructor; [|apply IH]. now repeat split.
    + constructor; [|apply IH]. repeat split; trivial. congruence.
Qed.

Lemma filter_both_classes (s : jsstring) :
  Forall (fun c => class_control c = false /\ class_markup c = false)
    (replace_class class_markup [] (replace_class class_control [] s)).
Proof.
  rewrite !replace_class_filter.
  apply Forall_forall. intros c Hc.
  apply filter_In in Hc as [Hc Hm]. apply filter_In in Hc as [_ Hc].
  split; now apply negb_true_iff.
Qed.

(** *** A sanitized string *)

(** The text before truncation. *)
Lemma cleaned_shape (s : jsstring) :
  let t := replace_class_plus is_whitespace (lit " ")
             (replace_class class_markup [] (replace_class class_control [] s)) in
  Forall clean_char t /\ single_spaced t.
Proof.
  split.
  - apply collapse_clean, filter_both_classes.
  - apply collapse_single_spaced.
Qed.

Lemma starts_solid_prefix (s q : jsstring) :
  starts_solid (s ++ q) -> starts_solid s.
Proof. destruct s; simpl; auto. Qed.

Lemma trim_starts_solid (s : jsstring) : starts_solid (trim s).
Proof.
  unfold trim.
  destruct (trimEnd_prefix (trimStart s)) as (q & E).
  apply starts_solid_prefix with q. rewrite <- E.
  unfold trimStart. destruct (drop_while is_whitespace s) as [|c t] eqn:D.
  - exact I.
  - simpl. eapply drop_while_head; eauto.
Qed.

Lemma firstn_starts_solid (n : nat) (s : jsstring) :
  starts_solid s -> starts_solid (firstn n s).
Proof. destruct n, s; simpl; auto. Qed.

Lemma sanitizeText_shape (s : jsstring) :
  Forall clean_char (sanitizeText s) /\ single_spaced (sanitizeText s)
  /\ starts_solid (sanitizeText s) /\ length (sanitizeText s) <= 1000.
Proof.
  unfold sanitizeText.
  destruct (negb (string_truthy s)).
  - repeat split; simpl; auto using single_spaced_nil. lia.
  - rewrite substring_0.
    destruct (cleaned_shape s) as [HF HS]. cbv zeta in HF, HS.
    set (t := replace_class_plus _ _ _) in *.
    assert (HI : infix_of (firstn 1000 (trim t)) t).
    { eapply infix_trans; [apply infix_firstn|].
      eapply infix_trans; [apply infix_trimEnd | apply infix_trimStart]. }
    repeat split.
    + eapply infix_Forall; eauto.
    + eapply infix_single_spaced; eauto.
    + apply firstn_starts_solid, trim_starts_solid.
    + apply firstn_le_length.
Qed.

(** *** Sanitizing a string of that shape *)

Lemma replace_class_clean (cls : char -> bool) (s : jsstring) :
  Forall (fun c => cls c = false) s -> replace_class cls [] s = s.
Proof.
  intros H. unfold replace_class.
  induction H as [|c s Hc _ IH]; simpl; [reflexivity|].
  now rewrite Hc, IH.
Qed.

Lemma collapse_fixed (s : jsstring) :
  Forall clean_char s -> single_spaced s ->
  replace_class_plus_from is_whitespace [char_space] false s = s.
Proof.
  intros H. induction H as [|c s (_ & _ & Hc) _ IH]; intros HS; simpl.
  - reflexivity.
  - specialize (IH (single_spaced_tail HS)).
    destruct (is_whitespace c) eqn:E.
    + rewrite (Hc eq_refl). simpl. f_equal.
      rewrite replace_plus_from_false in IH.
      destruct s as [|b s']; [reflexivity|].
      destruct (is_whitespace b) eqn:Eb; [|exact IH].
      exfalso. apply (HS [] c b s'); auto.
    + now f_equal.
Qed.

Lemma trimStart_solid (s : jsstring) : starts_solid s -> trimStart s = s.
Proof.
  unfold trimStart. destruct s as [|c s]; simpl; [reflexivity|].
  now intros ->.
Qed.

Lemma trimEnd_length (s : jsstring) : length (trimEnd s) <= length s.
Proof.
  destruct (trimEnd_prefix s) as (q & E).
  rewrite E at 2. rewrite length_app. lia.
Qed.

(** A second application only strips what whitespace the truncation left
    at the end. *)
Lemma sanitizeText_twice (s : jsstring) :
  sanitizeText (sanitizeText s) = trimEnd (sanitizeText s).
Proof.
  destruct (sanitizeText_shape s) as (HF & HS & HH & HL).
  set (r := sanitizeText s) in *.
  unfold sanitizeText at 1.
  destruct r as [|c r'] eqn:Er; [reflexivity|].
  cbn [string_truthy negb]. rewrite <- Er in *. clear Er c r'.
  rewrite (replace_class_clean class_control)
    by (eapply Forall_impl; [|exact HF]; now intros a (? & _)).
  rewrite (replace_class_clean class_markup)
    by (eapply Forall_impl; [|exact HF]; now intros a (_ & ? & _)).
  unfold replace_class_plus. change (lit " ") with [char_space].
  rewrite collapse_fixed by assumption.
  unfold trim. rewrite trimStart_solid by assumption.
  rewrite substring_0. apply firstn_all2.
  pose proof (trimEnd_length r). lia.
Qed.

Lemma trimEnd_fixed_iff (r : jsstring) :
  Forall clean_char r ->
  (trimEnd r = r <-> ends_with_space r = false).
Proof.
  intros HF. unfold trimEnd, ends_with_space.
  assert (HR : Forall clean_char (rev r)) by now apply Forall_rev.
  destruct (rev r) as [|c t] eqn:E.
  - apply (f_equal (@rev char)) in E. rewrite rev_involutive in E.
    subst r. simpl. tauto.
  - apply (f_equal (@rev char)) in E. rewrite rev_involutive in E. subst r.
    inversion HR as [|? ? (_ & _ & Hc) _]; subst.
    simpl. destruct (is_whitespace c) eqn:Ec.
    + rewrite (Hc eq_refl). split; [|discriminate].
      intros H. apply (f_equal (@length char)) in H.
      rewrite length_app, !length_rev in H. simpl in H.
      destruct (drop_while_suffix is_whitespace t) as (p & Hp).
      rewrite Hp in H at 2. rewrite length_app in H. lia.
    + split; [|reflexivity]. intros _.
      unfold char_eqb. apply N.eqb_neq. intros ->. discriminate Ec.
Qed.

Lemma clean_char_no_markup (c : char) :
  clean_char c -> is_markup_delimiter c = false.
Proof. intros (_ & H & _). now rewrite <- class_markup_delimiter. Qed.

Lemma clean_char_no_control (c : char) :
  clean_char c -> is_ascii_control c = false.
Proof.
  intros (H1 & _ & H3).
  destruct (is_whitespace c) eqn:E.
  - now rewrite (H3 eq_refl).
  - now apply not_control_not_whitespace_printable.
Qed.

End SanitizerShape.

(** C5, as the code has it.  For every input the sanitized text has at most
    1000 code units, none of the four delimiters and no control character;
    a second application of [sanitizeText] only strips trailing whitespace,
    so it changes nothing exactly when the sanitized text does not end in a
    space (a space can only be left there by the truncation). *)
Theorem sanitizeText_output (s : jsstring) :
  let r := sanitizeText s in
  (sanitizeText r = r <-> ends_with_space r = false)
  /\ sanitizeText r = trimEnd r
  /\ length r <= 1000
  /\ Forall (fun c => is_markup_delimiter c = false) r
  /\ Forall (fun c => is_ascii_control c = false /\ is_nonprintable_control c = false) r.
Proof.
  cbv zeta.
  destruct (sanitizeText_shape s) as (HF & HS & HH & HL).
  split; [|split; [|split; [|split]]].
  - rewrite sanitizeText_twice. now apply trimEnd_fixed_iff.
  - apply sanitizeText_twice.
  - exact HL.
  - eapply Forall_impl; [|exact HF]. apply clean_char_no_markup.
  - eapply Forall_impl; [|exact HF]. intros c Hc.
    pose proof (clean_char_no_control Hc) as H.
    split; [exact H|]. unfold is_nonprintable_control. now rewrite H.
Qed.

(** C5 as stated fails: on a text whose 1000th code unit is a space between
    two words, the truncation leaves that space at the end, and a second
    application removes it. *)
Lemma sanitizeText_not_idempotent :
  sanitizeText long_text = repeat 97%N 999 ++ lit " "
  /\ sanitizeText (sanitizeText long_text) = repeat 97%N 999
  /\ sanitizeText (sanitizeText long_text) <> sanitizeText long_text.
Proof.
  assert (E1 : sanitizeText long_text = repeat 97%N 999 ++ lit " ")
    by (vm_compute; reflexivity).
  assert (E2 : sanitizeText (sanitizeText long_text) = repeat 97%N 999)
    by (vm_compute; reflexivity).
  split; [exact E1|]. split; [exact E2|].
  rewrite E2, E1. intros H. apply (f_equal (@length char)) in H.
  rewrite length_app, !repeat_length in H. change (length (lit " ")) with 1 in H. lia.
Qed.

(** ** The extractors *)

Section Extractors.
Context {host : Host} {collaborators : Collaborators}.

Lemma has_field_present (v : JSON) (key : jsstring) :
  has_field v key = true -> present_nonempty v key.
Proof.
  unfold has_field, present_nonempty.
  destruct (getProp v key) as [[j|]|e]; simpl; try discriminate.
  intros H. exists j. repeat split; trivial.
  - intros ->. discriminate H.
  - intros ->. discriminate H.
Qed.

Lemma truthy_has_field (v : JSON) (key : jsstring) (o : option JSON) :
  getProp v key = Ok o -> truthy o = has_field v key.
Proof. unfold has_field. now intros ->. Qed.

(** What the body of each [try] block computes from the completion. *)
Lemma responseText_parse (content : option jsstring) (message : jsstring)
    (k : JSON -> result (option JSON)) :
  (let* responseText := responseText_of content message in
   let* parsed := JSON_parse_or_throw responseText in k parsed)
  = match outcome_of (Ok content) with
    | Parsed v => k v
    | UnparseableJSON => Throw SyntaxError
    | _ => Throw (Error message)
    end.
Proof.
  unfold responseText_of, outcome_of, JSON_parse_or_throw.
  destruct content as [c|]; [|reflexivity].
  destruct (string_truthy (trim c)); simpl; [|reflexivity].
  now destruct (JSON_parse (trim c)).
Qed.

(** [parseStatusUpdateWithAI] by cases on the outcome of the call. *)
Lemma parseStatusUpdateWithAI_cases (openai : OpenAI) (subject text : jsstring) :
  parseStatusUpdateWithAI openai subject text =
  match outcome_of
          (chat_completions_create openai
             (completion_request STATUS_UPDATE_PARSING_PROMPT subject text 300))
  with
  | Parsed v =>
      if has_field v (lit "order_id") && has_field v (lit "status")
      then Some v else None
  | _ => None
  end.
Proof.
  unfold parseStatusUpdateWithAI.
  destruct (chat_completions_create _ _) as [content|e]; [|reflexivity].
  cbn [bind]. rewrite responseText_parse.
  destruct (outcome_of (Ok content)) as [| | |v]; try reflexivity.
  unfold has_field.
  destruct v; simpl; try reflexivity.
  destruct (truthy (assoc (lit "order_id") props)); simpl; [|reflexivity].
  now destruct (truthy (assoc (lit "status") props)).
Qed.

(** [parseReceiptWithAI] by cases on the outcome of the call. *)
Lemma parseReceiptWithAI_cases (openai : OpenAI) (subject text : jsstring) :
  parseReceiptWithAI openai subject text =
  match outcome_of
          (chat_completions_create openai
             (completion_request RECEIPT_PARSING_PROMPT subject text 500))
  with
  | Parsed v =>
      if has_field v (lit "product_name") then Some v
      else Some (degraded_record
                   (lit "Automated extraction failed. Original content: ")
                   subject text)
  | _ => Some (degraded_record
                 (lit "Automated extraction failed. Original content: ")
                 subject text)
  end.
Proof.
  unfold parseReceiptWithAI, degraded_record. rewrite substring_0.
  destruct (chat_completions_create _ _) as [content|e]; [|reflexivity].
  cbn [bind]. rewrite responseText_parse.
  destruct (outcome_of (Ok content)) as [| | |v]; try reflexivity.
  unfold has_field.
  destruct v; simpl; try reflexivity.
  now destruct (truthy (assoc (lit "product_name") props)).
Qed.

Lemma degraded_record_product_name (preamble subject body : jsstring) :
  present_nonempty (degraded_record preamble subject body) (lit "product_name").
Proof.
  exists (JString (lit "Email Purchase: " ++ subject)).
  repeat split; try discriminate.
Qed.

End Extractors.

(** C2.  The receipt extractor always answers a record with a non-empty
    [product_name].  When the call fails (the request throws, there is no
    completion text, the text is no JSON, or [product_name] is missing or
    empty) the record is the degraded one: [product_name] is the prefix
    "Email Purchase: " followed by the subject, and [notes] holds the first
    500 code units of the body at most, followed by "...". *)
Theorem parseReceiptWithAI_degrades
    (host : Host) (collaborators : Collaborators)
    (openai : OpenAI) (subject text : jsstring) :
  let outcome :=
    outcome_of
      (chat_completions_create openai
         (completion_request RECEIPT_PARSING_PROMPT subject text 500)) in
  let failed :=
    match outcome with
    | Parsed v => negb (has_field v (lit "product_name"))
    | _ => true
    end in
  let degraded :=
    degraded_record (lit "Automated extraction failed. Original content: ")
      subject text in
  (exists record, parseReceiptWithAI openai subject text = Some record
                  /\ present_nonempty record (lit "product_name"))
  /\ (failed = true -> parseReceiptWithAI openai subject text = Some degraded)
  /\ getProp degraded (lit "product_name")
     = Ok (Some (JString (lit "Email Purchase: " ++ subject)))
  /\ getProp degraded (lit "notes")
     = Ok (Some (JString
                   (lit "Automated extraction failed. Original content: "
                      ++ firstn 500 text ++ lit "...")))
  /\ length (firstn 500 text) <= 500
  /\ (exists rest, text = firstn 500 text ++ rest).
Proof.
  cbv zeta. rewrite parseReceiptWithAI_cases.
  set (o := outcome_of _).
  split; [|split; [|split; [|split; [|split]]]].
  - destruct o as [| | |v];
      try (eexists; split; [reflexivity | apply degraded_record_product_name]).
    destruct (has_field v (lit "product_name")) eqn:E.
    + exists v. split; [reflexivity | now apply has_field_present].
    + eexists; split; [reflexivity | apply degraded_record_product_name].
  - destruct o as [| | |v]; try reflexivity.
    now destruct (has_field v (lit "product_name")).
  - reflexivity.
  - reflexivity.
  - apply firstn_le_length.
  - exists (skipn 500 text). symmetry. apply firstn_skipn.
Qed.

(** C3.  The status extractor answers either a record in which both
    [order_id] and [status] are present and non-empty, or no record; on any
    failure (the request throws, no completion text, no JSON, a required
    field missing or empty) it answers no record. *)
Theorem parseStatusUpdateWithAI_fails_closed
    (host : Host) (collaborators : Collaborators)
    (openai : OpenAI) (subject text : jsstring) :
  let outcome :=
    outcome_of
      (chat_completions_create openai
         (completion_request STATUS_UPDATE_PARSING_PROMPT subject text 300)) in
  let failed :=
    match outcome with
    | Parsed v => negb (has_field v (lit "order_id"))
                  || negb (has_field v (lit "status"))
    | _ => true
    end in
  (parseStatusUpdateWithAI openai subject text = None
   \/ exists record, parseStatusUpdateWithAI openai subject text = Some record
                     /\ present_nonempty record (lit "order_id")
                     /\ present_nonempty record (lit "status"))
  /\ (failed = true <-> parseStatusUpdateWithAI openai subject text = None).
Proof.
  cbv zeta. rewrite parseStatusUpdateWithAI_cases.
  set (o := outcome_of _).
  destruct o as [| | |v]; try (split; [now left | tauto]).
  destruct (has_field v (lit "order_id")) eqn:E1;
    destruct (has_field v (lit "status")) eqn:E2; simpl;
    try (split; [now left | tauto]).
  split.
  - right. exists v. auto using has_field_present.
  - split; discriminate.
Qed.

(** ** The word wrap of the claim-packet renderer *)

Section WordWrap.
Context {collaborators : Collaborators}.

Lemma join_words_snoc (ws : list jsstring) (w : jsstring) :
  ws <> [] -> join_words (ws ++ [w]) = join_words ws ++ char_space :: w.
Proof.
  induction ws as [|a ws IH]; [congruence|]. intros _.
  destruct ws as [|b ws]; [reflexivity|].
  change (join_words ((a :: b :: ws) ++ [w]))
    with (a ++ char_space :: join_words ((b :: ws) ++ [w])).
  rewrite IH by discriminate.
  change (join_words (a :: b :: ws)) with (a ++ char_space :: join_words (b :: ws)).
  now rewrite <- app_assoc.
Qed.

Lemma join_words_empty (ws : list jsstring) :
  join_words ws = [] -> filter string_truthy ws = [].
Proof.
  destruct ws as [|a [|b ws]]; simpl; trivial.
  - now intros ->.
  - intros H. apply app_eq_nil in H as [_ H]. discriminate H.
Qed.

Lemma string_truthy_false (s : jsstring) : string_truthy s = false -> s = [].
Proof. now destruct s. Qed.

Lemma fits_dec (line : jsstring) : {fits line} + {~ fits line}.
Proof.
  unfold fits.
  destruct (widthOfTextAtSize regularFont line 11) as [w|e].
  - destruct (Z_le_dec w (1000 * maxLineWidth)) as [H|H].
    + left. now exists w.
    + right. intros (w' & [= <-] & H'). contradiction.
  - right. intros (w & E & _). discriminate E.
Qed.

Lemma not_exceeds_fits (line : jsstring) (lineWidth : Z) :
  widthOfTextAtSize regularFont line 11 = Ok lineWidth ->
  exceeds lineWidth = false -> fits line.
Proof.
  unfold exceeds, fits. intros E H. exists lineWidth.
  split; [exact E | now apply Z.ltb_ge in H].
Qed.

(** *** Calls that return *)

Lemma bind_Ok {A B} (m : result A) (k : A -> result B) (b : B) :
  bind m k = Ok b -> exists a, m = Ok a /\ k a = Ok b.
Proof. destruct m as [a|e]; [|discriminate]. intros H. now exists a. Qed.

Lemma drawText_Ok (t : jsstring) (x size : Z) (f : Font) (c : option Color)
    (st st' : layout) :
  drawText t x size f c st = Ok st' ->
  PDFPage_drawText f t = Ok tt
  /\ st' = {| yPosition := yPosition st;
              page := page st ++ [DrawText t x (yPosition st) size f c] |}.
Proof.
  unfold drawText. destruct (PDFPage_drawText f t) as [[]|e]; [|discriminate].
  cbn [bind]. now intros [= <-].
Qed.

Lemma addText_Ok (t : jsstring) (x size : Z) (f : Font) (c : Color)
    (st st' : layout) :
  addText t x size f c st = Ok st' ->
  PDFPage_drawText f t = Ok tt
  /\ st' = {| yPosition := (yPosition st - (size + 5))%Z;
              page := page st ++ [DrawText t x (yPosition st) size f (Some c)] |}.
Proof.
  unfold addText. intros H. apply bind_Ok in H as (st1 & E & H).
  apply drawText_Ok in E as [Hd ->]. injection H as <-. now split.
Qed.

Lemma addText_accepted (t : jsstring) (x size : Z) (f : Font) (c : Color)
    (st : layout) :
  PDFPage_drawText f t = Ok tt ->
  addText t x size f c st
  = Ok {| yPosition := (yPosition st - (size + 5))%Z;
          page := page st ++ [DrawText t x (yPosition st) size f (Some c)] |}.
Proof. intros H. unfold addText, drawText. now rewrite H. Qed.

(** *** The invariant of the loop *)

Lemma wrap_inv_start (st0 : layout) : wrap_inv st0 [] (st0, []).
Proof.
  exists [], [], []. simpl. rewrite app_nil_r.
  repeat split; auto; congruence.
Qed.

Lemma Forall_In_snoc (done : list jsstring) (w : jsstring) (l : list jsstring) :
  Forall (fun x => In x done) l -> Forall (fun x => In x (done ++ [w])) l.
Proof.
  apply Forall_impl. intros x Hx. apply in_or_app. now left.
Qed.

Lemma wrap_inv_step (st0 : layout) (done : list jsstring)
    (acc acc' : layout * jsstring) (word : jsstring) :
  wrap_word acc word = Ok acc' ->
  wrap_inv st0 done acc -> wrap_inv st0 (done ++ [word]) acc'.
Proof.
  destruct acc as [st cur]. intros Hstep.
  intros (flushed & current & ops & Hp & Hd & Hc & Hw & Hf & Hb & Hi).
  simpl in Hp, Hc, Hb. unfold wrap_word in Hstep.
  apply bind_Ok in Hstep as (lineWidth & Ewidth & Hstep).
  apply Forall_app in Hi as [Hi1 Hi2].
  assert (Hin : In word (done ++ [word])) by (apply in_or_app; right; now left).
  destruct (string_truthy cur) eqn:Ecur.
  - (* the buffer holds something *)
    assert (Hne : cur <> []) by (intros ->; discriminate Ecur).
    specialize (Hb Hne). destruct Hb as [Hcne Hbok].
    rewrite andb_true_r in Hstep.
    destruct (exceeds lineWidth) eqn:Ex.
    + (* the candidate is too wide: flush, the word starts the next line *)
      apply bind_Ok in Hstep as (st1 & Eflush & Hstep).
      apply addText_Ok in Eflush as [_ ->]. injection Hstep as <-.
      exists (flushed ++ [current]), [word],
             (ops ++ [DrawText (quoted cur) 70 (yPosition st) 11 regularFont
                        (Some blackColor)]).
      cbn [fst snd page]. rewrite Hp, <- app_assoc.
      repeat split.
      * apply Forall2_app; [exact Hd|]. constructor; [|constructor].
        exists (yPosition st). now rewrite Hc.
      * rewrite concat_app. simpl. rewrite app_nil_r.
        rewrite !filter_app in *. now rewrite Hw.
      * apply Forall_app. split; [exact Hf|]. constructor; [|constructor].
        split; assumption.
      * discriminate.
      * right. now exists word.
      * rewrite concat_app. simpl. rewrite app_nil_r.
        apply Forall_app. split; [apply Forall_app; split|];
          auto using Forall_In_snoc.
    + (* the candidate fits: the word joins the buffer *)
      injection Hstep as <-.
      exists flushed, (current ++ [word]), ops.
      cbn [fst snd]. repeat split; trivial.
      * rewrite join_words_snoc by assumption. rewrite Hc. reflexivity.
      * rewrite app_assoc, !filter_app in *. now rewrite Hw.
      * now destruct current.
      * left. rewrite join_words_snoc by assumption. rewrite <- Hc.
        now apply (not_exceeds_fits _ Ewidth).
      * rewrite app_assoc. apply Forall_app.
        split; [apply Forall_app; split|]; auto using Forall_In_snoc.
  - (* the buffer is empty: the word becomes the buffer *)
    apply string_truthy_false in Ecur. rewrite Ecur in *. clear Ecur.
    rewrite andb_false_r in Hstep. simpl app in Hstep. injection Hstep as <-.
    exists flushed, [word], ops.
    cbn [fst snd]. repeat split; trivial.
    + symmetry in Hc. apply join_words_empty in Hc.
      rewrite !filter_app in *. rewrite Hc, app_nil_r in Hw. now rewrite Hw.
    + discriminate.
    + right. now exists word.
    + apply Forall_app. split; auto using Forall_In_snoc.
Qed.

Lemma wrap_inv_loop (st0 : layout) (words done : list jsstring)
    (acc acc' : layout * jsstring) :
  forEach wrap_word words acc = Ok acc' ->
  wrap_inv st0 done acc -> wrap_inv st0 (done ++ words) acc'.
Proof.
  revert done acc. induction words as [|w words IH]; intros done acc Hloop H.
  - injection Hloop as <-. now rewrite app_nil_r.
  - cbn [forEach] in Hloop. apply bind_Ok in Hloop as (acc1 & Estep & Hloop).
    replace (done ++ w :: words) with ((done ++ [w]) ++ words)
      by now rewrite <- app_assoc.
    apply (IH _ _ Hloop). now apply (wrap_inv_step _ Estep).
Qed.

Lemma block_ok_admissible (b : list jsstring) :
  block_ok b -> b <> [] /\ line_admissible b.
Proof.
  intros [Hne [H|(w & ->)]]; split; trivial.
  - now left.
  - destruct (fits_dec w); [now left|]. right. now exists w.
Qed.

(** With a library that measures and draws every text the loop returns. *)
Lemma wrap_loop_accepted (words : list jsstring) (acc : layout * jsstring) :
  accepts_every_text -> exists acc', forEach wrap_word words acc = Ok acc'.
Proof.
  intros [Hdraw Hwidth]. revert acc.
  induction words as [|w words IH]; intros [st cur]; [now eexists|].
  cbn [forEach]. unfold wrap_word at 1.
  destruct (Hwidth regularFont
              (cur ++ (if string_truthy cur then lit " " else []) ++ w) 11%Z)
    as (lineWidth & ->).
  cbn [bind].
  destruct (exceeds lineWidth && string_truthy cur).
  - rewrite (addText_accepted _ _ _ _ _ _ (Hdraw _ _)). cbn [bind]. apply IH.
  - cbn [bind]. apply IH.
Qed.

(** *** The words of [split] *)

Lemma split_nonempty (sep : char) (s : jsstring) : split sep s <> [].
Proof.
  induction s as [|c s IH]; simpl; [discriminate|].
  destruct (char_eqb c sep); [discriminate|].
  now destruct (split sep s).
Qed.

Lemma split_no_separator (sep : char) (s : jsstring) :
  Forall (fun w => ~ In sep w) (split sep s).
Proof.
  induction s as [|c s IH]; simpl.
  - constructor; [|constructor]. intros [].
  - destruct (char_eqb c sep) eqn:E.
    + constructor; [intros []|exact IH].
    + destruct (split sep s) as [|w ws]; [constructor; [|constructor]|].
      * intros [->|[]]. unfold char_eqb in E. now rewrite N.eqb_refl in E.
      * inversion IH as [|? ? Hw Hws]; subst. constructor; [|exact Hws].
        intros [->|H]; [|now apply Hw].
        unfold char_eqb in E. now rewrite N.eqb_refl in E.
Qed.

(** The words put back together are the string. *)
Lemma join_split (s : jsstring) : join_words (split char_space s) = s.
Proof.
  induction s as [|c s IH]; [reflexivity|].
  simpl split. destruct (char_eqb c char_space) eqn:E.
  - apply N.eqb_eq in E. subst c.
    pose proof (split_nonempty char_space s) as Hne.
    destruct (split char_space s) as [|w ws]; [congruence|].
    change (join_words ([] :: w :: ws)) with (char_space :: join_words (w :: ws)).
    now rewrite IH.
  - pose proof (split_nonempty char_space s) as Hne.
    destruct (split char_space s) as [|w ws]; [congruence|].
    destruct ws as [|w' ws].
    + simpl in *. now rewrite IH.
    + change (join_words ((c :: w) :: w' :: ws))
        with (c :: (w ++ char_space :: join_words (w' :: ws))).
      change (join_words (w :: w' :: ws))
        with (w ++ char_space :: join_words (w' :: ws)) in IH.
      now rewrite IH.
Qed.

(** *** The block as a whole *)

Lemma draw_description_wraps (s : jsstring) (st st' : layout) :
  draw_description s st = Ok st' ->
  let words := split char_space s in
  exists (blocks : list (list jsstring)) (ops : list draw_op),
    page st' = page st ++ ops
    /\ Forall2 line_drawn ops blocks
    /\ filter string_truthy (concat blocks) = filter string_truthy words
    /\ Forall (fun w => In w words) (concat blocks)
    /\ Forall (fun b => b <> [] /\ line_admissible b) blocks.
Proof.
  cbv zeta. unfold draw_description. intros Hdraw.
  apply bind_Ok in Hdraw as ([st1 cur] & Eloop & Hdraw).
  pose proof (wrap_inv_loop _ Eloop (wrap_inv_start st)) as H.
  simpl app in H.
  destruct H as (flushed & current & ops & Hp & Hd & Hc & Hw & Hf & Hb & Hi).
  simpl in Hp, Hc, Hb.
  apply Forall_app in Hi as [Hi1 Hi2].
  destruct (string_truthy cur) eqn:Ecur.
  - assert (Hne : cur <> []) by (intros ->; discriminate Ecur).
    specialize (Hb Hne).
    apply addText_Ok in Hdraw as [_ ->]. cbn [page].
    exists (flushed ++ [current]),
           (ops ++ [DrawText (quoted cur) 70 (yPosition st1) 11 regularFont
                      (Some blackColor)]).
    rewrite Hp, <- app_assoc, concat_app. simpl concat.
    rewrite app_nil_r. repeat split; trivial.
    + apply Forall2_app; [exact Hd|]. constructor; [|constructor].
      exists (yPosition st1). now rewrite Hc.
    + now apply Forall_app.
    + apply Forall_app. split.
      * eapply Forall_impl; [|exact Hf]. apply block_ok_admissible.
      * constructor; [|constructor]. now apply block_ok_admissible.
  - injection Hdraw as <-.
    apply string_truthy_false in Ecur. rewrite Ecur in *. clear Ecur.
    symmetry in Hc. apply join_words_empty in Hc.
    exists flushed, ops. repeat split; trivial.
    + rewrite filter_app, Hc, app_nil_r in Hw. exact Hw.
    + eapply Forall_impl; [|exact Hf]. apply block_ok_admissible.
Qed.

(** The flush after the loop: a buffer that is not empty is handed to
    [addText] last. *)
Lemma draw_description_flushes (s : jsstring) (st st1 : layout)
    (currentLine : jsstring) :
  forEach wrap_word (split char_space s) (st, []) = Ok (st1, currentLine) ->
  currentLine <> [] ->
  draw_description s st
  = addText (quoted currentLine) 70 11 regularFont blackColor st1.
Proof.
  unfold draw_description. intros -> Hne. cbn [bind].
  destruct currentLine; [congruence|]. reflexivity.
Qed.

Lemma draw_description_accepted (s : jsstring) (st : layout) :
  accepts_every_text -> exists st', draw_description s st = Ok st'.
Proof.
  intros Hacc. unfold draw_description.
  destruct (wrap_loop_accepted (split char_space s) (st, []) Hacc)
    as ([st1 cur] & ->).
  cbn [bind]. destruct (string_truthy cur); [|now eexists].
  rewrite (addText_accepted _ _ _ _ _ _ (proj1 Hacc _ _)). now eexists.
Qed.

End WordWrap.


(** ** The page of the claim packet *)

Unset Implicit Arguments.

Section Renderer.
Context {host : Host} {collaborators : Collaborators}.
Open Scope Z_scope.

Lemma Ok_inj {A} (a b : A) : Ok a = Ok b -> a = b.
Proof. now intros [= ->]. Qed.

(** *** The lines of the description *)

Lemma lines_from_app (y : Z) (a b : list jsstring) :
  lines_from y (a ++ b)
  = lines_from y a ++ lines_from (y - 16 * Z.of_nat (length a)) b.
Proof.
  revert y. induction a as [|l a IH]; intros y.
  - simpl. f_equal. lia.
  - cbn [app lines_from length]. rewrite IH. cbn [app]. do 3 f_equal. lia.
Qed.

Lemma draw_lines_nil (st : layout) : draw_lines st [] = st.
Proof.
  destruct st as [y p]. unfold draw_lines. cbn [yPosition page length lines_from].
  rewrite app_nil_r. f_equal. lia.
Qed.

Lemma draw_lines_snoc (st : layout) (lines : list jsstring) (line : jsstring) :
  {| yPosition := yPosition (draw_lines st lines) - (11 + 5);
     page := page (draw_lines st lines)
             ++ [DrawText (quoted line) 70 (yPosition (draw_lines st lines)) 11
                   regularFont (Some blackColor)] |}
  = draw_lines st (lines ++ [line]).
Proof.
  unfold draw_lines. cbn [yPosition page].
  rewrite lines_from_app, length_app, <- app_assoc. cbn [length lines_from].
  f_equal. lia.
Qed.

(** The loop on the page is the loop on the lines, each flushed line being
    drawn. *)
Lemma wrap_loop_lines (st : layout) (words lines : list jsstring)
    (currentLine : jsstring) (acc' : layout * jsstring) :
  forEach wrap_word words (draw_lines st lines, currentLine) = Ok acc' ->
  Forall drawable lines ->
  exists lines' currentLine',
    forEach wrap_step words (lines, currentLine) = Ok (lines', currentLine')
    /\ Forall drawable lines'
    /\ acc' = (draw_lines st lines', currentLine').
Proof.
  revert lines currentLine.
  induction words as [|w words IH]; intros lines cur Hloop Hl.
  - injection Hloop as <-. now exists lines, cur.
  - cbn [forEach] in *. apply bind_Ok in Hloop as (acc1 & Estep & Hloop).
    unfold wrap_word in Estep. unfold wrap_step at 1.
    apply bind_Ok in Estep as (lineWidth & -> & Estep). cbn [bind].
    destruct (exceeds lineWidth && string_truthy cur).
    + apply bind_Ok in Estep as (st1 & Eflush & Estep).
      apply addText_Ok in Eflush as [Hdraw ->]. apply Ok_inj in Estep as <-.
      rewrite draw_lines_snoc in Hloop. cbn [bind].
      apply (IH _ _ Hloop). apply Forall_app. split; [exact Hl|].
      constructor; [exact Hdraw | constructor].
    + apply Ok_inj in Estep as <-. cbn [bind]. now apply (IH _ _ Hloop).
Qed.

Lemma wrap_step_extends (words lines lines' : list jsstring)
    (currentLine currentLine' : jsstring) :
  forEach wrap_step words (lines, currentLine) = Ok (lines', currentLine') ->
  exists more, lines' = lines ++ more.
Proof.
  revert lines currentLine.
  induction words as [|w words IH]; intros lines cur Hloop.
  - injection Hloop as <- _. exists []. now rewrite app_nil_r.
  - cbn [forEach] in Hloop. apply bind_Ok in Hloop as ([l1 c1] & Estep & Hloop).
    unfold wrap_step in Estep.
    apply bind_Ok in Estep as (lineWidth & _ & Estep).
    destruct (IH _ _ Hloop) as (more & ->).
    destruct (exceeds lineWidth && string_truthy cur); injection Estep as <- <-.
    + exists ([cur] ++ more). now rewrite app_assoc.
    + now exists more.
Qed.

Lemma lines_loop_draws (st : layout) (words lines lines' : list jsstring)
    (currentLine currentLine' : jsstring) :
  forEach wrap_step words (lines, currentLine) = Ok (lines', currentLine') ->
  Forall drawable lines' ->
  forEach wrap_word words (draw_lines st lines, currentLine)
  = Ok (draw_lines st lines', currentLine').
Proof.
  revert lines currentLine.
  induction words as [|w words IH]; intros lines cur Hloop Hl.
  - now injection Hloop as <- <-.
  - cbn [forEach] in *. apply bind_Ok in Hloop as ([l1 c1] & Estep & Hloop).
    destruct (wrap_step_extends _ _ _ _ _ Hloop) as (more & Emore).
    unfold wrap_step in Estep. unfold wrap_word at 1.
    apply bind_Ok in Estep as (lineWidth & -> & Estep). cbn [bind].
    destruct (exceeds lineWidth && string_truthy cur); injection Estep as <- <-.
    + assert (Hcur : drawable cur).
      { rewrite Emore in Hl. apply Forall_app in Hl as [Hl _].
        apply Forall_app in Hl as [_ Hl]. now inversion Hl. }
      rewrite (addText_accepted _ _ _ _ _ _ Hcur). cbn [bind].
      rewrite draw_lines_snoc. now apply IH.
    + cbn [bind]. now apply IH.
Qed.

Lemma wrap_lines_of_loop (text : jsstring) (lines : list jsstring)
    (currentLine : jsstring) :
  forEach wrap_step (split char_space text) ([], []) = Ok (lines, currentLine) ->
  wrap_lines text = Ok (flush (lines, currentLine)).
Proof.
  intros H. unfold wrap_lines.
  exact (f_equal (fun r => bind r (fun acc => Ok (flush acc))) H).
Qed.

Lemma wrap_lines_Ok (text : jsstring) (lines : list jsstring) :
  wrap_lines text = Ok lines ->
  exists flushed currentLine,
    forEach wrap_step (split char_space text) ([], [])
    = Ok (flushed, currentLine)
    /\ lines = flush (flushed, currentLine).
Proof.
  unfold wrap_lines. intros H. apply bind_Ok in H as ([l c] & E & H).
  apply Ok_inj in H. exists l, c. split; [exact E | now symmetry].
Qed.

(** The block as the lines of the wrap. *)
Lemma draw_description_lines (text : jsstring) (st st' : layout) :
  draw_description text st = Ok st' <->
  exists lines,
    wrap_lines text = Ok lines /\ Forall drawable lines
    /\ st' = draw_lines st lines.
Proof.
  split.
  - unfold draw_description. intros H.
    apply bind_Ok in H as ([st1 cur] & Eloop & H).
    assert (Eloop' : forEach wrap_word (split char_space text)
                       (draw_lines st [], []) = Ok (st1, cur))
      by (rewrite draw_lines_nil; exact Eloop).
    destruct (wrap_loop_lines _ _ _ _ _ Eloop' (Forall_nil _))
      as (lines & cur' & Ew & Hl & E).
    apply pair_equal_spec in E as [-> <-].
    exists (flush (lines, cur)).
    split; [now apply wrap_lines_of_loop|]. unfold flush.
    destruct (string_truthy cur).
    + apply addText_Ok in H as [Hdraw ->]. rewrite draw_lines_snoc.
      split; [|reflexivity].
      apply Forall_app. split; [exact Hl|]. constructor; [exact Hdraw | constructor].
    + apply Ok_inj in H as <-. now split.
  - intros (lines & H & Hl & ->).
    apply wrap_lines_Ok in H as (flushed & cur & Eloop & ->).
    unfold flush in Hl |- *. unfold draw_description.
    assert (Hloop : forall l, Forall drawable l ->
               forEach wrap_step (split char_space text) ([], []) = Ok (l, cur) ->
               forEach wrap_word (split char_space text) (st, [])
               = Ok (draw_lines st l, cur)).
    { intros l Hd E. rewrite <- (draw_lines_nil st) at 1.
      exact (lines_loop_draws st _ _ _ _ _ E Hd). }
    destruct (string_truthy cur) eqn:Ecur.
    + apply Forall_app in Hl as [Hl Hcur].
      rewrite (Hloop flushed Hl Eloop). cbn [bind]. rewrite Ecur.
      rewrite (addText_accepted _ _ _ _ _ _ (Forall_inv Hcur)).
      now rewrite draw_lines_snoc.
    + rewrite (Hloop flushed Hl Eloop). cbn [bind]. now rewrite Ecur.
Qed.

(** *** The rows of a table *)

Lemma rows_from_app (y : Z) (a b : list (jsstring * jsstring)) :
  rows_from y (a ++ b)
  = rows_from y a ++ rows_from (y - 16 * Z.of_nat (length a)) b.
Proof.
  revert y. induction a as [|[l v] a IH]; intros y.
  - simpl. f_equal. lia.
  - cbn [app rows_from length]. rewrite IH. cbn [app]. do 4 f_equal. lia.
Qed.

Lemma draw_rows_Ok (rows : list (jsstring * jsstring)) (st st' : layout) :
  forEach draw_row rows st = Ok st' ->
  st' = {| yPosition := yPosition st - 16 * Z.of_nat (length rows);
           page := page st ++ rows_from (yPosition st) rows |}.
Proof.
  revert st. induction rows as [|[label value] rows IH]; intros st H.
  - injection H as <-. destruct st as [y p]. cbn. rewrite app_nil_r. f_equal. lia.
  - cbn [forEach] in H. apply bind_Ok in H as (st1 & Erow & H).
    unfold draw_row in Erow.
    apply bind_Ok in Erow as (sa & Ea & Erow). apply drawText_Ok in Ea as [_ ->].
    apply bind_Ok in Erow as (sb & Eb & Erow). apply drawText_Ok in Eb as [_ ->].
    apply Ok_inj in Erow as <-. rewrite (IH _ H).
    cbn [yPosition page move_down rows_from length]. rewrite <- !app_assoc.
    cbn [app]. f_equal. lia.
Qed.

Lemma draw_rows_accepted (rows : list (jsstring * jsstring)) (st : layout) :
  accepts_every_text -> exists st', forEach draw_row rows st = Ok st'.
Proof.
  intros [Hdraw _]. revert st.
  induction rows as [|[label value] rows IH]; intros st; [now eexists|].
  cbn [forEach]. unfold draw_row, drawText. rewrite !Hdraw. cbn [bind]. apply IH.
Qed.

(** *** The page *)

Ltac returned H :=
  cbv beta zeta in H;
  lazymatch type of H with
  | bind _ _ = Ok _ =>
      let st := fresh "st" in
      let E := fresh "E" in
      apply bind_Ok in H as (st & E & H); returned E; returned H
  | addText _ _ _ _ _ _ = Ok _ => apply addText_Ok in H as [_ H]; subst
  | drawText _ _ _ _ _ _ = Ok _ => apply drawText_Ok in H as [_ H]; subst
  | forEach draw_row _ _ = Ok _ => apply draw_rows_Ok in H; subst
  | Ok _ = Ok _ => injection H as H; subst
  | Throw _ = Ok _ => discriminate H
  | _ => idtac
  end.

(** The page that [claimPacketPage] returns. *)
Lemma claimPacketPage_Ok (request : GeneratePacketRequest.t) (ops : list draw_op) :
  claimPacketPage request = Ok ops ->
  exists user product lines,
    GeneratePacketRequest.user request = Some user
    /\ GeneratePacketRequest.product request = Some product
    /\ wrap_lines (sanitizeText_opt (GeneratePacketRequest.problemDescription request))
       = Ok lines
    /\ Forall drawable lines
    /\ ops = page_start user product
             ++ lines_from 312 lines
             ++ page_end (document_id product) (312 - 16 * Z.of_nat (length lines)).
Proof.
  intros H. unfold claimPacketPage in H.
  destruct (GeneratePacketRequest.user request) as [user|];
    [|returned H; discriminate H].
  destruct (GeneratePacketRequest.product request) as [product|];
    [|returned H; discriminate H].
  unfold header_section, generation_date, prepared_for_section,
    product_details_section, purchase_information_section,
    problem_description_section, supporting_evidence_section, footer in H.
  returned H.
  match goal with
  | E : draw_description _ _ = Ok _ |- _ =>
      apply draw_description_lines in E as (lines & Hw & Hl & ->)
  end.
  exists user, product, lines.
  split; [reflexivity|]. split; [reflexivity|]. split; [exact Hw|].
  split; [exact Hl|].
  unfold draw_lines, addSectionSpacing, move_down, drawLine, page_start, page_end,
    productDetails, purchaseInfo, detail_row.
  cbn [yPosition page length rows_from].
  rewrite <- !app_assoc. cbn [app].
  unfold width, height. cbn [fst snd PageSizes_Letter].
  repeat (f_equal; try lia).
Qed.

(** With a library that measures and draws every text, the page of a
    request with a user and a product is returned. *)
Section Accepted.
Hypothesis accepted : accepts_every_text.

Lemma addText_returns (t : jsstring) (x size : Z) (f : Font) (c : Color)
    (st : layout) : exists st', addText t x size f c st = Ok st'.
Proof. rewrite (addText_accepted _ _ _ _ _ _ (proj1 accepted f t)). now eexists. Qed.

Lemma drawText_returns (t : jsstring) (x size : Z) (f : Font) (c : option Color)
    (st : layout) : exists st', drawText t x size f c st = Ok st'.
Proof. unfold drawText. rewrite (proj1 accepted f t). now eexists. Qed.

Ltac returns_by lemma :=
  match goal with
  | |- context [bind ?m _] =>
      let st := fresh "st" in
      let E := fresh "E" in
      destruct lemma as (st & E); rewrite E; clear E; cbn [bind]
  end.

Ltac returns :=
  repeat match goal with
         | |- context [bind (addText ?t ?x ?s ?f ?c ?st) _] =>
             returns_by (addText_returns t x s f c st)
         | |- context [bind (drawText ?t ?x ?s ?f ?c ?st) _] =>
             returns_by (drawText_returns t x s f c st)
         | |- context [bind (forEach draw_row ?rows ?st) _] =>
             returns_by (draw_rows_accepted rows st accepted)
         | |- context [bind (draw_description ?text ?st) _] =>
             returns_by (draw_description_accepted text st accepted)
         end.

Lemma header_section_returns (st : layout) :
  exists st', header_section st = Ok st'.
Proof. unfold header_section. returns. now eexists. Qed.

Lemma generation_date_returns (st : layout) :
  exists st', generation_date st = Ok st'.
Proof. unfold generation_date. returns. now eexists. Qed.

Lemma prepared_for_section_returns (user : User.t) (st : layout) :
  exists st', prepared_for_section user st = Ok st'.
Proof. unfold prepared_for_section. returns. now eexists. Qed.

Lemma product_details_section_returns (product : Product.t) (st : layout) :
  exists st', product_details_section product st = Ok st'.
Proof. unfold product_details_section. returns. now eexists. Qed.

Lemma purchase_information_section_returns (product : Product.t) (st : layout) :
  exists st', purchase_information_section product st = Ok st'.
Proof. unfold purchase_information_section. returns. now eexists. Qed.

Lemma problem_description_section_returns (d : option jsstring) (st : layout) :
  exists st', problem_description_section d st = Ok st'.
Proof. unfold problem_description_section. returns. now eexists. Qed.

Lemma supporting_evidence_section_returns (st : layout) :
  exists st', supporting_evidence_section st = Ok st'.
Proof. unfold supporting_evidence_section. returns. now eexists. Qed.

Lemma footer_returns (product : Product.t) (st : layout) :
  exists st', footer product st = Ok st'.
Proof.
  unfold footer. returns.
  match goal with
  | |- exists st', drawText ?t ?x ?s ?f ?c ?st = Ok st' =>
      apply (drawText_returns t x s f c st)
  end.
Qed.

Lemma claimPacketPage_accepted (request : GeneratePacketRequest.t)
    (user : User.t) (product : Product.t) :
  GeneratePacketRequest.user request = Some user ->
  GeneratePacketRequest.product request = Some product ->
  exists ops, claimPacketPage request = Ok ops.
Proof.
  intros Hu Hp. unfold claimPacketPage. rewrite Hu, Hp. cbv zeta.
  returns_by (header_section_returns {| yPosition := height - 50; page := [] |}).
  match goal with |- context [generation_date ?st] =>
    returns_by (generation_date_returns st) end.
  returns.
  match goal with |- context [prepared_for_section ?u ?st] =>
    returns_by (prepared_for_section_returns u st) end.
  returns.
  match goal with |- context [product_details_section ?p ?st] =>
    returns_by (product_details_section_returns p st) end.
  match goal with |- context [purchase_information_section ?p ?st] =>
    returns_by (purchase_information_section_returns p st) end.
  match goal with |- context [problem_description_section ?d ?st] =>
    returns_by (problem_description_section_returns d st) end.
  match goal with |- context [supporting_evidence_section ?st] =>
    returns_by (supporting_evidence_section_returns st) end.
  match goal with |- context [footer ?p ?st] =>
    returns_by (footer_returns p st) end.
  now eexists.
Qed.

End Accepted.

Lemma rows_from_In (y0 : Z) (rows : list (jsstring * jsstring))
    (label value : jsstring) :
  In (label, value) rows ->
  exists y,
    In (DrawText label 70 y 11 boldFont None) (rows_from y0 rows)
    /\ In (DrawText value 200 y 11 regularFont None) (rows_from y0 rows).
Proof.
  revert y0. induction rows as [|[l v] rows IH]; intros y0; [intros []|].
  intros [[= -> ->]|H]; cbn [rows_from].
  - exists y0. split; [now left | right; now left].
  - destruct (IH (y0 - 16) H) as (y & H1 & H2).
    exists y. split; right; right; assumption.
Qed.

(** The price row and the document identifier on the page. *)
Lemma claimPacketPage_price_and_id (request : GeneratePacketRequest.t)
    (product : Product.t) (ops : list draw_op) :
  GeneratePacketRequest.product request = Some product ->
  claimPacketPage request = Ok ops ->
  (exists y,
      In (DrawText (lit "Price:") 70 y 11 boldFont None) ops
      /\ In (DrawText (price_text product) 200 y 11 regularFont None) ops)
  /\ In (DrawText (document_id product) (width - 200) 50 10 regularFont
           (Some grayColor)) ops.
Proof.
  intros Hp H.
  destruct (claimPacketPage_Ok request ops H)
    as (user & product' & lines & _ & Hp' & _ & _ & ->).
  rewrite Hp in Hp'. apply (f_equal (fun o => match o with Some p => p | None => product end)) in Hp'.
  subst product'. split.
  - destruct (rows_from_In 420 (purchaseInfo product) (lit "Price:")
                (price_text product)) as (y & H1 & H2).
    { unfold purchaseInfo. right. right. right. now left. }
    exists y. unfold page_start.
    split; apply in_or_app; left; apply in_or_app; right; apply in_or_app;
      right; apply in_or_app; right; apply in_or_app; left; assumption.
  - apply in_or_app. right. apply in_or_app. right.
    unfold page_end. do 5 right. now left.
Qed.

Lemma price_text_zero (product : Product.t) (price : number) :
  Product.price product = Some price ->
  PrimFloat.eqb price 0%float = true ->
  price_text product = lit "N/A".
Proof.
  intros Hp Hz. unfold price_text, number_truthy. now rewrite Hp, Hz.
Qed.

Lemma price_text_charged (product : Product.t) (price : number) :
  Product.price product = Some price ->
  number_truthy price = true ->
  price_text product
  = or_default (Product.currency product) (lit "$") ++ Number_toString price.
Proof. intros Hp Ht. unfold price_text. now rewrite Hp, Ht. Qed.

End Renderer.

(** C1, where the code departs from it.  Every other row of the page is
    drawn from [sanitizeText], but for a product with a price the price row
    is the caller's [currency] as it came, followed by the number, and the
    footer carries the caller's product [id] as it came: neither passes
    through [sanitizeText].  This holds of every page that the function
    returns, and it returns one whenever the library measures and draws
    every text. *)
Theorem price_row_and_document_id_not_sanitized
    (host : Host) (collaborators : Collaborators)
    (request : GeneratePacketRequest.t) (user : User.t) (product : Product.t)
    (price : number) :
  GeneratePacketRequest.user request = Some user ->
  GeneratePacketRequest.product request = Some product ->
  Product.price product = Some price ->
  number_truthy price = true ->
  (forall ops,
      claimPacketPage request = Ok ops ->
      (exists y,
          In (DrawText (lit "Price:") 70 y 11 boldFont None) ops
          /\ In (DrawText
                   (or_default (Product.currency product) (lit "$")
                      ++ Number_toString price)
                   200 y 11 regularFont None) ops)
      /\ In (DrawText
               (lit "Document ID: " ++ template_string (Product.id product)
                  ++ lit "-" ++ Number_toString (Number_of_Z (Date_now 1)))
               (width - 200) 50 10 regularFont (Some grayColor)) ops)
  /\ (accepts_every_text -> exists ops, claimPacketPage request = Ok ops).
Proof.
  intros Hu Hp Hprice Ht. split.
  - intros ops E.
    destruct (@claimPacketPage_price_and_id host collaborators request product
                ops Hp E) as (Hrow & Hid).
    split; [|exact Hid].
    now rewrite <- (@price_text_charged host product price Hprice Ht).
  - intros Hacc.
    exact (@claimPacketPage_accepted host collaborators Hacc request user
             product Hu Hp).
Qed.

(** The failing input of C1: the currency ["<b>"] and the identifier
    ["{x}"] reach the page with their delimiters, which no output of
    [sanitizeText] contains. *)
Lemma price_row_and_document_id_not_sanitized_witness :
  exists ops,
    @claimPacketPage utc_host example_collaborators marked_request = Ok ops
    /\ (exists y,
          In (DrawText (lit "Price:") 70 y 11 boldFont None) ops
          /\ In (DrawText (lit "<b>5") 200 y 11 regularFont None) ops)
    /\ In (DrawText (lit "Document ID: {x}-1700000000000") 412 50 10
             regularFont (Some grayColor)) ops
    /\ sanitizeText (lit "<b>") = lit "b"
    /\ sanitizeText (lit "{x}") = lit "x".
Proof.
  destruct (@price_row_and_document_id_not_sanitized utc_host
              example_collaborators marked_request example_user marked_product
              5%float eq_refl eq_refl eq_refl eq_refl)
    as (Hpage & Hreturns).
  destruct (Hreturns (conj (fun _ _ => eq_refl)
                        (fun _ text size => ex_intro _ _ eq_refl)))
    as (ops & E).
  destruct (Hpage ops E) as (Hrow & Hid).
  exists ops. split; [exact E|]. split; [exact Hrow|]. split; [exact Hid|].
  split; reflexivity.
Defined.

Set Implicit Arguments.
(** ** The routes: authorization, validation, and the catch *)

Section Routes.
Context {host : Host} {collaborators : Collaborators}.

(** With the shared secret configured, the authorization check returns. *)
Lemma checkAuth_returns {B} (c : Context B) (key : jsstring) :
  getRequiredEnvVar (lit "SERVICES_API_KEY") = Ok key ->
  exists r, checkAuth c = Ok r.
Proof.
  intros E. unfold checkAuth. rewrite E. cbn [bind].
  destruct (req_header_Authorization c) as [h|]; [|eauto].
  destruct (negb (string_truthy h) || negb (startsWith h (lit "Bearer ")));
    [eauto|].
  destruct (negb (jsstring_eqb (slice_from h 7) key)); eauto.
Qed.

(** Without it, the check throws, and so does the route. *)
Lemma checkAuth_throws {B} (c : Context B) (e : error) :
  getRequiredEnvVar (lit "SERVICES_API_KEY") = Throw e ->
  checkAuth c = Throw e.
Proof. intros E. unfold checkAuth. now rewrite E. Qed.

Lemma route_throws {B} (c : Context B) (t : result Response) (f : Response)
    (e : error) :
  checkAuth c = Throw e -> route c t f = Throw e.
Proof. intros E. unfold route. now rewrite E. Qed.

Lemma route_authorized {B} (c : Context B) (t : result Response) (f : Response) :
  checkAuth c = Ok None -> route c t f = Ok (try_catch t f).
Proof. intros E. unfold route. now rewrite E. Qed.

Lemma route_rejected {B} (c : Context B) (t : result Response) (f r : Response) :
  checkAuth c = Ok (Some r) -> route c t f = Ok r.
Proof. intros E. unfold route. now rewrite E. Qed.

(** A route whose check returns answers a response: the one of the check,
    the one of the [try] block, or the fixed one of the [catch]. *)
Lemma route_answers {B} (c : Context B) (t : result Response) (f : Response)
    (key : jsstring) :
  getRequiredEnvVar (lit "SERVICES_API_KEY") = Ok key ->
  exists r, route c t f = Ok r
            /\ (checkAuth c = Ok None ->
                (forall e, t = Throw e -> r = f) /\ (forall r', t = Ok r' -> r = r')).
Proof.
  intros E. destruct (checkAuth_returns c E) as [[r|] H].
  - exists r. split; [now apply route_rejected|]. congruence.
  - exists (try_catch t f). split; [now apply route_authorized|].
    intros _. split.
    + now intros e ->.
    + now intros r' ->.
Qed.

(** A calendar request with zero months stops at the validation. *)
Lemma calendar_zero_months (c : Context CalendarProduct.t)
    (body : CalendarProduct.t) (months : number) :
  req_json c = Ok body ->
  CalendarProduct.warranty_length_months body = Some months ->
  PrimFloat.eqb months 0%float = true ->
  calendar_generator_try c
  = Ok (json_error (lit "Missing required product fields") 400).
Proof.
  intros Hb Hm Hz. unfold calendar_generator_try. rewrite Hb. cbn [bind].
  rewrite Hm.
  assert (Ht : number_truthy months = false)
    by (unfold number_truthy; now rewrite Hz).
  rewrite Ht. cbn [negb].
  destruct (required (CalendarProduct.id body));
    destruct (required (CalendarProduct.product_name body));
    destruct (required (CalendarProduct.purchase_date body)); reflexivity.
Qed.

End Routes.

(** C9, as the code has it.  In each of the four routes the authorization
    check stands before the [try] block.  When the check returns (the
    shared secret is configured), the route always answers a response:
    whatever is thrown inside the [try] block (reading the body, a missing
    model credential, rendering, signing, encoding) is caught and answered
    with the route's fixed status-500 message, and a response of the block
    is passed on. *)
Theorem failures_inside_try_are_caught
    (host : Host) (collaborators : Collaborators) (key : jsstring) :
  getRequiredEnvVar (lit "SERVICES_API_KEY") = Ok key ->
  (forall c, exists r,
      email_parser c = Ok r
      /\ (checkAuth c = Ok None ->
          (forall e, email_parser_try c = Throw e ->
                     r = json_error (lit "Internal server error") 500)
          /\ (forall r', email_parser_try c = Ok r' -> r = r')))
  /\ (forall c, exists r,
      pdf_generator c = Ok r
      /\ (checkAuth c = Ok None ->
          (forall e, pdf_generator_try c = Throw e ->
                     r = json_error (lit "Failed to generate PDF") 500)
          /\ (forall r', pdf_generator_try c = Ok r' -> r = r')))
  /\ (forall c, exists r,
      pass_generator c = Ok r
      /\ (checkAuth c = Ok None ->
          (forall e, pass_generator_try c = Throw e ->
                     r = json_error (lit "Failed to generate pass") 500)
          /\ (forall r', pass_generator_try c = Ok r' -> r = r')))
  /\ (forall c, exists r,
      calendar_generator c = Ok r
      /\ (checkAuth c = Ok None ->
          (forall e, calendar_generator_try c = Throw e ->
                     r = json_error (lit "Failed to generate calendar event") 500)
          /\ (forall r', calendar_generator_try c = Ok r' -> r = r'))).
Proof.
  intros E.
  split; [|split; [|split]]; intros c;
    unfold email_parser, pdf_generator, pass_generator, calendar_generator;
    now apply route_answers with key.
Qed.

(** A configured host, an authorized request whose body cannot be read: the
    four routes answer their status-500 messages. *)
Lemma failures_inside_try_are_caught_witness :
  let unreadable B : Context B :=
    {| req_header_Authorization := Some (lit "Bearer secret");
       req_json := Throw SyntaxError |} in
  @email_parser utc_host example_collaborators (unreadable _)
    = Ok (json_error (lit "Internal server error") 500)
  /\ @pdf_generator utc_host example_collaborators (unreadable _)
    = Ok (json_error (lit "Failed to generate PDF") 500)
  /\ @pass_generator utc_host example_collaborators (unreadable _)
    = Ok (json_error (lit "Failed to generate pass") 500)
  /\ @calendar_generator utc_host example_collaborators (unreadable _)
    = Ok (json_error (lit "Failed to generate calendar event") 500).
Proof.
  cbv zeta.
  destruct (@failures_inside_try_are_caught utc_host example_collaborators
              (lit "secret") eq_refl) as (H1 & H2 & H3 & H4).
  split; [|split; [|split]].
  - destruct (H1 {| req_header_Authorization := Some (lit "Bearer secret");
                    req_json := Throw SyntaxError |}) as (r & E & Hr).
    rewrite E. f_equal. now apply (proj1 (Hr eq_refl) SyntaxError).
  - destruct (H2 {| req_header_Authorization := Some (lit "Bearer secret");
                    req_json := Throw SyntaxError |}) as (r & E & Hr).
    rewrite E. f_equal. now apply (proj1 (Hr eq_refl) SyntaxError).
  - destruct (H3 {| req_header_Authorization := Some (lit "Bearer secret");
                    req_json := Throw SyntaxError |}) as (r & E & Hr).
    rewrite E. f_equal. now apply (proj1 (Hr eq_refl) SyntaxError).
  - destruct (H4 {| req_header_Authorization := Some (lit "Bearer secret");
                    req_json := Throw SyntaxError |}) as (r & E & Hr).
    rewrite E. f_equal. now apply (proj1 (Hr eq_refl) SyntaxError).
Defined.

(** C9 as stated fails: a failure raised during the authorization check is
    not caught.  On a host with no [SERVICES_API_KEY] the check throws, and
    the exception leaves each of the four handlers. *)
Lemma authorization_failure_escapes :
  let missing :=
    Error (lit "Missing required environment variable: SERVICES_API_KEY") in
  @email_parser unconfigured_host example_collaborators (authorized example_email)
    = Throw missing
  /\ @pdf_generator unconfigured_host example_collaborators (authorized marked_request)
    = Throw missing
  /\ @pass_generator unconfigured_host example_collaborators (authorized example_profile)
    = Throw missing
  /\ @calendar_generator unconfigured_host example_collaborators
       (authorized (calendar_body "2024-01-15" 12%float))
    = Throw missing.
Proof.
  cbv zeta.
  split; [|split; [|split]]; apply route_throws; reflexivity.
Qed.

(** C10.  The required fields are tested by truthiness, so a zero counts as
    absent: an authorized calendar request whose [warranty_length_months]
    is 0 is answered with the missing-fields error (status 400), whatever
    the encoder would do; and a product whose [price] is 0 has its price
    row drawn as "N/A", on every page that the renderer returns (it returns
    one whenever the library measures and draws every text). *)
Theorem zero_counts_as_missing
    (host : Host) (collaborators : Collaborators) :
  (forall (c : Context CalendarProduct.t) (body : CalendarProduct.t)
          (months : number),
      checkAuth c = Ok None ->
      req_json c = Ok body ->
      CalendarProduct.warranty_length_months body = Some months ->
      PrimFloat.eqb months 0%float = true ->
      calendar_generator c
      = Ok (json_error (lit "Missing required product fields") 400))
  /\ (forall (request : GeneratePacketRequest.t) (user : User.t)
             (product : Product.t) (price : number),
         GeneratePacketRequest.user request = Some user ->
         GeneratePacketRequest.product request = Some product ->
         Product.price product = Some price ->
         PrimFloat.eqb price 0%float = true ->
         price_text product = lit "N/A"
         /\ (forall ops,
               claimPacketPage request = Ok ops ->
               exists y,
                 In (DrawText (lit "Price:") 70 y 11 boldFont None) ops
                 /\ In (DrawText (lit "N/A") 200 y 11 regularFont None) ops)
         /\ (accepts_every_text -> exists ops, claimPacketPage request = Ok ops)).
Proof.
  split.
  - intros c body months Ha Hb Hm Hz.
    unfold calendar_generator. rewrite (route_authorized _ _ _ Ha).
    now rewrite (calendar_zero_months c Hb Hm Hz).
  - intros request user product price Hu Hp Hprice Hz.
    pose proof (@price_text_zero host product price Hprice Hz) as Ht.
    split; [exact Ht|]. split.
    + intros ops E.
      destruct (@claimPacketPage_price_and_id host collaborators request product
                  ops Hp E) as (Hrow & _).
      now rewrite <- Ht.
    + intros Hacc.
      exact (@claimPacketPage_accepted host collaborators Hacc request user
               product Hu Hp).
Qed.

(** A calendar request for 0 months, and a product priced 0, on the example
    host. *)
Lemma zero_counts_as_missing_witness :
  @calendar_generator utc_host example_collaborators
     (authorized (calendar_body "2024-01-15" 0%float))
  = Ok (json_error (lit "Missing required product fields") 400)
  /\ @price_text utc_host free_product = lit "N/A".
Proof.
  destruct (@zero_counts_as_missing utc_host example_collaborators) as [H1 H2].
  split.
  - exact (H1 (authorized (calendar_body "2024-01-15" 0%float))
              (calendar_body "2024-01-15" 0%float) 0%float
              eq_refl eq_refl eq_refl eq_refl).
  - exact (proj1 (H2 {| GeneratePacketRequest.product := Some free_product;
                        GeneratePacketRequest.problemDescription := Some (lit "x");
                        GeneratePacketRequest.user := Some example_user |}
                     example_user free_product 0%float
                     eq_refl eq_refl eq_refl eq_refl)).
Defined.

(** ** The pass: credentials and composition *)

Section PassGeneration.
Context {host : Host} {collaborators : Collaborators}.

(** With a mandatory credential absent or empty, the check throws. *)
Lemma check_credentials_missing :
  field_truthy (process_env (lit "PASSKIT_CERT")) = false
  \/ field_truthy (process_env (lit "PASSKIT_KEY")) = false ->
  check_credentials read_credentials = Throw missing_credentials.
Proof.
  unfold check_credentials, read_credentials, field_truthy. cbn [passkitCert passkitKey].
  destruct (process_env (lit "PASSKIT_CERT")) as [cert|];
    destruct (process_env (lit "PASSKIT_KEY")) as [key|]; try reflexivity.
  intros [H|H]; rewrite H; [reflexivity|].
  now rewrite orb_true_r.
Qed.

(** The run of [generateApplePass] by the outcome of its first statements. *)
Lemma generateApplePass_without_credentials (userProfile : UserProfile.t) :
  check_credentials read_credentials = Throw missing_credentials ->
  generateApplePass_logged userProfile =
  match loadPassAssets with
  | Throw e => ([], Throw e)
  | Ok assets =>
      match customizePass (fst assets) userProfile with
      | Throw e => ([LoadedAssets], Throw e)
      | Ok customizedPassJson =>
          ([LoadedAssets; ComposedPass customizedPassJson; ReadCredentials],
           Throw missing_credentials)
      end
  end.
Proof.
  intros E. unfold generateApplePass_logged.
  destruct loadPassAssets as [assets|e]; [|reflexivity].
  cbn [statement log_bind].
  destruct (customizePass (fst assets) userProfile) as [json|e]; [|reflexivity].
  cbn [statement log_bind]. rewrite E. reflexivity.
Qed.

End PassGeneration.

(** C8, as the code has it.  When the signer certificate or the signer key
    is absent, [generateApplePass] throws and gives no bytes: the pass
    library is never called and the route answers its status-500 message.
    The check stands after the composition: when the template loads and the
    profile is complete, the customized structure has been composed and the
    credentials read by the time the configuration error is thrown. *)
Theorem missing_credential_fails_before_signing
    (host : Host) (collaborators : Collaborators) (userProfile : UserProfile.t) :
  field_truthy (process_env (lit "PASSKIT_CERT")) = false
  \/ field_truthy (process_env (lit "PASSKIT_KEY")) = false ->
  exists steps e,
    generateApplePass_logged userProfile = (steps, Throw e)
    /\ generateApplePass userProfile = Throw e
    /\ ~ In CheckedCredentials steps
    /\ ~ In BuiltPass steps
    /\ (forall assets customizedPassJson,
           loadPassAssets = Ok assets ->
           customizePass (fst assets) userProfile = Ok customizedPassJson ->
           steps = [LoadedAssets; ComposedPass customizedPassJson; ReadCredentials]
           /\ e = missing_credentials)
    /\ (forall c, checkAuth c = Ok None -> req_json c = Ok userProfile ->
           field_truthy (UserProfile.id userProfile) = true ->
           field_truthy (UserProfile.email userProfile) = true ->
           pass_generator c = Ok (json_error (lit "Failed to generate pass") 500)).
Proof.
  intros Hmiss.
  pose proof (generateApplePass_without_credentials userProfile
                (check_credentials_missing Hmiss)) as Hrun.
  assert (Hroute : forall e, generateApplePass userProfile = Throw e ->
            forall c, checkAuth c = Ok None -> req_json c = Ok userProfile ->
              field_truthy (UserProfile.id userProfile) = true ->
              field_truthy (UserProfile.email userProfile) = true ->
              pass_generator c = Ok (json_error (lit "Failed to generate pass") 500)).
  { intros e He c Ha Hb Hid Hemail. unfold pass_generator.
    rewrite (route_authorized _ _ _ Ha). unfold pass_generator_try.
    rewrite Hb. cbn [bind]. rewrite Hid, Hemail. cbn [negb orb].
    now rewrite He. }
  assert (Hgen : forall steps e, generateApplePass_logged userProfile = (steps, Throw e) ->
            generateApplePass userProfile = Throw e).
  { intros steps e He. unfold generateApplePass. now rewrite He. }
  destruct loadPassAssets as [assets|e0] eqn:El.
  - destruct (customizePass (fst assets) userProfile) as [json|e1] eqn:Ec.
    + exists [LoadedAssets; ComposedPass json; ReadCredentials], missing_credentials.
      split; [exact Hrun|]. split; [exact (Hgen _ _ Hrun)|].
      split; [intros [H|[H|[H|[]]]]; discriminate H|].
      split; [intros [H|[H|[H|[]]]]; discriminate H|].
      split.
      * intros a j Ha Hj. injection Ha as <-. rewrite Ec in Hj.
        injection Hj as <-. now split.
      * exact (Hroute _ (Hgen _ _ Hrun)).
    + exists [LoadedAssets], e1.
      split; [exact Hrun|]. split; [exact (Hgen _ _ Hrun)|].
      split; [intros [H|[]]; discriminate H|].
      split; [intros [H|[]]; discriminate H|].
      split.
      * intros a j Ha Hj. injection Ha as <-. rewrite Ec in Hj. discriminate Hj.
      * exact (Hroute _ (Hgen _ _ Hrun)).
  - exists [], e0.
    split; [exact Hrun|]. split; [exact (Hgen _ _ Hrun)|].
    split; [intros []|]. split; [intros []|].
    split.
    + intros a j Ha. discriminate Ha.
    + exact (Hroute _ (Hgen _ _ Hrun)).
Qed.

(** A deployment with no signer key, a complete profile. *)
Lemma missing_credential_fails_before_signing_witness :
  exists customizedPassJson,
    @generateApplePass_logged keyless_host example_collaborators example_profile
    = ([LoadedAssets; ComposedPass customizedPassJson; ReadCredentials],
       Throw missing_credentials)
    /\ @pass_generator keyless_host example_collaborators (authorized example_profile)
       = Ok (json_error (lit "Failed to generate pass") 500).
Proof.
  destruct (@missing_credential_fails_before_signing keyless_host
              example_collaborators example_profile (or_intror eq_refl))
    as (steps & e & Hrun & _ & _ & _ & Hsteps & Hroute).
  destruct (@loadPassAssets keyless_host) as [assets|e0] eqn:El;
    [|discriminate El].
  destruct (@customizePass keyless_host (fst assets) example_profile)
    as [json|e1] eqn:Ec; [|vm_compute in El; injection El as <-; discriminate Ec].
  exists json. split.
  - rewrite Hrun. destruct (Hsteps assets json eq_refl Ec) as [-> ->]. reflexivity.
  - apply Hroute; reflexivity.
Defined.

(** C8 as stated fails in one point: the operation does not fail "without
    attempting composition".  With no signer key the customized pass (serial
    number, field lists, barcode of the profile) is composed first, and the
    missing credential is noticed after. *)
Lemma composition_precedes_credential_check :
  exists customizedPassJson,
    @generateApplePass_logged keyless_host example_collaborators example_profile
    = ([LoadedAssets; ComposedPass customizedPassJson; ReadCredentials],
       Throw missing_credentials)
    /\ PassTemplate.serialNumber customizedPassJson = Some (lit "u1")
    /\ map PassField.key
         (PassGeneric.secondaryFields (PassTemplate.generic customizedPassJson))
       = [lit "status"; lit "products"].
Proof.
  eexists. split; [vm_compute; reflexivity|]. split; reflexivity.
Qed.

(** ** The calendar: years, months and days *)

Section Calendar.
Open Scope Z_scope.

Lemma all_from_spec (n : nat) (k0 : Z) (p : Z -> bool) :
  all_from n k0 p = true -> forall k, k0 <= k < k0 + Z.of_nat n -> p k = true.
Proof.
  revert k0. induction n as [|n IH]; intros k0 H k Hk; [lia|].
  simpl in H. apply andb_true_iff in H as [H1 H2].
  destruct (Z.eq_dec k k0) as [->|Hne]; [exact H1|].
  eapply IH; [exact H2 | lia].
Qed.

Lemma all_below_spec (n : nat) (p : Z -> bool) :
  all_below n p = true -> forall k, 0 <= k < Z.of_nat n -> p k = true.
Proof. intros H k Hk. eapply all_from_spec; [exact H | lia]. Qed.

Lemma DayFromYear_succ (y : Z) :
  DayFromYear (y + 1) = DayFromYear y + DaysInYear y.
Proof.
  unfold DayFromYear, DaysInYear.
  destruct (Z.eqb_spec (y mod 4) 0); destruct (Z.eqb_spec (y mod 100) 0);
    destruct (Z.eqb_spec (y mod 400) 0); simpl negb; cbv iota;
    Z.div_mod_to_equations; lia.
Qed.

Lemma DayFromYear_cycle (y q : Z) :
  DayFromYear (y + 400 * q) = DayFromYear y + 146097 * q.
Proof.
  unfold DayFromYear.
  replace (y + 400 * q - 1969) with ((y - 1969) + (100 * q) * 4) by ring.
  replace (y + 400 * q - 1901) with ((y - 1901) + (4 * q) * 100) by ring.
  replace (y + 400 * q - 1601) with ((y - 1601) + q * 400) by ring.
  rewrite !Z.div_add by lia. ring.
Qed.

Lemma DaysInYear_range (y : Z) : DaysInYear y = 365 \/ DaysInYear y = 366.
Proof.
  unfold DaysInYear.
  destruct (negb (y mod 4 =? 0)); [now left|].
  destruct (negb (y mod 100 =? 0)); [now right|].
  destruct (negb (y mod 400 =? 0)); [now left | now right].
Qed.

Lemma LeapOfYear_cases (y : Z) :
  (LeapOfYear y = 0 /\ DaysInYear y = 365)
  \/ (LeapOfYear y = 1 /\ DaysInYear y = 366).
Proof.
  unfold LeapOfYear. destruct (DaysInYear_range y) as [E|E]; rewrite E; auto.
Qed.

Lemma DayFromYear_mono (y1 y2 : Z) :
  y1 <= y2 -> DayFromYear y1 <= DayFromYear y2.
Proof.
  intros H. replace y2 with (y1 + (y2 - y1)) by ring.
  assert (Hd : 0 <= y2 - y1) by lia. revert Hd.
  generalize (y2 - y1). apply natlike_ind.
  - rewrite Z.add_0_r. lia.
  - intros x Hx IH. replace (y1 + Z.succ x) with ((y1 + x) + 1) by lia.
    rewrite DayFromYear_succ.
    destruct (DaysInYear_range (y1 + x)); lia.
Qed.

Lemma cycle_days_checked : all_below (Z.to_nat 146097) cycle_day_ok = true.
Proof. vm_compute. reflexivity. Qed.

Lemma YearFromDay_cycle (d : Z) :
  YearFromDay d
  = year_in_cycle ((d + 719162) mod 146097) + 400 * ((d + 719162) / 146097).
Proof. unfold YearFromDay, year_in_cycle. cbv zeta. ring. Qed.

(** [YearFromDay d] is the year whose days include [d]. *)
Lemma YearFromDay_spec (d : Z) :
  DayFromYear (YearFromDay d) <= d < DayFromYear (YearFromDay d + 1).
Proof.
  rewrite YearFromDay_cycle.
  set (q := (d + 719162) / 146097). set (r := (d + 719162) mod 146097).
  assert (Hr : 0 <= r < 146097) by (apply Z.mod_pos_bound; lia).
  assert (Hd : d = 146097 * q + r - 719162).
  { pose proof (Z.div_mod (d + 719162) 146097 ltac:(lia)). subst q r. lia. }
  assert (Hok : cycle_day_ok r = true).
  { eapply all_below_spec; [exact cycle_days_checked|]. rewrite Z2Nat.id; lia. }
  unfold cycle_day_ok in Hok. apply andb_true_iff in Hok as [H1 H2].
  apply Z.leb_le in H1. apply Z.ltb_lt in H2.
  replace (year_in_cycle r + 400 * q + 1) with ((year_in_cycle r + 1) + 400 * q)
    by ring.
  rewrite !DayFromYear_cycle. lia.
Qed.

Lemma YearFromDay_unique (y d : Z) :
  DayFromYear y <= d < DayFromYear (y + 1) -> YearFromDay d = y.
Proof.
  intros [H1 H2]. destruct (YearFromDay_spec d) as [H3 H4].
  destruct (Z.lt_trichotomy (YearFromDay d) y) as [Hlt|[Heq|Hgt]]; trivial.
  - pose proof (@DayFromYear_mono (YearFromDay d + 1) y ltac:(lia)). lia.
  - pose proof (@DayFromYear_mono (y + 1) (YearFromDay d) ltac:(lia)). lia.
Qed.

(** The month table. *)
Lemma month_of_day_bounds (l k : Z) :
  l = 0 \/ l = 1 -> 0 <= k < 365 + l ->
  0 <= month_of_day l k <= 11
  /\ days_before_month l (month_of_day l k) <= k.
Proof.
  intros Hl Hk. unfold month_of_day.
  repeat match goal with
         | |- context [?a <? ?b] => destruct (Z.ltb_spec a b)
         end; simpl; destruct Hl; subst; lia.
Qed.

Ltac decide_ltb :=
  repeat match goal with
         | |- context [?a <? ?b] =>
             first [ rewrite (proj2 (Z.ltb_lt a b)) by lia
                   | rewrite (proj2 (Z.ltb_ge a b)) by lia ]
         end.

Lemma month_of_first_plus_leap (l m dt : Z) :
  l = 0 \/ l = 1 ->
  0 <= m <= 11 ->
  1 <= dt <= match m with 1 => 28 + l | 3 | 5 | 8 | 10 => 30 | _ => 31 end ->
  month_of_day l (days_before_month l m + dt - 1) = m
  /\ 0 <= days_before_month l m + dt - 1 < 365 + l.
Proof.
  intros Hl Hm Hdt.
  assert (Hcases : m = 0 \/ m = 1 \/ m = 2 \/ m = 3 \/ m = 4 \/ m = 5 \/ m = 6
                   \/ m = 7 \/ m = 8 \/ m = 9 \/ m = 10 \/ m = 11) by lia.
  destruct Hl; subst l;
    repeat (destruct Hcases as [Hc|Hcases]; [subst m|]); try subst m;
    cbn [days_before_month] in *; unfold month_of_day; decide_ltb; lia.
Qed.

Lemma month_of_first_plus (y m dt : Z) :
  0 <= m <= 11 -> 1 <= dt <= DaysInMonth y m ->
  let l := LeapOfYear y in
  month_of_day l (days_before_month l m + dt - 1) = m
  /\ 0 <= days_before_month l m + dt - 1 < DaysInYear y.
Proof.
  intros Hm Hdt. cbv zeta. unfold DaysInMonth in Hdt.
  destruct (LeapOfYear_cases y) as [[El Ey]|[El Ey]]; rewrite Ey;
    [replace 365 with (365 + LeapOfYear y) by lia
    |replace 366 with (365 + LeapOfYear y) by lia];
    apply month_of_first_plus_leap; auto; rewrite El; auto.
Qed.

Lemma Day_MakeDate (day time : Z) :
  0 <= time < msPerDay -> Day (MakeDate day time) = day.
Proof.
  intros H. unfold Day, MakeDate.
  rewrite Z.add_comm, Z.div_add by (unfold msPerDay; lia).
  rewrite Z.div_small by exact H. reflexivity.
Qed.

Lemma TimeWithinDay_range (t : Z) : 0 <= TimeWithinDay t < msPerDay.
Proof. apply Z.mod_pos_bound. reflexivity. Qed.

(** The day within the year of a time, against the length of its year. *)
Lemma DayWithinYear_range (t : Z) :
  let l := InLeapYear t in
  (l = 0 \/ l = 1) /\ 0 <= DayWithinYear t < 365 + l.
Proof.
  cbv zeta. unfold InLeapYear, DayWithinYear, YearFromTime.
  destruct (YearFromDay_spec (Day t)) as [H1 H2].
  rewrite DayFromYear_succ in H2.
  destruct (LeapOfYear_cases (YearFromDay (Day t))) as [[El Ey]|[El Ey]];
    rewrite El; rewrite Ey in H2; lia.
Qed.

(** The date of a time is a day of its month. *)
Lemma DateFromTime_positive (t : Z) : 1 <= DateFromTime t.
Proof.
  destruct (DayWithinYear_range t) as [Hl Hk]. cbv zeta in Hl, Hk.
  destruct (@month_of_day_bounds (InLeapYear t) (DayWithinYear t) Hl Hk) as [_ H].
  unfold DateFromTime, MonthFromTime. lia.
Qed.

(** The fields of the day that [MakeDay] makes, for a date that exists in
    the month it lands in. *)
Lemma fields_of_MakeDay (year month date time : Z) :
  let ym := year + month / 12 in
  let mn := month mod 12 in
  1 <= date <= DaysInMonth ym mn ->
  0 <= time < msPerDay ->
  let t := MakeDate (MakeDay year month date) time in
  YearFromTime t = ym /\ MonthFromTime t = mn /\ DateFromTime t = date.
Proof.
  cbv zeta. intros Hdate Htime.
  set (ym := year + month / 12) in *. set (mn := month mod 12) in *.
  assert (Hmn : 0 <= mn <= 11) by (pose proof (Z.mod_pos_bound month 12); lia).
  destruct (@month_of_first_plus ym mn date Hmn Hdate) as [Hmonth Hrange].
  assert (Hday : Day (MakeDate (MakeDay year month date) time)
                 = DayFromYear ym + (days_before_month (LeapOfYear ym) mn + date - 1)).
  { rewrite Day_MakeDate by exact Htime. unfold MakeDay. fold ym mn. ring. }
  assert (Hyear : YearFromTime (MakeDate (MakeDay year month date) time) = ym).
  { unfold YearFromTime. rewrite Hday. apply YearFromDay_unique.
    rewrite DayFromYear_succ. lia. }
  assert (Hwithin : DayWithinYear (MakeDate (MakeDay year month date) time)
                    = days_before_month (LeapOfYear ym) mn + date - 1).
  { unfold DayWithinYear. rewrite Hyear, Hday. ring. }
  assert (Hm : MonthFromTime (MakeDate (MakeDay year month date) time) = mn).
  { unfold MonthFromTime, InLeapYear. now rewrite Hyear, Hwithin. }
  repeat split; trivial.
  unfold DateFromTime, InLeapYear. rewrite Hm, Hyear, Hwithin. ring.
Qed.

(** Whole months up to [longest_warranty] add up exactly to a month index. *)
Lemma month_sums_checked :
  all_below 12
    (fun m => all_below (Z.to_nat (longest_warranty + 1))
                (fun n => (n =? 0) || month_sum_exact m n)) = true.
Proof. vm_compute. reflexivity. Qed.

Lemma month_sum (m n : Z) :
  0 <= m <= 11 -> 1 <= n <= longest_warranty ->
  finite_integer (PrimFloat.add (Number_of_Z m) (Number_of_Z n)) = Some (m + n)
  /\ number_truthy (Number_of_Z n) = true.
Proof.
  intros Hm Hn.
  unfold longest_warranty in *.
  assert (H : all_below (Z.to_nat (1200 + 1))
                (fun n => (n =? 0) || month_sum_exact m n) = true).
  { apply (@all_below_spec 12
             (fun m => all_below (Z.to_nat (1200 + 1))
                         (fun n => (n =? 0) || month_sum_exact m n))
             month_sums_checked). simpl. lia. }
  assert (H' : (n =? 0) || month_sum_exact m n = true).
  { apply (@all_below_spec _ _ H). rewrite Z2Nat.id; lia. }
  apply orb_true_iff in H' as [H'|H']; [apply Z.eqb_eq in H'; lia|].
  unfold month_sum_exact in H'.
  destruct (finite_integer _) as [k|]; [|discriminate].
  apply andb_true_iff in H' as [Hk Ht]. apply Z.eqb_eq in Hk. now subst.
Qed.

Lemma MonthFromTime_range (t : Z) : 0 <= MonthFromTime t <= 11.
Proof.
  destruct (DayWithinYear_range t) as [Hl Hk]. cbv zeta in Hl, Hk.
  destruct (@month_of_day_bounds (InLeapYear t) (DayWithinYear t) Hl Hk) as [H _].
  exact H.
Qed.

End Calendar.

(** ** The expiration date of the calendar event *)

(* The statements below carry large symbolic dates; the arguments of their
   lemmas are all explicit. *)
Unset Implicit Arguments.

Section Expiration.
Context {host : Host}.
Variable offset : Z.
Hypothesis fixed_offset : forall t isUTC, LocalTZA t isUTC = offset.
Open Scope Z_scope.

Lemma LocalTime_fixed (t : Z) : LocalTime t = t + offset.
Proof. unfold LocalTime. now rewrite fixed_offset. Qed.

Lemma UTC_fixed (t : Z) : UTC t = t - offset.
Proof. unfold UTC. now rewrite fixed_offset. Qed.

Lemma days_before_month_range (l m : Z) :
  l = 0 \/ l = 1 -> 0 <= m <= 11 -> 0 <= days_before_month l m <= 335.
Proof.
  intros Hl Hm.
  assert (Hcases : m = 0 \/ m = 1 \/ m = 2 \/ m = 3 \/ m = 4 \/ m = 5 \/ m = 6
                   \/ m = 7 \/ m = 8 \/ m = 9 \/ m = 10 \/ m = 11) by lia.
  destruct Hl; subst l;
    repeat (destruct Hcases as [Hc|Hcases]; [subst m|]); try subst m;
    simpl; lia.
Qed.

Lemma DayFromYear_bound (y : Z) :
  -201000 <= y <= 201000 -> -75000000 <= DayFromYear y <= 75000000.
Proof.
  intros H. unfold DayFromYear.
  pose proof (Z.div_mod (y - 1969) 4 ltac:(lia)).
  pose proof (Z.mod_pos_bound (y - 1969) 4 ltac:(lia)).
  pose proof (Z.div_mod (y - 1901) 100 ltac:(lia)).
  pose proof (Z.mod_pos_bound (y - 1901) 100 ltac:(lia)).
  pose proof (Z.div_mod (y - 1601) 400 ltac:(lia)).
  pose proof (Z.mod_pos_bound (y - 1601) 400 ltac:(lia)).
  lia.
Qed.

Lemma DaysInMonth_range (y m : Z) : 28 <= DaysInMonth y m <= 31.
Proof.
  unfold DaysInMonth.
  destruct (LeapOfYear_cases y) as [[El _]|[El _]]; rewrite El;
    destruct m as [|[[[|[]|]|[[]|[]|]|]|[[|[]|]|[[]|[]|]|]|]|]; lia.
Qed.

(** The time [setMonth] makes is a time value. *)
Lemma new_time_in_range (year k date time : Z) :
  -200000 <= year <= 200000 -> 0 <= k <= 12000 ->
  1 <= date <= 31 -> 0 <= time < msPerDay -> Z.abs offset < msPerDay ->
  Z.abs (MakeDate (MakeDay year k date) time - offset) <= 8640000000000000.
Proof.
  intros Hy Hk Hd Ht Ho. unfold MakeDate, MakeDay, msPerDay in *.
  assert (Hq : 0 <= k / 12 <= 1000) by (Z.div_mod_to_equations; lia).
  assert (Hm : 0 <= k mod 12 <= 11) by (pose proof (Z.mod_pos_bound k 12); lia).
  pose proof (DayFromYear_bound (year + k / 12) ltac:(lia)) as Hb.
  assert (Hl : LeapOfYear (year + k / 12) = 0 \/ LeapOfYear (year + k / 12) = 1)
    by (destruct (LeapOfYear_cases (year + k / 12)) as [[E _]|[E _]]; auto).
  pose proof (days_before_month_range _ _ Hl Hm) as Hbm.
  lia.
Qed.

Lemma TimeClip_in_range (x : Z) :
  Z.abs x <= 8640000000000000 -> TimeClip x = Some x.
Proof. intros H. unfold TimeClip. now rewrite (proj2 (Z.leb_le _ _) H). Qed.

Lemma setMonth_some (tv : Z) (months : number) (k : Z) :
  finite_integer months = Some k ->
  setMonth (Some tv) months
  = TimeClip (UTC (MakeDate (MakeDay (YearFromTime (LocalTime tv)) k
                               (DateFromTime (LocalTime tv)))
                     (TimeWithinDay (LocalTime tv)))).
Proof. intros H. unfold setMonth. now rewrite H. Qed.

Lemma date_fields_some (u : Z) :
  date_fields (Some u)
  = Some (YearFromTime (LocalTime u), MonthFromTime (LocalTime u) + 1,
          DateFromTime (LocalTime u)).
Proof. reflexivity. Qed.

Lemma fields_after_clip (newDate ym mn d : Z) :
  Z.abs (newDate - offset) <= 8640000000000000 ->
  YearFromTime newDate = ym -> MonthFromTime newDate = mn ->
  DateFromTime newDate = d ->
  date_fields (TimeClip (UTC newDate)) = Some (ym, mn + 1, d).
Proof.
  intros Hrange Hy Hm Hd.
  rewrite UTC_fixed, (TimeClip_in_range _ Hrange), date_fields_some,
    LocalTime_fixed.
  replace (newDate - offset + offset) with newDate by lia.
  now rewrite Hy, Hm, Hd.
Qed.

End Expiration.

Section LocalMonth.
Context {host : Host}.
Open Scope Z_scope.

(** [setMonth] on any host: the fields of the new date, when it is a valid
    date and its local time exists on the host. *)
Lemma setMonth_local_fields (tv : Z) (months : number) (k : Z) :
  finite_integer months = Some k ->
  let t := LocalTime tv in
  let newDate :=
    MakeDate (MakeDay (YearFromTime t) k (DateFromTime t)) (TimeWithinDay t) in
  Z.abs (UTC newDate) <= 8640000000000000 ->
  LocalTime (UTC newDate) = newDate ->
  DateFromTime t <= DaysInMonth (YearFromTime t + k / 12) (k mod 12) ->
  date_fields (setMonth (Some tv) months)
  = Some (YearFromTime t + k / 12, k mod 12 + 1, DateFromTime t).
Proof.
  cbv zeta. intros Hk Hvalid Hlocal Hdate.
  rewrite (setMonth_some tv months k Hk), (TimeClip_in_range _ Hvalid),
    date_fields_some, Hlocal.
  destruct (@fields_of_MakeDay (YearFromTime (LocalTime tv)) k
              (DateFromTime (LocalTime tv)) (TimeWithinDay (LocalTime tv)))
    as (Hy & Hm & Hd).
  - split; [apply DateFromTime_positive | exact Hdate].
  - apply TimeWithinDay_range.
  - now rewrite Hy, Hm, Hd.
Qed.

Lemma warranty_event_local_start (product_name purchase_date : jsstring)
    (tv : Z) (months : number) (k : Z) :
  Date_of_string purchase_date = Some tv ->
  let t := LocalTime tv in
  finite_integer (PrimFloat.add (Number_of_Z (MonthFromTime t)) months) = Some k ->
  let newDate :=
    MakeDate (MakeDay (YearFromTime t) k (DateFromTime t)) (TimeWithinDay t) in
  Z.abs (UTC newDate) <= 8640000000000000 ->
  LocalTime (UTC newDate) = newDate ->
  DateFromTime t <= DaysInMonth (YearFromTime t + k / 12) (k mod 12) ->
  Event.start (warranty_event product_name purchase_date months)
  = Some (YearFromTime t + k / 12, k mod 12 + 1, DateFromTime t).
Proof.
  cbv zeta. intros Hparse Hk Hvalid Hlocal Hdate.
  unfold warranty_event, expirationDate_of, Date_of_Date. cbn [Event.start].
  rewrite Hparse. unfold getMonth.
  exact (setMonth_local_fields tv _ k Hk Hvalid Hlocal Hdate).
Qed.

Lemma purchase_2024_01_15 :
  Date_of_string (lit "2024-01-15") = Some 1705276800000.
Proof. reflexivity. Qed.

(** The example of the specification, on a host whose offset is the same at
    the purchase and at the expiration and is at or east of UTC. *)
Lemma warranty_event_2024_01_15 (product_name : jsstring) (offset : Z) :
  0 <= offset < msPerDay ->
  LocalTZA 1705276800000 true = offset ->
  let newDate := MakeDate (MakeDay 2024 12 15) offset in
  LocalTZA newDate false = offset ->
  LocalTZA (newDate - offset) true = offset ->
  Event.start (warranty_event product_name (lit "2024-01-15") 12%float)
  = Some (2025, 1, 15).
Proof.
  cbv zeta. intros Ho Hat Hfalse Htrue. unfold msPerDay in Ho.
  assert (Ht : LocalTime 1705276800000 = 1705276800000 + offset)
    by (unfold LocalTime; now rewrite Hat).
  assert (Hday : Day (1705276800000 + offset) = 19737).
  { unfold Day, msPerDay. Z.div_mod_to_equations. lia. }
  assert (Htime : TimeWithinDay (1705276800000 + offset) = offset).
  { unfold TimeWithinDay, msPerDay. Z.div_mod_to_equations. lia. }
  assert (Hfields :
            YearFromTime (1705276800000 + offset) = 2024
            /\ MonthFromTime (1705276800000 + offset) = 0
            /\ DateFromTime (1705276800000 + offset) = 15).
  { unfold DateFromTime, MonthFromTime, InLeapYear, DayWithinYear, YearFromTime.
    rewrite Hday. repeat split; reflexivity. }
  destruct Hfields as (Hy & Hm & Hd).
  rewrite (warranty_event_local_start product_name (lit "2024-01-15")
             1705276800000 12%float 12 purchase_2024_01_15);
    rewrite ?Ht, ?Hy, ?Hm, ?Hd, ?Htime.
  - reflexivity.
  - reflexivity.
  - unfold UTC. rewrite Hfalse. unfold MakeDate, msPerDay.
    change (MakeDay 2024 12 15) with 20103. lia.
  - unfold UTC, LocalTime. rewrite Hfalse, Htrue. lia.
  - vm_compute. discriminate.
Qed.

End LocalMonth.




(** ** The theorems above at concrete inputs *)

(** C2 on a call that yields no completion text. *)
Lemma parseReceiptWithAI_degrades_witness :
  @parseReceiptWithAI utc_host example_collaborators {| apiKey := lit "sk-test" |}
    (lit "Your order") (lit "Thank you for your purchase.")
  = Some (degraded_record (lit "Automated extraction failed. Original content: ")
            (lit "Your order") (lit "Thank you for your purchase.")).
Proof.
  exact (proj1 (proj2 (@parseReceiptWithAI_degrades utc_host example_collaborators
                         {| apiKey := lit "sk-test" |} (lit "Your order")
                         (lit "Thank you for your purchase."))) eq_refl).
Defined.

(** C3 on a call that yields no completion text. *)
Lemma parseStatusUpdateWithAI_fails_closed_witness :
  @parseStatusUpdateWithAI utc_host example_collaborators {| apiKey := lit "sk-test" |}
    (lit "Your order") (lit "It has shipped.")
  = None.
Proof.
  exact (proj1 (proj2 (@parseStatusUpdateWithAI_fails_closed utc_host
                         example_collaborators {| apiKey := lit "sk-test" |}
                         (lit "Your order") (lit "It has shipped."))) eq_refl).
Defined.


(** C5 on a text that is not truncated. *)
Lemma sanitizeText_output_witness :
  sanitizeText (sanitizeText (lit "  a <b>  c "))
  = sanitizeText (lit "  a <b>  c ").
Proof.
  exact (proj2 (proj1 (sanitizeText_output (lit "  a <b>  c "))) eq_refl).
Defined.


(* ================================================================== *)
(** * The authorization check *)
(* ================================================================== *)

(** ** Authorization *)

Section Authorization.
Context {host : Host}.

Lemma char_eqb_eq (a b : char) : char_eqb a b = true <-> a = b.
Proof. unfold char_eqb. apply N.eqb_eq. Qed.

Lemma jsstring_eqb_eq (a b : jsstring) : jsstring_eqb a b = true <-> a = b.
Proof.
  revert b. induction a as [|x a IH]; intros [|y b]; simpl;
    try (split; [discriminate | discriminate]); [tauto|].
  rewrite andb_true_iff, char_eqb_eq, IH. split.
  - now intros [-> ->].
  - now intros [= -> ->].
Qed.

Lemma startsWith_prefix (s prefix : jsstring) :
  startsWith s prefix = true <-> exists rest, s = prefix ++ rest.
Proof.
  revert s. induction prefix as [|p prefix IH]; intros [|c s]; simpl.
  - split; [intros _; now exists [] | reflexivity].
  - split; [intros _; now exists (c :: s) | reflexivity].
  - split; [discriminate | intros (r & H); discriminate H].
  - rewrite andb_true_iff, char_eqb_eq, IH. split.
    + intros (-> & r & ->). now exists r.
    + intros (r & [= -> ->]). split; [reflexivity | now exists r].
Qed.

Lemma getRequiredEnvVar_nonempty (name key : jsstring) :
  getRequiredEnvVar name = Ok key -> key <> [].
Proof.
  unfold getRequiredEnvVar. destruct (process_env name) as [v|]; [|discriminate].
  destruct v; simpl; [discriminate|]. intros [= <-]. discriminate.
Qed.

(** With the secret configured the check returns one of three values. *)
Lemma checkAuth_outcomes {B} (c : Context B) (key : jsstring) :
  getRequiredEnvVar (lit "SERVICES_API_KEY") = Ok key ->
  checkAuth c = Ok None
  \/ checkAuth c = Ok (Some (json_error (lit "Missing Authorization header") 401))
  \/ checkAuth c = Ok (Some (json_error (lit "Invalid API key") 401)).
Proof.
  intros Hkey. unfold checkAuth. rewrite Hkey. cbn [bind].
  destruct (req_header_Authorization c) as [h|]; [|now right; left].
  destruct (negb (string_truthy h) || negb (startsWith h (lit "Bearer ")));
    [now right; left|].
  destruct (negb (jsstring_eqb (slice_from h 7) key)); [now right; right | now left].
Qed.

End Authorization.

(** X1.  With the shared secret configured, [checkAuth] lets a request
    through exactly when its Authorization header is "Bearer " followed by
    the secret; any other request is answered with status 401: "Missing
    Authorization header" when there is no header or it does not start
    with "Bearer ", "Invalid API key" when the key differs. *)
Theorem checkAuth_accepts_exactly_the_secret
    (host : Host) (B : Type) (c : Context B) (key : jsstring) :
  getRequiredEnvVar (lit "SERVICES_API_KEY") = Ok key ->
  (checkAuth c = Ok None
   <-> req_header_Authorization c = Some (lit "Bearer " ++ key))
  /\ (checkAuth c = Ok None
      \/ checkAuth c = Ok (Some (json_error (lit "Missing Authorization header") 401))
      \/ checkAuth c = Ok (Some (json_error (lit "Invalid API key") 401)))
  /\ ((forall rest, req_header_Authorization c <> Some (lit "Bearer " ++ rest)) ->
      checkAuth c = Ok (Some (json_error (lit "Missing Authorization header") 401)))
  /\ (forall provided, provided <> key ->
      req_header_Authorization c = Some (lit "Bearer " ++ provided) ->
      checkAuth c = Ok (Some (json_error (lit "Invalid API key") 401))).
Proof.
  intros Hkey. unfold checkAuth. rewrite Hkey. cbn [bind].
  destruct (req_header_Authorization c) as [h|].
  - destruct (startsWith h (lit "Bearer ")) eqn:Es.
    + apply startsWith_prefix in Es as (rest & ->).
      change (string_truthy (lit "Bearer " ++ rest)) with true.
      cbn [negb orb]. change (slice_from (lit "Bearer " ++ rest) 7) with rest.
      destruct (jsstring_eqb rest key) eqn:Ek; cbn [negb].
      * apply jsstring_eqb_eq in Ek. subst rest.
        split; [tauto|]. split; [now left|]. split.
        -- intros H. exfalso. now apply (H key).
        -- intros provided Hne [= E]. try apply app_inv_head in E; congruence.
      * assert (Hne : rest <> key).
        { intros ->. rewrite (proj2 (jsstring_eqb_eq key key) eq_refl) in Ek.
          discriminate Ek. }
        split.
        -- split; [discriminate|]. intros [= E]. try apply app_inv_head in E; congruence.
        -- split; [now right; right|]. split.
           ++ intros H. exfalso. now apply (H rest).
           ++ reflexivity.
    + rewrite orb_true_r. split.
      * split; [discriminate|]. intros [= ->].
        cbn in Es. destruct key; discriminate Es.
      * split; [now right; left|]. split; [reflexivity|].
        intros provided _ [= ->].
        cbn in Es. destruct provided; discriminate Es.
  - split; [split; discriminate|]. split; [now right; left|].
    split; [reflexivity|]. intros provided _ H. discriminate H.
Qed.

(** The example deployment: the right header passes, a wrong key does not. *)
Lemma checkAuth_accepts_exactly_the_secret_witness :
  @checkAuth utc_host _ (authorized example_profile) = Ok None
  /\ @checkAuth utc_host _
       {| req_header_Authorization := Some (lit "Bearer guess");
          req_json := Ok example_profile |}
     = Ok (Some (json_error (lit "Invalid API key") 401)).
Proof.
  destruct (checkAuth_accepts_exactly_the_secret utc_host _
              (authorized example_profile) (lit "secret") eq_refl)
    as (H1 & _).
  destruct (checkAuth_accepts_exactly_the_secret utc_host _
              {| req_header_Authorization := Some (lit "Bearer guess");
                 req_json := Ok example_profile |} (lit "secret") eq_refl)
    as (_ & _ & _ & H4).
  split.
  - apply H1. reflexivity.
  - apply (H4 (lit "guess")); [discriminate | reflexivity].
Defined.

(** X20.  A request that does not carry the secret never reaches the body
    of a route: whatever the [try] block would compute and whatever the
    route answers on a failure, the answer is the 401 of the check. *)
Theorem unauthorized_request_is_rejected
    (host : Host) (B : Type) (c : Context B) (key : jsstring)
    (try_block : result Response) (on_catch : Response) :
  getRequiredEnvVar (lit "SERVICES_API_KEY") = Ok key ->
  req_header_Authorization c <> Some (lit "Bearer " ++ key) ->
  exists message,
    (message = lit "Missing Authorization header" \/ message = lit "Invalid API key")
    /\ route c try_block on_catch = Ok (json_error message 401).
Proof.
  intros Hkey Hheader.
  assert (Hnot : checkAuth c <> Ok None).
  { intros H. apply Hheader. unfold checkAuth in H. rewrite Hkey in H.
    cbn [bind] in H.
    destruct (req_header_Authorization c) as [h|]; [|discriminate H].
    destruct (startsWith h (lit "Bearer ")) eqn:Es.
    - apply startsWith_prefix in Es as (rest & ->).
      change (string_truthy (lit "Bearer " ++ rest)) with true in H.
      cbn [negb orb] in H.
      change (slice_from (lit "Bearer " ++ rest) 7) with rest in H.
      destruct (jsstring_eqb rest key) eqn:Ek; [|discriminate H].
      apply jsstring_eqb_eq in Ek. now subst rest.
    - rewrite orb_true_r in H. discriminate H. }
  destruct (@checkAuth_outcomes host B c key Hkey) as [H|[H|H]];
    [contradiction | |]; eexists; (split; [|unfold route; rewrite H; reflexivity]);
    auto.
Qed.

Lemma unauthorized_request_is_rejected_witness :
  @pass_generator utc_host example_collaborators
    {| req_header_Authorization := Some (lit "Bearer guess");
       req_json := Ok example_profile |}
  = Ok (json_error (lit "Invalid API key") 401).
Proof.
  destruct (unauthorized_request_is_rejected utc_host UserProfile.t
              {| req_header_Authorization := Some (lit "Bearer guess");
                 req_json := Ok example_profile |}
              (lit "secret")
              (@pass_generator_try utc_host example_collaborators
                 {| req_header_Authorization := Some (lit "Bearer guess");
                    req_json := Ok example_profile |})
              (json_error (lit "Failed to generate pass") 500)
              eq_refl ltac:(discriminate))
    as (message & _ & E).
  assert (Em : message = lit "Invalid API key").
  { assert (H : @route utc_host UserProfile.t
                  {| req_header_Authorization := Some (lit "Bearer guess");
                     req_json := Ok example_profile |}
                  (@pass_generator_try utc_host example_collaborators
                     {| req_header_Authorization := Some (lit "Bearer guess");
                        req_json := Ok example_profile |})
                  (json_error (lit "Failed to generate pass") 500)
                = Ok (json_error (lit "Invalid API key") 401)) by reflexivity.
    rewrite H in E. injection E as E. now symmetry. }
  rewrite Em in E. exact E.
Defined.

(* ================================================================== *)
(** * The email route *)
(* ================================================================== *)

(** ** The classifier and the email route *)

Section EmailRoute.
Context {host : Host} {collaborators : Collaborators}.

Lemma classifyEmailIntent_cases (openai : OpenAI) (subject text : jsstring) :
  classifyEmailIntent openai subject text =
  match outcome_of
          (chat_completions_create openai
             (completion_request EMAIL_CLASSIFICATION_PROMPT subject text 50))
  with
  | Parsed v =>
      match getProp v (lit "intent") with
      | Ok intent =>
          if truthy intent && is_intent_label intent then Some v else None
      | Throw _ => None
      end
  | _ => None
  end.
Proof.
  unfold classifyEmailIntent.
  destruct (chat_completions_create _ _) as [content|e]; [|reflexivity].
  cbn [bind]. rewrite (@responseText_parse host).
  destruct (outcome_of (Ok content)) as [| | |v]; try reflexivity.
  destruct (getProp v (lit "intent")) as [intent|e]; [|reflexivity].
  cbn [bind].
  destruct (truthy intent); cbn [negb orb andb]; [|reflexivity].
  now destruct (is_intent_label intent).
Qed.

Lemma strict_equals_string_eq (v : option JSON) (s : jsstring) :
  strict_equals_string v s = true <-> v = Some (JString s).
Proof.
  unfold strict_equals_string.
  destruct v as [[| | |t| |]|]; try (split; [discriminate | discriminate]).
  rewrite jsstring_eqb_eq. split; [now intros -> | now intros [= ->]].
Qed.

Lemma is_intent_label_spec (v : option JSON) :
  is_intent_label v = true <->
  exists label, In label intent_labels /\ v = Some (JString label).
Proof.
  unfold is_intent_label, intent_labels.
  rewrite !orb_true_iff, !strict_equals_string_eq. split.
  - intros [[H|H]|H]; eexists; (split; [|exact H]); simpl; auto.
  - intros (label & [<-|[<-|[<-|[]]]] & ->); auto.
Qed.

Lemma intent_label_accepted (intent : option JSON) :
  truthy intent && is_intent_label intent = true <->
  exists label, In label intent_labels /\ intent = Some (JString label).
Proof.
  split.
  - intros H. apply andb_true_iff in H as [_ H].
    now apply is_intent_label_spec.
  - intros (label & Hin & ->). apply andb_true_iff. split.
    + destruct Hin as [<-|[<-|[<-|[]]]]; reflexivity.
    + apply is_intent_label_spec. now exists label.
Qed.

(** [classifyEmailIntent] returns the parsed object, and only when its
    [intent] is one of the three labels. *)
Lemma classifyEmailIntent_some (openai : OpenAI) (subject text : jsstring)
    (intentResult : JSON) :
  classifyEmailIntent openai subject text = Some intentResult <->
  outcome_of
    (chat_completions_create openai
       (completion_request EMAIL_CLASSIFICATION_PROMPT subject text 50))
  = Parsed intentResult
  /\ exists label,
       In label intent_labels
       /\ getProp intentResult (lit "intent") = Ok (Some (JString label)).
Proof.
  rewrite classifyEmailIntent_cases.
  destruct (outcome_of _) as [| | |v];
    try (split; [discriminate | intros [H _]; discriminate H]).
  destruct (getProp v (lit "intent")) as [intent|e] eqn:E.
  - destruct (truthy intent && is_intent_label intent) eqn:El.
    + apply intent_label_accepted in El as (label & Hin & ->). split.
      * intros [= <-]. split; [reflexivity|]. now exists label.
      * now intros [[= <-] _].
    + split; [discriminate|]. intros [[= <-] (label & Hin & Hget)].
      rewrite E in Hget. injection Hget as ->.
      assert (Ht : truthy (Some (JString label))
                   && is_intent_label (Some (JString label)) = true)
        by (apply intent_label_accepted; now exists label).
      rewrite Ht in El. discriminate El.
  - split; [discriminate|]. intros [[= <-] (label & _ & Hget)].
    rewrite E in Hget. discriminate Hget.
Qed.

(** What [classifyEmailIntent] returns carries one of the three labels. *)
Lemma classifyEmailIntent_label (openai : OpenAI) (subject text : jsstring)
    (intentResult : JSON) :
  classifyEmailIntent openai subject text = Some intentResult ->
  exists label,
    In label intent_labels
    /\ getProp intentResult (lit "intent") = Ok (Some (JString label)).
Proof.
  rewrite classifyEmailIntent_cases.
  destruct (outcome_of _) as [| | |v]; try discriminate.
  destruct (getProp v (lit "intent")) as [intent|e] eqn:E; [|discriminate].
  destruct (truthy intent); cbn [andb]; [|discriminate].
  destruct (is_intent_label intent) eqn:El; [|discriminate].
  intros [= <-]. apply is_intent_label_spec in El as (label & Hin & ->).
  now exists label.
Qed.

Lemma parseReceiptWithAI_some (openai : OpenAI) (subject text : jsstring) :
  exists record,
    parseReceiptWithAI openai subject text = Some record
    /\ present_nonempty record (lit "product_name").
Proof.
  rewrite parseReceiptWithAI_cases.
  destruct (outcome_of _) as [| | |v];
    try (eexists; split; [reflexivity | apply degraded_record_product_name]).
  destruct (has_field v (lit "product_name")) eqn:E.
  - exists v. split; [reflexivity | now apply has_field_present].
  - eexists; split; [reflexivity | apply degraded_record_product_name].
Qed.

(** The second stage of the email route, for a classified email. *)
Lemma email_stage_two (openai : OpenAI) (subject text label : jsstring) :
  In label intent_labels ->
  let intent := Some (JString label) in
  (if strict_equals_string intent (lit "PURCHASE")
   then Ok (extraction_response intent (parseReceiptWithAI openai subject text))
   else if strict_equals_string intent (lit "RETURN")
           || strict_equals_string intent (lit "SHIPMENT_UPDATE")
   then Ok (extraction_response intent (parseStatusUpdateWithAI openai subject text))
   else Ok (json_error (lit "Unsupported email intent: " ++ JSON_toString intent) 400))
  = Ok (extraction_response intent
          (if jsstring_eqb label (lit "PURCHASE")
           then parseReceiptWithAI openai subject text
           else parseStatusUpdateWithAI openai subject text)).
Proof.
  intros [<-|[<-|[<-|[]]]]; reflexivity.
Qed.

Lemma extraction_response_kind (label : jsstring) (result : option JSON) :
  In label intent_labels ->
  email_response (extraction_response (Some (JString label)) result).
Proof.
  intros Hin. destruct result as [data|]; simpl.
  - now apply Email_extracted.
  - apply Email_unextracted.
Qed.

Lemma email_parser_try_kind (c : Context EmailContent.t) :
  email_response
    (try_catch (email_parser_try c) (json_error (lit "Internal server error") 500)).
Proof.
  unfold email_parser_try.
  destruct (req_json c) as [body|e]; [|apply Email_internal_error].
  cbn [bind].
  destruct (required (EmailContent.to body)); [|apply Email_missing_fields].
  destruct (required (EmailContent.from body)); [|apply Email_missing_fields].
  destruct (required (EmailContent.subject body)) as [subject|];
    [|apply Email_missing_fields].
  destruct (required (EmailContent.text body)) as [text|];
    [|apply Email_missing_fields].
  destruct (getRequiredEnvVar (lit "OPENAI_API_KEY")) as [k|e];
    [|apply Email_internal_error].
  cbn [bind].
  destruct (classifyEmailIntent {| apiKey := k |} subject text) as [ir|] eqn:Ec;
    [|apply Email_unclassified].
  destruct (classifyEmailIntent_label _ _ _ _ Ec) as (label & Hin & Hget).
  rewrite Hget. cbn [bind].
  rewrite (email_stage_two _ _ _ label Hin). cbn [try_catch].
  now apply extraction_response_kind.
Qed.

End EmailRoute.

(** X2.  [classifyEmailIntent] answers the parsed object itself, and only
    when the completion is JSON whose [intent] is one of the strings
    PURCHASE, RETURN, SHIPMENT_UPDATE; in every other case it answers no
    result: when the call fails, when there is no completion text, when the
    text is no JSON, and when the [intent] is missing, is no string or is
    another string. *)
Theorem classifyEmailIntent_is_closed
    (host : Host) (collaborators : Collaborators)
    (openai : OpenAI) (subject text : jsstring) :
  let outcome :=
    outcome_of
      (chat_completions_create openai
         (completion_request EMAIL_CLASSIFICATION_PROMPT subject text 50)) in
  (forall intentResult,
      classifyEmailIntent openai subject text = Some intentResult <->
      outcome = Parsed intentResult
      /\ exists label,
           In label intent_labels
           /\ getProp intentResult (lit "intent") = Ok (Some (JString label)))
  /\ (classifyEmailIntent openai subject text = None <->
      match outcome with
      | Parsed v =>
          forall label, In label intent_labels ->
            getProp v (lit "intent") <> Ok (Some (JString label))
      | _ => True
      end)
  /\ (outcome = CallFailed \/ outcome = NoCompletionText
      \/ outcome = UnparseableJSON ->
      classifyEmailIntent openai subject text = None).
Proof.
  cbv zeta.
  assert (Hsome := @classifyEmailIntent_some host collaborators openai subject
                     text).
  assert (Hnone : classifyEmailIntent openai subject text = None <->
            match outcome_of
                    (chat_completions_create openai
                       (completion_request EMAIL_CLASSIFICATION_PROMPT subject
                          text 50))
            with
            | Parsed v =>
                forall label, In label intent_labels ->
                  getProp v (lit "intent") <> Ok (Some (JString label))
            | _ => True
            end).
  { split.
    - intros E. destruct (outcome_of _) as [| | |v] eqn:Eo; trivial.
      intros label Hin Hget.
      assert (Hs : classifyEmailIntent openai subject text = Some v)
        by (apply Hsome; split; [reflexivity | now exists label]).
      rewrite E in Hs. discriminate Hs.
    - intros H.
      assert (Hno : forall r, classifyEmailIntent openai subject text <> Some r).
      { intros r E. apply Hsome in E as [Eo (label & Hin & Hget)].
        rewrite Eo in H. exact (H label Hin Hget). }
      destruct (classifyEmailIntent openai subject text) as [r|];
        [exfalso; exact (Hno r eq_refl) | reflexivity]. }
  split; [exact Hsome|]. split; [exact Hnone|].
  intros H. apply Hnone. destruct H as [-> | [-> | ->]]; exact I.
Qed.

(** X3.  With the shared secret configured, the email route answers, for
    every request and whatever the model returns, one of: a 401 of the
    authorization check, "Missing required email fields" (400), "Internal
    server error" (500), "Failed to classify email intent" (500), "Failed
    to extract data from email" (500), or a status-200 object whose
    [intent] is one of the three labels.  The "Unsupported email intent"
    answer of the [switch] default is never given. *)
Theorem email_parser_responses
    (host : Host) (collaborators : Collaborators) (key : jsstring)
    (c : Context EmailContent.t) :
  getRequiredEnvVar (lit "SERVICES_API_KEY") = Ok key ->
  exists r, email_parser c = Ok r /\ email_response r.
Proof.
  intros Hkey. unfold email_parser, route.
  destruct (@checkAuth_outcomes host _ c key Hkey) as [H|[H|H]];
    rewrite H; cbn [bind].
  - eexists. split; [reflexivity | apply email_parser_try_kind].
  - eexists. split; [reflexivity | apply Email_unauthorized].
  - eexists. split; [reflexivity | apply Email_unauthorized].
Qed.

(** The example deployment, whose model gives no content: the email cannot
    be classified. *)
Lemma email_parser_responses_witness :
  email_response (json_error (lit "Failed to classify email intent") 500)
  /\ @email_parser utc_host example_collaborators (authorized example_email)
     = Ok (json_error (lit "Failed to classify email intent") 500).
Proof.
  destruct (email_parser_responses utc_host example_collaborators (lit "secret")
              (authorized example_email) eq_refl) as (r & E & Hr).
  assert (Er : r = json_error (lit "Failed to classify email intent") 500).
  { assert (H : @email_parser utc_host example_collaborators (authorized example_email)
                = Ok (json_error (lit "Failed to classify email intent") 500))
      by reflexivity.
    rewrite H in E. now injection E as <-. }
  rewrite Er in Hr, E. split; [exact Hr | exact E].
Defined.

(** X4.  An email classified as PURCHASE is always answered with status 200
    and a record whose [product_name] is present and non-empty: the receipt
    extractor degrades instead of failing, so "Failed to extract data from
    email" cannot follow a PURCHASE. *)
Theorem purchase_is_always_answered
    (host : Host) (collaborators : Collaborators)
    (c : Context EmailContent.t) (body : EmailContent.t)
    (recipient sender subject text apikey : jsstring) (intentResult : JSON) :
  checkAuth c = Ok None ->
  req_json c = Ok body ->
  required (EmailContent.to body) = Some recipient ->
  required (EmailContent.from body) = Some sender ->
  required (EmailContent.subject body) = Some subject ->
  required (EmailContent.text body) = Some text ->
  getRequiredEnvVar (lit "OPENAI_API_KEY") = Ok apikey ->
  classifyEmailIntent {| apiKey := apikey |} subject text = Some intentResult ->
  getProp intentResult (lit "intent") = Ok (Some (JString (lit "PURCHASE"))) ->
  exists record,
    email_parser c
    = Ok (JsonResponse
            (JObject [ (lit "intent", JString (lit "PURCHASE"));
                       (lit "data", record) ]) 200)
    /\ present_nonempty record (lit "product_name").
Proof.
  intros Ha Hb Hto Hfrom Hs Ht Hk Hc Hi.
  destruct (@parseReceiptWithAI_some host collaborators {| apiKey := apikey |}
              subject text) as (record & Hr & Hp).
  exists record. split; [|exact Hp].
  unfold email_parser. rewrite (@route_authorized host _ _ _ _ Ha).
  unfold email_parser_try. rewrite Hb. cbn [bind].
  rewrite Hto, Hfrom, Hs, Ht, Hk. cbn [bind]. rewrite Hc, Hi. cbn [bind].
  change (strict_equals_string (Some (JString (lit "PURCHASE"))) (lit "PURCHASE"))
    with true. cbv iota. rewrite Hr. reflexivity.
Qed.

(** A deployment whose model labels every email a purchase: the record it
    answers has no [product_name], so the degraded record is returned. *)
Lemma purchase_is_always_answered_witness :
  exists record,
    @email_parser (classifying_host "PURCHASE") (labelling_collaborators "PURCHASE")
      (authorized example_email)
    = Ok (JsonResponse
            (JObject [ (lit "intent", JString (lit "PURCHASE"));
                       (lit "data", record) ]) 200)
    /\ present_nonempty record (lit "product_name").
Proof.
  exact (purchase_is_always_answered (classifying_host "PURCHASE")
           (labelling_collaborators "PURCHASE")
           (authorized example_email) example_email
           (lit "vault@claimso.com") (lit "shop@example.com") (lit "Your order")
           (lit "Thank you for your purchase.") (lit "sk-test")
           (JObject [(lit "intent", JString (lit "PURCHASE"))])
           eq_refl eq_refl eq_refl eq_refl eq_refl eq_refl eq_refl eq_refl eq_refl).
Defined.

(* ================================================================== *)
(** * The other routes *)
(* ================================================================== *)

(** ** Validation and the outcomes of the other routes *)

Section RouteOutcomes.
Context {host : Host} {collaborators : Collaborators}.

Lemma required_some (x : option jsstring) (s : jsstring) :
  required x = Some s -> field_truthy x = true.
Proof.
  unfold required, field_truthy. destruct x as [t|]; [|discriminate].
  now destruct (string_truthy t).
Qed.

Lemma field_truthy_some (x : option jsstring) :
  field_truthy x = true -> exists s, x = Some s /\ s <> [].
Proof.
  unfold field_truthy. destruct x as [s|]; [|discriminate].
  intros H. exists s. split; [reflexivity|]. intros ->. discriminate H.
Qed.

(** A validated body has a user and a product. *)
Lemma validated_has_user_and_product (body : GeneratePacketRequest.t) :
  field_truthy (product_field body Product.id) = true ->
  field_truthy (user_field body User.name) = true ->
  exists user product,
    GeneratePacketRequest.user body = Some user
    /\ GeneratePacketRequest.product body = Some product.
Proof.
  unfold product_field, user_field.
  destruct (GeneratePacketRequest.product body) as [p|]; [|discriminate].
  destruct (GeneratePacketRequest.user body) as [u|]; [|discriminate].
  intros _ _. now exists u, p.
Qed.

Lemma generateApplePass_complete (userProfile : UserProfile.t)
    (passJson : PassTemplate.t) (icon : bytes) (count : number)
    (cert key : jsstring) :
  loadPassAssets = Ok (passJson, icon) ->
  UserProfile.productCount userProfile = Some count ->
  process_env (lit "PASSKIT_CERT") = Some cert -> cert <> [] ->
  process_env (lit "PASSKIT_KEY") = Some key -> key <> [] ->
  exists customizedPassJson,
    customizePass passJson userProfile = Ok customizedPassJson
    /\ let certificates :=
         {| signerCert := Buffer_from_base64 cert;
            signerKey := Buffer_from_base64 key;
            signerKeyPassphrase :=
              or_default (process_env (lit "PASSKIT_KEY_PASSPHRASE")) [];
            wwdr := match process_env (lit "WWDR_CERT") with
                    | Some w => if string_truthy w then Buffer_from_base64 w else []
                    | None => []
                    end |} in
       generateApplePass_logged userProfile
       = match PKPass_getAsBuffer icon certificates customizedPassJson with
         | Ok passBytes =>
             ([LoadedAssets; ComposedPass customizedPassJson; ReadCredentials;
               CheckedCredentials; BuiltPass], Ok passBytes)
         | Throw e =>
             ([LoadedAssets; ComposedPass customizedPassJson; ReadCredentials;
               CheckedCredentials], Throw e)
         end.
Proof.
  intros Hl Hc Hcert Hcne Hkey Hkne.
  unfold generateApplePass_logged. rewrite Hl. cbn [statement log_bind fst snd].
  unfold customizePass at 1 2. rewrite Hc. cbn [number_toString_opt bind].
  eexists. split; [reflexivity|]. cbv zeta.
  cbn [statement log_bind].
  unfold check_credentials, read_credentials.
  cbn [passkitCert passkitKey passkitKeyPassphrase wwdrCert].
  rewrite Hcert, Hkey.
  destruct cert as [|c0 cert]; [congruence|].
  destruct key as [|k0 key]; [congruence|].
  cbn [string_truthy negb orb statement log_bind].
  assert (Hw : (if string_truthy (or_default (process_env (lit "WWDR_CERT")) [])
                then Buffer_from_base64 (or_default (process_env (lit "WWDR_CERT")) [])
                else [])
               = match process_env (lit "WWDR_CERT") with
                 | Some w => if string_truthy w then Buffer_from_base64 w else []
                 | None => []
                 end).
  { unfold or_default. destruct (process_env (lit "WWDR_CERT")) as [w|]; [|reflexivity].
    destruct (string_truthy w) eqn:E; [now rewrite E | reflexivity]. }
  rewrite Hw.
  destruct (PKPass_getAsBuffer _ _ _); reflexivity.
Qed.

End RouteOutcomes.

(** X5.  In each route the test of the required fields comes before any
    other work of the [try] block: an authorized request whose body lacks
    a required field (absent or empty; for the months, absent or zero) is
    answered with the route's status-400 message, whatever the model, the
    document, pass and calendar libraries would do and whatever else is
    configured. *)
Theorem validation_precedes_processing
    (host : Host) (collaborators : Collaborators) :
  (forall (c : Context EmailContent.t) (body : EmailContent.t),
      checkAuth c = Ok None -> req_json c = Ok body ->
      field_truthy (EmailContent.to body) = false
      \/ field_truthy (EmailContent.from body) = false
      \/ field_truthy (EmailContent.subject body) = false
      \/ field_truthy (EmailContent.text body) = false ->
      email_parser c = Ok (json_error (lit "Missing required email fields") 400))
  /\ (forall (c : Context GeneratePacketRequest.t) (body : GeneratePacketRequest.t),
      checkAuth c = Ok None -> req_json c = Ok body ->
      field_truthy (product_field body Product.id) = false
      \/ field_truthy (product_field body Product.name) = false
      \/ field_truthy (GeneratePacketRequest.problemDescription body) = false
      \/ field_truthy (user_field body User.name) = false
      \/ field_truthy (user_field body User.email) = false ->
      pdf_generator c = Ok (json_error (lit "Missing required fields") 400))
  /\ (forall (c : Context UserProfile.t) (body : UserProfile.t),
      checkAuth c = Ok None -> req_json c = Ok body ->
      field_truthy (UserProfile.id body) = false
      \/ field_truthy (UserProfile.email body) = false ->
      pass_generator c = Ok (json_error (lit "Missing required user fields") 400))
  /\ (forall (c : Context CalendarProduct.t) (body : CalendarProduct.t),
      checkAuth c = Ok None -> req_json c = Ok body ->
      field_truthy (CalendarProduct.id body) = false
      \/ field_truthy (CalendarProduct.product_name body) = false
      \/ field_truthy (CalendarProduct.purchase_date body) = false
      \/ opt_number_truthy (CalendarProduct.warranty_length_months body) = false ->
      calendar_generator c
      = Ok (json_error (lit "Missing required product fields") 400)).
Proof.
  split; [|split; [|split]]; intros c body Ha Hb Hmiss.
  - unfold email_parser. rewrite (@route_authorized host _ _ _ _ Ha).
    unfold email_parser_try. rewrite Hb. cbn [bind].
    destruct (required (EmailContent.to body)) eqn:E1; [|reflexivity].
    destruct (required (EmailContent.from body)) eqn:E2; [|reflexivity].
    destruct (required (EmailContent.subject body)) eqn:E3; [|reflexivity].
    destruct (required (EmailContent.text body)) eqn:E4; [|reflexivity].
    apply required_some in E1, E2, E3, E4.
    destruct Hmiss as [H|[H|[H|H]]]; congruence.
  - unfold pdf_generator. rewrite (@route_authorized host _ _ _ _ Ha).
    unfold pdf_generator_try. rewrite Hb. cbn [bind].
    destruct Hmiss as [H|[H|[H|[H|H]]]]; rewrite H; cbn [negb orb];
      rewrite ?orb_true_r; reflexivity.
  - unfold pass_generator. rewrite (@route_authorized host _ _ _ _ Ha).
    unfold pass_generator_try. rewrite Hb. cbn [bind].
    destruct Hmiss as [H|H]; rewrite H; cbn [negb orb];
      rewrite ?orb_true_r; reflexivity.
  - unfold calendar_generator. rewrite (@route_authorized host _ _ _ _ Ha).
    unfold calendar_generator_try. rewrite Hb. cbn [bind].
    destruct (required (CalendarProduct.id body)) eqn:E1; [|reflexivity].
    destruct (required (CalendarProduct.product_name body)) eqn:E2; [|reflexivity].
    destruct (required (CalendarProduct.purchase_date body)) eqn:E3; [|reflexivity].
    apply required_some in E1, E2, E3.
    destruct (CalendarProduct.warranty_length_months body) as [m|]; [|reflexivity].
    destruct Hmiss as [H|[H|[H|H]]]; try congruence.
    simpl in H. now rewrite H.
Qed.

(** A claim-packet request with no requester email. *)
Lemma validation_precedes_processing_witness :
  @pdf_generator utc_host example_collaborators (authorized unsigned_request)
  = Ok (json_error (lit "Missing required fields") 400).
Proof.
  exact (proj1 (proj2 (validation_precedes_processing utc_host example_collaborators))
           (authorized unsigned_request) unsigned_request eq_refl eq_refl
           (or_intror (or_intror (or_intror (or_intror eq_refl))))).
Defined.

(** X6.  For an authorized claim-packet request that passes the validation,
    the answer is the saved document with content type application/pdf
    when the drawing of the page and the saving both return, and "Failed to
    generate PDF" (500) when either throws.  A validated request has a user
    and a product, so the page is drawn whenever the library measures and
    draws every text; a text that the font cannot encode makes the drawing
    throw, and the answer is the 500. *)
Theorem pdf_generator_outcome
    (host : Host) (collaborators : Collaborators)
    (c : Context GeneratePacketRequest.t) (body : GeneratePacketRequest.t) :
  checkAuth c = Ok None -> req_json c = Ok body ->
  field_truthy (product_field body Product.id) = true ->
  field_truthy (product_field body Product.name) = true ->
  field_truthy (GeneratePacketRequest.problemDescription body) = true ->
  field_truthy (user_field body User.name) = true ->
  field_truthy (user_field body User.email) = true ->
  pdf_generator c
  = Ok (match claimPacketPage body with
        | Ok drawn =>
            match PDFDocument_save drawn with
            | Ok pdfBytes => BodyResponse pdfBytes (lit "application/pdf")
            | Throw _ => json_error (lit "Failed to generate PDF") 500
            end
        | Throw _ => json_error (lit "Failed to generate PDF") 500
        end)
  /\ (accepts_every_text -> exists drawn, claimPacketPage body = Ok drawn).
Proof.
  intros Ha Hb H1 H2 H3 H4 H5. split.
  - unfold pdf_generator. rewrite (@route_authorized host _ _ _ _ Ha).
    unfold pdf_generator_try. rewrite Hb. cbn [bind].
    rewrite H1, H2, H3, H4, H5. cbn [negb orb].
    unfold generateWarrantyClaimPacket.
    destruct (claimPacketPage body) as [drawn|e]; [|reflexivity].
    cbn [bind]. now destruct (PDFDocument_save drawn).
  - intros Hacc.
    destruct (validated_has_user_and_product body H1 H4)
      as (user & product & Hu & Hp).
    exact (@claimPacketPage_accepted host collaborators Hacc body user product
             Hu Hp).
Qed.

(** The example request is answered with the document; a product named
    with the character U+738B, on a library that cannot encode it, is
    answered with the 500. *)
Lemma pdf_generator_outcome_witness :
  @pdf_generator utc_host example_collaborators (authorized marked_request)
  = Ok (BodyResponse (lit "%PDF") (lit "application/pdf"))
  /\ @pdf_generator utc_host strict_collaborators (authorized unencodable_request)
     = Ok (json_error (lit "Failed to generate PDF") 500).
Proof.
  split.
  - destruct (pdf_generator_outcome utc_host example_collaborators
                (authorized marked_request) marked_request
                eq_refl eq_refl eq_refl eq_refl eq_refl eq_refl eq_refl)
      as (E & _).
    assert (Hpage : exists drawn,
               @claimPacketPage utc_host example_collaborators marked_request
               = Ok drawn) by (vm_compute; now eexists).
    destruct Hpage as (drawn & Hpage). rewrite Hpage in E. exact E.
  - destruct (pdf_generator_outcome utc_host strict_collaborators
                (authorized unencodable_request) unencodable_request
                eq_refl eq_refl eq_refl eq_refl eq_refl eq_refl eq_refl)
      as (E & _).
    assert (Hpage : @claimPacketPage utc_host strict_collaborators
                      unencodable_request = Throw (ExternalFailure 1))
      by (vm_compute; reflexivity).
    rewrite Hpage in E. exact E.
Defined.

(** X7.  A pass request whose body has [id] and [email] but no
    [productCount] passes the validation and then fails while the pass is
    composed ([productCount.toString()] on undefined): the answer is
    "Failed to generate pass" (500), with or without credentials. *)
Theorem pass_without_count_fails
    (host : Host) (collaborators : Collaborators)
    (c : Context UserProfile.t) (body : UserProfile.t) :
  checkAuth c = Ok None -> req_json c = Ok body ->
  field_truthy (UserProfile.id body) = true ->
  field_truthy (UserProfile.email body) = true ->
  UserProfile.productCount body = None ->
  (exists e, generateApplePass body = Throw e)
  /\ ~ In CheckedCredentials (fst (generateApplePass_logged body))
  /\ pass_generator c = Ok (json_error (lit "Failed to generate pass") 500).
Proof.
  intros Ha Hb Hid Hemail Hcount.
  assert (Hrun : exists e steps,
             generateApplePass_logged body = (steps, Throw e)
             /\ ~ In CheckedCredentials steps).
  { unfold generateApplePass_logged.
    destruct loadPassAssets as [assets|e].
    - cbn [statement log_bind]. unfold customizePass. rewrite Hcount.
      cbn [number_toString_opt bind statement log_bind].
      exists TypeError, [LoadedAssets]. split; [reflexivity|].
      intros [H|[]]. discriminate H.
    - exists e, []. split; [reflexivity | intros []]. }
  destruct Hrun as (e & steps & Hrun & Hsteps).
  assert (Hgen : generateApplePass body = Throw e)
    by (unfold generateApplePass; now rewrite Hrun).
  split; [now exists e|]. split; [now rewrite Hrun|].
  unfold pass_generator. rewrite (@route_authorized host _ _ _ _ Ha).
  unfold pass_generator_try. rewrite Hb. cbn [bind].
  rewrite Hid, Hemail. cbn [negb orb]. now rewrite Hgen.
Qed.

Lemma pass_without_count_fails_witness :
  @pass_generator utc_host example_collaborators (authorized uncounted_profile)
  = Ok (json_error (lit "Failed to generate pass") 500).
Proof.
  exact (proj2 (proj2 (pass_without_count_fails utc_host example_collaborators
                  (authorized uncounted_profile) uncounted_profile
                  eq_refl eq_refl eq_refl eq_refl eq_refl))).
Defined.

(** X8.  With both credentials configured, a complete profile and the
    template loaded, [generateApplePass] runs its five statements in order
    and hands the pass library the icon, the certificates decoded from the
    environment (an absent or empty WWDR certificate is the empty buffer)
    and the customized pass; the route answers the library's bytes as
    application/vnd.apple.pkpass, or "Failed to generate pass" (500) when
    the library throws. *)
Theorem pass_generator_outcome
    (host : Host) (collaborators : Collaborators)
    (c : Context UserProfile.t) (body : UserProfile.t)
    (passJson : PassTemplate.t) (icon : bytes) (count : number)
    (cert key : jsstring) :
  checkAuth c = Ok None -> req_json c = Ok body ->
  field_truthy (UserProfile.id body) = true ->
  field_truthy (UserProfile.email body) = true ->
  loadPassAssets = Ok (passJson, icon) ->
  UserProfile.productCount body = Some count ->
  process_env (lit "PASSKIT_CERT") = Some cert -> cert <> [] ->
  process_env (lit "PASSKIT_KEY") = Some key -> key <> [] ->
  exists customizedPassJson,
    customizePass passJson body = Ok customizedPassJson
    /\ let certificates :=
         {| signerCert := Buffer_from_base64 cert;
            signerKey := Buffer_from_base64 key;
            signerKeyPassphrase :=
              or_default (process_env (lit "PASSKIT_KEY_PASSPHRASE")) [];
            wwdr := match process_env (lit "WWDR_CERT") with
                    | Some w => if string_truthy w then Buffer_from_base64 w else []
                    | None => []
                    end |} in
       generateApplePass body
       = PKPass_getAsBuffer icon certificates customizedPassJson
       /\ pass_generator c
          = Ok (match PKPass_getAsBuffer icon certificates customizedPassJson with
                | Ok passBytes =>
                    BodyResponse passBytes (lit "application/vnd.apple.pkpass")
                | Throw _ => json_error (lit "Failed to generate pass") 500
                end).
Proof.
  intros Ha Hb Hid Hemail Hl Hc Hcert Hcne Hkey Hkne.
  destruct (@generateApplePass_complete host collaborators body passJson icon
              count cert key Hl Hc Hcert Hcne Hkey Hkne)
    as (json & Hjson & Hrun).
  exists json. split; [exact Hjson|]. cbv zeta in *.
  set (certs := {| signerCert := _ |}) in *.
  assert (Hgen : generateApplePass body = PKPass_getAsBuffer icon certs json).
  { unfold generateApplePass. rewrite Hrun.
    now destruct (PKPass_getAsBuffer icon certs json). }
  split; [exact Hgen|].
  unfold pass_generator. rewrite (@route_authorized host _ _ _ _ Ha).
  unfold pass_generator_try. rewrite Hb. cbn [bind].
  rewrite Hid, Hemail. cbn [negb orb]. rewrite Hgen.
  now destruct (PKPass_getAsBuffer icon certs json).
Qed.

Lemma pass_generator_outcome_witness :
  @pass_generator utc_host example_collaborators (authorized example_profile)
  = Ok (BodyResponse (lit "PK") (lit "application/vnd.apple.pkpass")).
Proof.
  edestruct (pass_generator_outcome utc_host example_collaborators
               (authorized example_profile) example_profile)
    as (json & _ & _ & E);
    [ reflexivity | reflexivity | reflexivity | reflexivity
    | vm_compute; reflexivity | reflexivity
    | reflexivity | discriminate | reflexivity | discriminate | exact E ].
Defined.

(* ================================================================== *)
(** * Status updates, the pass and the settings *)
(* ================================================================== *)

(** ** The status extractor at the route, the pass fields, the settings *)

(** X9.  An email classified as RETURN or SHIPMENT_UPDATE is answered from
    the status extractor alone: status 200 with the parsed object itself as
    [data] when the model's output is JSON with non-empty [order_id] and
    [status], and "Failed to extract data from email" (500) in every other
    case; unlike a purchase, there is no degraded record. *)
Theorem status_update_is_answered_or_fails
    (host : Host) (collaborators : Collaborators)
    (c : Context EmailContent.t) (body : EmailContent.t)
    (recipient sender subject text apikey label : jsstring) (intentResult : JSON) :
  checkAuth c = Ok None ->
  req_json c = Ok body ->
  required (EmailContent.to body) = Some recipient ->
  required (EmailContent.from body) = Some sender ->
  required (EmailContent.subject body) = Some subject ->
  required (EmailContent.text body) = Some text ->
  getRequiredEnvVar (lit "OPENAI_API_KEY") = Ok apikey ->
  classifyEmailIntent {| apiKey := apikey |} subject text = Some intentResult ->
  getProp intentResult (lit "intent") = Ok (Some (JString label)) ->
  label = lit "RETURN" \/ label = lit "SHIPMENT_UPDATE" ->
  email_parser c
  = Ok (match outcome_of
                (chat_completions_create {| apiKey := apikey |}
                   (completion_request STATUS_UPDATE_PARSING_PROMPT subject text 300))
        with
        | Parsed v =>
            if has_field v (lit "order_id") && has_field v (lit "status")
            then JsonResponse
                   (JObject [(lit "intent", JString label); (lit "data", v)]) 200
            else json_error (lit "Failed to extract data from email") 500
        | _ => json_error (lit "Failed to extract data from email") 500
        end).
Proof.
  intros Ha Hb Hto Hfrom Hs Ht Hk Hc Hi Hl.
  unfold email_parser. rewrite (@route_authorized host _ _ _ _ Ha).
  unfold email_parser_try. rewrite Hb. cbn [bind].
  rewrite Hto, Hfrom, Hs, Ht, Hk. cbn [bind]. rewrite Hc, Hi. cbn [bind].
  rewrite (@parseStatusUpdateWithAI_cases host collaborators).
  assert (Hsel : strict_equals_string (Some (JString label)) (lit "PURCHASE") = false
                 /\ strict_equals_string (Some (JString label)) (lit "RETURN")
                    || strict_equals_string (Some (JString label)) (lit "SHIPMENT_UPDATE")
                    = true)
    by (destruct Hl as [-> | ->]; split; reflexivity).
  destruct Hsel as [-> ->]. cbn [try_catch].
  destruct (outcome_of _) as [| | |v]; try reflexivity.
  now destruct (has_field v (lit "order_id") && has_field v (lit "status")).
Qed.

(** A deployment whose model labels every email a return: the object it
    answers has no [order_id], so the route fails. *)
Lemma status_update_is_answered_or_fails_witness :
  @email_parser (classifying_host "RETURN") (labelling_collaborators "RETURN")
    (authorized example_email)
  = Ok (json_error (lit "Failed to extract data from email") 500).
Proof.
  exact (status_update_is_answered_or_fails (classifying_host "RETURN")
           (labelling_collaborators "RETURN")
           (authorized example_email) example_email
           (lit "vault@claimso.com") (lit "shop@example.com") (lit "Your order")
           (lit "Thank you for your purchase.") (lit "sk-test") (lit "RETURN")
           (JObject [(lit "intent", JString (lit "RETURN"))])
           eq_refl eq_refl eq_refl eq_refl eq_refl eq_refl eq_refl eq_refl eq_refl
           (or_introl eq_refl)).
Defined.

Section PassFields.
Context {host : Host} {collaborators : Collaborators}.

Lemma is_products_spec (field : PassField.t) :
  is_products field = true <-> PassField.key field = lit "products".
Proof. unfold is_products. apply jsstring_eqb_eq. Qed.

Lemma filter_filter_negb {A} (p : A -> bool) (l : list A) :
  filter p (filter (fun x => negb (p x)) l) = [].
Proof.
  induction l as [|a l IH]; [reflexivity|]. simpl.
  destruct (p a) eqn:E; simpl; [exact IH|]. now rewrite E.
Qed.

(** The secondary fields of the template that [loadPassAssets] returns. *)
Lemma loadPassAssets_secondaryFields (passJson : PassTemplate.t) (icon : bytes) :
  loadPassAssets = Ok (passJson, icon) ->
  PassGeneric.secondaryFields (PassTemplate.generic passJson)
  = [ {| PassField.key := lit "status";
         PassField.label := lit "Status";
         PassField.value := lit "Active" |};
      products_field (lit "Loading...") ].
Proof.
  unfold loadPassAssets.
  destruct (toISOString (TimeClip (Date_now 1 + msPerYear))) as [r|e];
    [|discriminate].
  cbn [bind].
  destruct (toISOString (TimeClip (Date_now 2 + 2 * msPerYear))) as [x|e];
    [|discriminate].
  cbn [bind]. intros [= <- _]. reflexivity.
Qed.

End PassFields.

(** X10.  The customized pass has exactly one field with the key
    [products]: it is the last of the secondary fields and carries the
    product count as a decimal string; the template's other secondary
    fields are kept, in their order, and a [products] field of the template
    is dropped.  The pass is composed only for a profile with a product
    count.  With the template of [loadPassAssets] the secondary fields are
    the status and the count. *)
Theorem customizePass_replaces_products
    (host : Host) (passJson : PassTemplate.t) (userProfile : UserProfile.t)
    (customized : PassTemplate.t) :
  customizePass passJson userProfile = Ok customized ->
  let before := PassGeneric.secondaryFields (PassTemplate.generic passJson) in
  let after := PassGeneric.secondaryFields (PassTemplate.generic customized) in
  exists count,
    UserProfile.productCount userProfile = Some count
    /\ after = filter (fun field => negb (is_products field)) before
               ++ [products_field (Number_toString count)]
    /\ filter is_products after = [products_field (Number_toString count)]
    /\ (forall field, In field before ->
          PassField.key field <> lit "products" -> In field after)
    /\ (forall icon, loadPassAssets = Ok (passJson, icon) ->
          after = [ {| PassField.key := lit "status";
                       PassField.label := lit "Status";
                       PassField.value := lit "Active" |};
                    products_field (Number_toString count) ]).
Proof.
  unfold customizePass. cbv zeta.
  destruct (UserProfile.productCount userProfile) as [count|]; [|discriminate].
  cbn [number_toString_opt bind]. intros [= <-].
  cbn [PassTemplate.generic PassGeneric.secondaryFields].
  exists count. split; [reflexivity|].
  fold is_products. split; [reflexivity|]. split; [|split].
  - rewrite filter_app.
    rewrite (filter_filter_negb is_products). reflexivity.
  - intros field Hin Hkey. apply in_or_app. left. apply filter_In.
    split; [exact Hin|]. apply negb_true_iff.
    change (is_products field = false).
    destruct (is_products field) eqn:E; [|reflexivity].
    now apply is_products_spec in E.
  - intros icon Hload.
    now rewrite (@loadPassAssets_secondaryFields host passJson icon Hload).
Qed.

(** The template of the example deployment and the example profile. *)
Lemma customizePass_replaces_products_witness :
  match @loadPassAssets utc_host with
  | Ok (passJson, _) =>
      match @customizePass utc_host passJson example_profile with
      | Ok customized =>
          filter is_products
            (PassGeneric.secondaryFields (PassTemplate.generic customized))
          = [products_field (lit "3")]
      | Throw _ => False
      end
  | Throw _ => False
  end.
Proof.
  destruct (@loadPassAssets utc_host) as [[passJson icon]|e] eqn:El;
    [|discriminate El].
  destruct (@customizePass utc_host passJson example_profile) as [customized|e]
    eqn:Ec; [|discriminate Ec].
  destruct (customizePass_replaces_products utc_host passJson example_profile
              customized Ec) as (count & Hcount & _ & Hone & _).
  injection Hcount as <-. exact Hone.
Defined.

(** X11.  A setting that is absent or empty counts as missing for both
    readers: [getRequiredEnvVar] returns the value exactly when the variable
    is set to a non-empty string and otherwise throws the error naming the
    variable, and [getOptionalEnvVar] gives the value where the other
    returns it and the default where the other throws. *)
Theorem environment_readers_agree (host : Host) (key defaultValue : jsstring) :
  (forall value,
      getRequiredEnvVar key = Ok value
      <-> process_env key = Some value /\ value <> [])
  /\ ((process_env key = None \/ process_env key = Some [])
      <-> getRequiredEnvVar key
          = Throw (Error (lit "Missing required environment variable: " ++ key)))
  /\ getOptionalEnvVar key defaultValue
     = match getRequiredEnvVar key with
       | Ok value => value
       | Throw _ => defaultValue
       end.
Proof.
  unfold getRequiredEnvVar, getOptionalEnvVar.
  destruct (process_env key) as [[|ch value]|]; cbn [string_truthy negb].
  - split; [|split; [|reflexivity]].
    + intros value. split; [discriminate | intros [[= <-] H]; congruence].
    + split; [reflexivity | now right].
  - split; [|split; [|reflexivity]].
    + intros v. split; [intros [= <-]; split; [reflexivity | discriminate]
                       | now intros [[= <-] _]].
    + split; [intros [H|H]; discriminate H | discriminate].
  - split; [|split; [|reflexivity]].
    + intros value. split; [discriminate | intros [H _]; discriminate H].
    + split; [reflexivity | now left].
Qed.

(** X12.  A calendar request that passes the validation is never rejected
    for its purchase date: the event is built and handed to the calendar
    library, and the answer is the library's text as text/calendar, or
    "Failed to generate calendar event" (500) when the library reports an
    error or gives no text.  When the purchase date is no date, or the
    months are not finite, the event carries no start date. *)
Theorem calendar_generator_outcome
    (host : Host) (collaborators : Collaborators)
    (c : Context CalendarProduct.t) (body : CalendarProduct.t)
    (id product_name purchase_date : jsstring) (months : number) :
  checkAuth c = Ok None -> req_json c = Ok body ->
  required (CalendarProduct.id body) = Some id ->
  required (CalendarProduct.product_name body) = Some product_name ->
  required (CalendarProduct.purchase_date body) = Some purchase_date ->
  CalendarProduct.warranty_length_months body = Some months ->
  number_truthy months = true ->
  let event := warranty_event product_name purchase_date months in
  calendar_generator c
  = Ok (match ics_error (createEvent event), ics_value (createEvent event) with
        | None, Some icsContent =>
            if string_truthy icsContent
            then TextResponse icsContent (lit "text/calendar")
            else json_error (lit "Failed to generate calendar event") 500
        | _, _ => json_error (lit "Failed to generate calendar event") 500
        end)
  /\ (Date_of_string purchase_date = None -> Event.start event = None)
  /\ (forall tv, Date_of_string purchase_date = Some tv ->
        finite_integer
          (PrimFloat.add (Number_of_Z (MonthFromTime (LocalTime tv))) months) = None ->
        Event.start event = None).
Proof.
  intros Ha Hb Hid Hname Hdate Hmonths Htruthy. cbv zeta. split; [|split].
  - unfold calendar_generator. rewrite (@route_authorized host _ _ _ _ Ha).
    unfold calendar_generator_try. rewrite Hb. cbn [bind].
    rewrite Hid, Hname, Hdate, Hmonths, Htruthy. cbn [negb].
    destruct (ics_error _); [reflexivity|].
    destruct (ics_value _) as [content|]; [|reflexivity].
    now destruct (string_truthy content).
  - intros Hnone. unfold warranty_event, expirationDate_of, Date_of_Date.
    cbn [Event.start]. now rewrite Hnone.
  - intros tv Hsome Hinf. unfold warranty_event, expirationDate_of, Date_of_Date.
    cbn [Event.start]. rewrite Hsome. unfold setMonth, getMonth.
    now rewrite Hinf.
Qed.

Lemma calendar_generator_outcome_witness :
  @calendar_generator utc_host example_collaborators
    (authorized (calendar_body "not a date" 12%float))
  = Ok (TextResponse (lit "BEGIN:VCALENDAR") (lit "text/calendar"))
  /\ Event.start (@warranty_event utc_host (lit "Kettle") (lit "not a date") 12%float)
     = None.
Proof.
  destruct (calendar_generator_outcome utc_host example_collaborators
              (authorized (calendar_body "not a date" 12%float))
              (calendar_body "not a date" 12%float)
              (lit "p1") (lit "Kettle") (lit "not a date") 12%float
              eq_refl eq_refl eq_refl eq_refl eq_refl eq_refl eq_refl)
    as (E & Hnone & _).
  split; [exact E | exact (Hnone eq_refl)].
Defined.

(* ================================================================== *)
(** * The sanitizer, further *)
(* ================================================================== *)

(** ** More on the sanitizer *)

Lemma drop_while_idempotent (p : char -> bool) (s : jsstring) :
  drop_while p (drop_while p s) = drop_while p s.
Proof.
  induction s as [|c s IH]; [reflexivity|]. simpl.
  destruct (p c) eqn:E; [exact IH|]. simpl. now rewrite E.
Qed.

Lemma trimEnd_idempotent (s : jsstring) : trimEnd (trimEnd s) = trimEnd s.
Proof.
  unfold trimEnd. now rewrite rev_involutive, drop_while_idempotent.
Qed.

(** Sanitizing a string that has the shape of a sanitized one only strips
    the whitespace at its end. *)
Lemma sanitizeText_of_shape (r : jsstring) :
  Forall clean_char r -> single_spaced r -> starts_solid r -> length r <= 1000 ->
  sanitizeText r = trimEnd r.
Proof.
  intros HF HS HH HL. unfold sanitizeText.
  destruct r as [|c r'] eqn:Er; [reflexivity|].
  cbn [string_truthy negb]. rewrite <- Er in *. clear Er c r'.
  rewrite (replace_class_clean class_control)
    by (eapply Forall_impl; [|exact HF]; now intros a (? & _)).
  rewrite (replace_class_clean class_markup)
    by (eapply Forall_impl; [|exact HF]; now intros a (_ & ? & _)).
  unfold replace_class_plus. change (lit " ") with [char_space].
  rewrite collapse_fixed by assumption.
  unfold trim. rewrite trimStart_solid by assumption.
  rewrite substring_0. apply firstn_all2.
  pose proof (trimEnd_length r). lia.
Qed.

Lemma trimEnd_shape (r : jsstring) :
  Forall clean_char r -> single_spaced r -> starts_solid r -> length r <= 1000 ->
  sanitized (trimEnd r).
Proof.
  intros HF HS HH HL.
  assert (HF' : Forall clean_char (trimEnd r))
    by (eapply infix_Forall; [apply infix_trimEnd | exact HF]).
  repeat split.
  - exact HF'.
  - eapply infix_single_spaced; [apply infix_trimEnd | exact HS].
  - destruct (trimEnd_prefix r) as (q & E). rewrite E in HH.
    now apply starts_solid_prefix in HH.
  - apply trimEnd_fixed_iff; [exact HF' | apply trimEnd_idempotent].
  - pose proof (trimEnd_length r). lia.
Qed.

Lemma filter_solid_replace (cls : char -> bool) (s : jsstring) :
  filter solid (replace_class cls [] s)
  = filter (fun c => solid c && negb (cls c)) s.
Proof.
  unfold replace_class. induction s as [|c s IH]; [reflexivity|].
  simpl. destruct (cls c); simpl.
  - rewrite andb_false_r. exact IH.
  - rewrite andb_true_r. destruct (solid c); now rewrite IH.
Qed.

Lemma filter_solid_collapse (b : bool) (s : jsstring) :
  filter solid (replace_class_plus_from is_whitespace [char_space] b s)
  = filter solid s.
Proof.
  revert b. induction s as [|c s IH]; intros b; [reflexivity|].
  simpl. assert (Hs : solid c = negb (is_whitespace c)) by reflexivity.
  destruct (is_whitespace c) eqn:E; simpl; rewrite Hs; simpl.
  - rewrite filter_app, IH. now destruct b.
  - now rewrite IH.
Qed.

Lemma filter_solid_drop_while (s : jsstring) :
  filter solid (drop_while is_whitespace s) = filter solid s.
Proof.
  induction s as [|c s IH]; [reflexivity|]. simpl.
  assert (Hs : solid c = negb (is_whitespace c)) by reflexivity.
  destruct (is_whitespace c); simpl; rewrite Hs; simpl; [exact IH | reflexivity].
Qed.

Lemma filter_rev_list {A} (f : A -> bool) (l : list A) :
  filter f (rev l) = rev (filter f l).
Proof.
  induction l as [|a l IH]; [reflexivity|]. simpl.
  rewrite filter_app, IH. simpl. destruct (f a); simpl; [reflexivity|].
  now rewrite app_nil_r.
Qed.

Lemma filter_solid_trim (s : jsstring) : filter solid (trim s) = filter solid s.
Proof.
  unfold trim, trimEnd, trimStart.
  now rewrite filter_rev_list, filter_solid_drop_while, <- filter_rev_list,
    rev_involutive, filter_solid_drop_while.
Qed.

Lemma filter_filter_and {A} (f g : A -> bool) (l : list A) :
  filter f (filter g l) = filter (fun x => g x && f x) l.
Proof.
  induction l as [|a l IH]; [reflexivity|]. simpl.
  destruct (g a); simpl; [|exact IH]. destruct (f a); now rewrite IH.
Qed.

Lemma collapse_length (b : bool) (s : jsstring) :
  length (replace_class_plus_from is_whitespace [char_space] b s) <= length s.
Proof.
  revert b. induction s as [|c s IH]; intros b; simpl; [lia|].
  destruct (is_whitespace c).
  - rewrite length_app. specialize (IH true). destruct b; simpl; lia.
  - simpl. specialize (IH false). lia.
Qed.

Lemma drop_while_length (p : char -> bool) (s : jsstring) :
  length (drop_while p s) <= length s.
Proof.
  induction s as [|c s IH]; simpl; [lia|]. destruct (p c); simpl; lia.
Qed.

(** The cleaned text before the truncation. *)
Lemma sanitizeText_before_truncation (s : jsstring) :
  exists t,
    sanitizeText s = firstn 1000 t
    /\ filter solid t = filter visible s
    /\ length t <= length s
    /\ trimEnd t = t.
Proof.
  unfold sanitizeText. destruct s as [|c0 s0] eqn:Es.
  - exists []. repeat split; simpl; lia.
  - cbn [string_truthy negb]. rewrite <- Es. clear Es c0 s0.
    rewrite substring_0. eexists. split; [reflexivity|]. split; [|split].
    + rewrite filter_solid_trim. unfold replace_class_plus.
      change (lit " ") with [char_space]. rewrite filter_solid_collapse.
      rewrite filter_solid_replace, replace_class_filter, filter_filter_and.
      apply filter_ext. intros c. unfold visible, solid.
      destruct (is_whitespace c), (class_control c), (class_markup c); reflexivity.
    + unfold trim. etransitivity; [apply trimEnd_length|].
      unfold trimStart. etransitivity; [apply drop_while_length|].
      unfold replace_class_plus. change (lit " ") with [char_space].
      etransitivity; [apply collapse_length|].
      rewrite !replace_class_filter.
      etransitivity; [apply filter_length_le|]. apply filter_length_le.
    + unfold trim. apply trimEnd_idempotent.
Qed.

(** X13.  The strings that [sanitizeText] returns unchanged are exactly the
    ones of the sanitized shape: no control character of the class, no
    delimiter, no whitespace but single spaces between words, and at most
    1000 code units. *)
Theorem sanitizeText_fixes_exactly_the_sanitized (s : jsstring) :
  sanitizeText s = s <-> sanitized s.
Proof.
  split.
  - intros E.
    destruct (sanitizeText_shape s) as (HF & HS & HH & HL).
    rewrite E in HF, HS, HH, HL.
    repeat split; trivial.
    apply trimEnd_fixed_iff; [exact HF|].
    now rewrite <- (sanitizeText_of_shape s HF HS HH HL).
  - intros (HF & HS & HH & HE & HL).
    rewrite (sanitizeText_of_shape s HF HS HH HL).
    now apply trimEnd_fixed_iff.
Qed.

(** X14.  The sanitizer settles after two applications, and after one when
    its result is shorter than the limit of 1000 code units: only a result
    cut at the limit can change when sanitized again, and then it only
    gets shorter. *)
Theorem sanitizeText_settles (s : jsstring) :
  sanitizeText (sanitizeText (sanitizeText s)) = sanitizeText (sanitizeText s)
  /\ sanitized (sanitizeText (sanitizeText s))
  /\ (length (sanitizeText s) < 1000 ->
      sanitizeText (sanitizeText s) = sanitizeText s)
  /\ length (sanitizeText (sanitizeText s)) <= length (sanitizeText s).
Proof.
  destruct (sanitizeText_shape s) as (HF & HS & HH & HL).
  rewrite (sanitizeText_twice s).
  pose proof (trimEnd_shape _ HF HS HH HL) as Hshape.
  split; [|split; [|split]].
  - destruct Hshape as (HF' & HS' & HH' & HE' & HL').
    rewrite (sanitizeText_of_shape _ HF' HS' HH' HL').
    apply trimEnd_idempotent.
  - exact Hshape.
  - intros Hlt.
    destruct (sanitizeText_before_truncation s) as (t & Et & _ & _ & Htrim).
    assert (Hall : firstn 1000 t = t).
    { apply firstn_all2. rewrite Et in Hlt.
      destruct (Nat.le_gt_cases (length t) 1000) as [H|H]; [exact H|].
      rewrite length_firstn in Hlt. lia. }
    rewrite Et, Hall. exact Htrim.
  - apply trimEnd_length.
Qed.

(** X15.  The sanitizer adds nothing and reorders nothing: its result is no
    longer than the text, and its characters other than whitespace are, in
    their order, the first of the text's characters that are neither
    whitespace nor a control character of the class nor a delimiter; all of
    them, when the result is shorter than the limit. *)
Theorem sanitizeText_keeps_the_visible_characters (s : jsstring) :
  length (sanitizeText s) <= length s
  /\ (exists dropped,
        filter visible s = filter solid (sanitizeText s) ++ dropped
        /\ (length (sanitizeText s) < 1000 -> dropped = [])).
Proof.
  destruct (sanitizeText_before_truncation s) as (t & Et & Hvis & Hlen & _).
  rewrite Et. split.
  - rewrite length_firstn. lia.
  - exists (filter solid (skipn 1000 t)). split.
    + now rewrite <- Hvis, <- filter_app, firstn_skipn.
    + intros Hlt.
      assert (Hall : length t <= 1000).
      { destruct (Nat.le_gt_cases (length t) 1000) as [H|H]; [exact H|].
        rewrite length_firstn in Hlt. lia. }
      now rewrite skipn_all2.
Qed.

(* ================================================================== *)
(** * The layout of the page *)
(* ================================================================== *)

(** ** The layout of the description and of the end of the page *)

Section PageLayout.
Context {host : Host} {collaborators : Collaborators}.
Open Scope Z_scope.

(** No line of the wrap is empty. *)
Lemma wrap_step_nonempty (words : list jsstring) (lines lines' : list jsstring)
    (currentLine currentLine' : jsstring) :
  forEach wrap_step words (lines, currentLine) = Ok (lines', currentLine') ->
  Forall (fun line => line <> []) lines ->
  Forall (fun line => line <> []) lines'.
Proof.
  revert lines currentLine.
  induction words as [|w words IH]; intros lines cur Hloop H.
  - apply Ok_inj in Hloop. now apply pair_equal_spec in Hloop as [<- _].
  - cbn [forEach] in Hloop. apply bind_Ok in Hloop as ([l1 c1] & Estep & Hloop).
    apply (IH _ _ Hloop). unfold wrap_step in Estep.
    apply bind_Ok in Estep as (lineWidth & _ & Estep).
    destruct (exceeds lineWidth) eqn:Ex; cbn [andb] in Estep.
    + destruct cur as [|ch cur]; cbn [string_truthy] in Estep;
        apply Ok_inj in Estep; apply pair_equal_spec in Estep as [<- _];
        [exact H|].
      apply Forall_app. split; [exact H|].
      constructor; [discriminate | constructor].
    + apply Ok_inj in Estep. now apply pair_equal_spec in Estep as [<- _].
Qed.

Lemma wrap_lines_nonempty (text : jsstring) (lines : list jsstring) :
  wrap_lines text = Ok lines -> Forall (fun line => line <> []) lines.
Proof.
  intros H. apply wrap_lines_Ok in H as (flushed & cur & Eloop & ->).
  pose proof (wrap_step_nonempty _ _ _ _ _ Eloop (Forall_nil _)) as Hf.
  unfold flush. destruct cur as [|ch cur]; cbn [string_truthy]; [exact Hf|].
  apply Forall_app. split; [exact Hf|]. constructor; [discriminate | constructor].
Qed.

Lemma lines_from_nth (y : Z) (lines : list jsstring) (i : nat) (line : jsstring) :
  nth_error lines i = Some line ->
  In (DrawText (quoted line) 70 (y - 16 * Z.of_nat i) 11 regularFont
        (Some blackColor))
     (lines_from y lines).
Proof.
  revert y i. induction lines as [|l lines IH]; intros y [|i]; try discriminate.
  - intros [= ->]. left. f_equal. lia.
  - cbn [nth_error]. intros H. right.
    replace (y - 16 * Z.of_nat (S i)) with (y - 16 - 16 * Z.of_nat i) by lia.
    now apply IH.
Qed.

(** The empty description: one measurement, of the empty string. *)
Lemma draw_description_empty (st : layout) (lineWidth : Z) :
  widthOfTextAtSize regularFont [] 11 = Ok lineWidth ->
  draw_description [] st = Ok st.
Proof.
  intros H. unfold draw_description.
  cbn [split forEach]. unfold wrap_word. cbn [string_truthy app].
  rewrite H. cbn [bind]. rewrite andb_false_r. reflexivity.
Qed.

End PageLayout.

(** X16.  The description is drawn exactly when the library measures every
    candidate line and draws every line of the wrap, and then the lines
    are drawn the first at the cursor and each 16 points below the one
    before, and the cursor ends 16 points below the last: the layout
    depends on the text only through the number of its lines.  No line is
    empty, so a description that sanitizes to the empty string draws
    nothing and leaves the cursor. *)
Theorem draw_description_layout
    (collaborators : Collaborators) (text : jsstring) (st : layout) :
  (forall st',
      draw_description text st = Ok st' <->
      exists lines,
        wrap_lines text = Ok lines
        /\ Forall drawable lines
        /\ st' = {| yPosition := (yPosition st - 16 * Z.of_nat (length lines))%Z;
                    page := page st ++ lines_from (yPosition st) lines |})
  /\ (forall lines,
        wrap_lines text = Ok lines ->
        Forall (fun line => line <> []) lines
        /\ forall i line, nth_error lines i = Some line ->
             In (DrawText (quoted line) 70 (yPosition st - 16 * Z.of_nat i) 11
                   regularFont (Some blackColor))
                (lines_from (yPosition st) lines))
  /\ (forall lineWidth,
        widthOfTextAtSize regularFont [] 11 = Ok lineWidth ->
        draw_description [] st = Ok st).
Proof.
  split; [|split].
  - intros st'. apply draw_description_lines.
  - intros lines H. split; [now apply (wrap_lines_nonempty text)|].
    intros i line Hi. now apply lines_from_nth.
  - intros lineWidth. apply draw_description_empty.
Qed.

(** X17.  The page is one page with no test of the cursor: on every page
    that is returned the lines of the description start at the height 312,
    and everything after them is drawn lower by 16 points for each line,
    while the footer stays at the heights 70 and 50.  With more than 11
    lines the last line of the supporting evidence is drawn below the rule
    of the footer, and with more than 20 lines a line of the description is
    drawn below the bottom edge of the page. *)
Theorem description_pushes_the_page_down
    (host : Host) (collaborators : Collaborators)
    (request : GeneratePacketRequest.t) (ops : list draw_op) :
  claimPacketPage request = Ok ops ->
  exists lines,
    wrap_lines (sanitizeText_opt (GeneratePacketRequest.problemDescription request))
    = Ok lines
    /\ let count := Z.of_nat (length lines) in
       (forall i line, nth_error lines i = Some line ->
          In (DrawText (quoted line) 70 (312 - 16 * Z.of_nat i) 11 regularFont
                (Some blackColor)) ops)
       /\ In (DrawText (lit "SUPPORTING EVIDENCE:") 50 (292 - 16 * count) 14
                boldFont (Some blackColor)) ops
       /\ In (DrawText (lit "Additional documentation can be provided as needed.")
                70 (252 - 16 * count) 11 regularFont (Some grayColor)) ops
       /\ In (DrawLine 50 70 562 70 1 grayColor) ops
       /\ In (DrawText (lit "Generated by CLAIMSO") 50 50 10 regularFont
                (Some grayColor)) ops
       /\ (11 < count <-> 252 - 16 * count < 70)%Z
       /\ ((20 < count)%Z ->
           exists line y, In (DrawText (quoted line) 70 y 11 regularFont
                                (Some blackColor)) ops /\ (y < 0)%Z).
Proof.
  intros E.
  destruct (@claimPacketPage_Ok host collaborators request ops E)
    as (user & product & lines & _ & _ & Hw & _ & ->).
  exists lines. split; [exact Hw|]. cbv zeta.
  assert (Hend : forall op,
             In op (page_end (document_id product)
                      (312 - 16 * Z.of_nat (length lines))) ->
             In op (page_start user product ++ lines_from 312 lines
                      ++ page_end (document_id product)
                           (312 - 16 * Z.of_nat (length lines)))).
  { intros op H. apply in_or_app. right. apply in_or_app. now right. }
  assert (Hline : forall i line, nth_error lines i = Some line ->
             In (DrawText (quoted line) 70 (312 - 16 * Z.of_nat i) 11 regularFont
                   (Some blackColor))
                (page_start user product ++ lines_from 312 lines
                   ++ page_end (document_id product)
                        (312 - 16 * Z.of_nat (length lines)))).
  { intros i line H. apply in_or_app. right. apply in_or_app. left.
    now apply lines_from_nth. }
  split; [exact Hline|].
  split.
  { apply Hend. left. f_equal. lia. }
  split.
  { apply Hend. right. right. left. f_equal. lia. }
  split.
  { apply Hend. do 3 right. now left. }
  split.
  { apply Hend. do 4 right. now left. }
  split; [lia|].
  intros Hcount.
  destruct (nth_error lines 20) as [line|] eqn:En.
  - exists line, (312 - 16 * Z.of_nat 20)%Z. split; [now apply Hline | lia].
  - apply nth_error_None in En. lia.
Qed.

(** A description of 22 lines: the last evidence line is drawn at the
    height -100 and the 21st line of the description at the height -8. *)
Lemma description_pushes_the_page_down_witness :
  exists ops,
    @claimPacketPage utc_host example_collaborators long_request = Ok ops
    /\ In (DrawText (lit "Additional documentation can be provided as needed.")
             70 (-100) 11 regularFont (Some grayColor)) ops
    /\ In (DrawText (quoted long_word) 70 (-8) 11 regularFont (Some blackColor)) ops
    /\ In (DrawLine 50 70 562 70 1 grayColor) ops.
Proof.
  destruct (@claimPacketPage utc_host example_collaborators long_request)
    as [ops|e] eqn:E; [|vm_compute in E; discriminate E].
  exists ops. split; [reflexivity|].
  destruct (description_pushes_the_page_down utc_host example_collaborators
              long_request ops E)
    as (lines & Hw & Hlines & _ & Hlast & Hrule & _).
  assert (Hl : lines = repeat long_word 22).
  { vm_compute in Hw. injection Hw as <-. reflexivity. }
  subst lines. split; [exact Hlast|]. split; [|exact Hrule].
  exact (Hlines 20%nat long_word eq_refl).
Defined.

(* ================================================================== *)
(** * The texts of the page *)
(* ================================================================== *)

(** ** What reaches the page unsanitized *)

Section PageTexts.
Context {host : Host} {collaborators : Collaborators}.

Lemma inert_app (a b : jsstring) : inert a -> inert b -> inert (a ++ b).
Proof. unfold inert. intros Ha Hb. now rewrite forallb_app, Ha, Hb. Qed.

Lemma sanitizeText_inert (s : jsstring) : inert (sanitizeText s).
Proof.
  destruct (sanitizeText_shape s) as (HF & _).
  unfold inert. apply forallb_forall. intros c Hc.
  rewrite Forall_forall in HF. destruct (HF c Hc) as (H1 & H2 & _).
  unfold inert_char. now rewrite H1, H2.
Qed.

Lemma sanitizeText_opt_inert (s : option jsstring) : inert (sanitizeText_opt s).
Proof. destruct s; [apply sanitizeText_inert | reflexivity]. Qed.

Lemma split_inert (s : jsstring) :
  inert s -> Forall inert (split char_space s).
Proof.
  induction s as [|c s IH]; intros H.
  - constructor; [reflexivity | constructor].
  - unfold inert in H. cbn [forallb] in H. apply andb_true_iff in H as [Hc Hs].
    specialize (IH Hs). cbn [split].
    destruct (char_eqb c char_space).
    + constructor; [reflexivity | exact IH].
    + destruct (split char_space s) as [|w ws].
      * constructor; [|constructor]. unfold inert. cbn [forallb]. now rewrite Hc.
      * inversion IH as [|? ? Hw Hws]; subst. constructor; [|exact Hws].
        unfold inert. cbn [forallb]. now rewrite Hc.
Qed.

Lemma wrap_step_inert (words : list jsstring) (lines lines' : list jsstring)
    (currentLine currentLine' : jsstring) :
  forEach wrap_step words (lines, currentLine) = Ok (lines', currentLine') ->
  Forall inert words -> Forall inert lines -> inert currentLine ->
  Forall inert lines' /\ inert currentLine'.
Proof.
  intros Hloop Hw. revert lines currentLine Hloop.
  induction Hw as [|w words Hword _ IH]; intros lines cur Hloop Hl Hc.
  - apply Ok_inj in Hloop. apply pair_equal_spec in Hloop as [<- <-]. now split.
  - cbn [forEach] in Hloop. apply bind_Ok in Hloop as ([l1 c1] & Estep & Hloop).
    unfold wrap_step in Estep.
    apply bind_Ok in Estep as (lineWidth & _ & Estep).
    destruct (exceeds lineWidth && string_truthy cur);
      apply Ok_inj in Estep; apply pair_equal_spec in Estep as [<- <-];
      apply (IH _ _ Hloop).
    + apply Forall_app. split; [exact Hl|].
      constructor; [exact Hc | constructor].
    + exact Hword.
    + exact Hl.
    + apply inert_app; [exact Hc|].
      apply inert_app; [|exact Hword]. now destruct (string_truthy cur).
Qed.

Lemma wrap_lines_inert (text : jsstring) (lines : list jsstring) :
  wrap_lines text = Ok lines -> inert text -> Forall inert lines.
Proof.
  intros H Ht. apply wrap_lines_Ok in H as (flushed & cur & Eloop & ->).
  destruct (wrap_step_inert _ _ _ _ _ Eloop (split_inert text Ht) (Forall_nil _)
              eq_refl) as [Hl Hc].
  unfold flush. destruct (string_truthy cur); [|exact Hl].
  apply Forall_app. split; [exact Hl|]. constructor; [exact Hc | constructor].
Qed.

Lemma lines_from_texts (product : Product.t) (y : Z) (lines : list jsstring) :
  Forall inert lines -> Forall (page_text product) (lines_from y lines).
Proof.
  intros H. revert y. induction H as [|l lines Hl _ IH]; intros y; [constructor|].
  cbn [lines_from]. constructor; [|apply IH].
  left. unfold quoted. apply inert_app; [reflexivity|].
  apply inert_app; [exact Hl | reflexivity].
Qed.

Lemma claimPacketPage_texts (request : GeneratePacketRequest.t)
    (product : Product.t) (ops : list draw_op) :
  GeneratePacketRequest.product request = Some product ->
  claimPacketPage request = Ok ops ->
  Forall (page_text product) ops.
Proof.
  intros Hp E.
  destruct (@claimPacketPage_Ok host collaborators request ops E)
    as (user & product' & lines & _ & Hp' & Hw & _ & ->).
  rewrite Hp in Hp'. injection Hp' as <-.
  pose proof (wrap_lines_inert _ _ Hw
                (sanitizeText_opt_inert
                   (GeneratePacketRequest.problemDescription request))) as Hwrap.
  pose proof (sanitizeText_opt_inert (User.name user)) as Hname.
  pose proof (sanitizeText_opt_inert (User.email user)) as Hemail.
  unfold page_start, page_end, productDetails, purchaseInfo, detail_row.
  cbn [rows_from].
  repeat match goal with
         | |- Forall _ (_ ++ _) => apply Forall_app; split
         | |- Forall _ [] => constructor
         | |- Forall _ (lines_from _ _) => apply lines_from_texts, Hwrap
         | |- Forall _ (_ :: _) => constructor
         end;
    try exact I;
    first [ left; first [ apply sanitizeText_inert | assumption ]
          | right; left; reflexivity
          | right; right; left; reflexivity
          | right; right; right; reflexivity
          | left; reflexivity ].
Qed.

End PageTexts.

(** X19.  The complement of what escapes the sanitizer.  Every text drawn
    on the page of a claim packet is free of the delimiters and control
    characters that [sanitizeText] removes, with three exceptions: the
    price text, the document identifier, and the line of the generation
    date, whose date comes from the host and not from the request. *)
Theorem only_price_and_id_bypass_the_sanitizer
    (host : Host) (collaborators : Collaborators)
    (request : GeneratePacketRequest.t) (ops : list draw_op) :
  claimPacketPage request = Ok ops ->
  exists product,
    GeneratePacketRequest.product request = Some product
    /\ forall text x y size font color,
         In (DrawText text x y size font color) ops ->
         inert text
         \/ text = price_text product
         \/ text = document_id product
         \/ text = lit "Generated: " ++ Date_toLocaleDateString (Date_now 0).
Proof.
  intros E.
  destruct (@claimPacketPage_Ok host collaborators request ops E)
    as (user & product & lines & _ & Hp & _).
  exists product. split; [exact Hp|].
  intros text x y size font color Hin.
  pose proof (@claimPacketPage_texts host collaborators request product ops
                Hp E) as H.
  rewrite Forall_forall in H. exact (H _ Hin).
Qed.

Lemma only_price_and_id_bypass_the_sanitizer_witness :
  match @claimPacketPage utc_host example_collaborators marked_request with
  | Ok ops =>
      forall text x y size font color,
        In (DrawText text x y size font color) ops ->
        inert text
        \/ text = lit "<b>5"
        \/ text = lit "Document ID: {x}-1700000000000"
        \/ text = lit "Generated: November 14, 2023"
  | Throw _ => False
  end.
Proof.
  destruct (@claimPacketPage utc_host example_collaborators marked_request)
    as [ops|e] eqn:E; [|vm_compute in E; discriminate E].
  destruct (only_price_and_id_bypass_the_sanitizer utc_host example_collaborators
              marked_request ops E) as (product & Hp & H).
  injection Hp as <-. exact H.
Defined.

(* ================================================================== *)
(** * The calendar at the end of a month *)
(* ================================================================== *)

(** ** The end of the month *)

Section MonthEnd.
Open Scope Z_scope.

Lemma month_of_day_date (l k : Z) :
  l = 0 \/ l = 1 -> 0 <= k < 365 + l ->
  k - days_before_month l (month_of_day l k) + 1 <= 31.
Proof.
  intros Hl Hk. unfold month_of_day.
  repeat match goal with
         | |- context [?a <? ?b] => destruct (Z.ltb_spec a b)
         end; simpl; destruct Hl; subst; lia.
Qed.

Lemma DateFromTime_upper (t : Z) : DateFromTime t <= 31.
Proof.
  destruct (DayWithinYear_range t) as [Hl Hk]. cbv zeta in Hl, Hk.
  unfold DateFromTime, MonthFromTime.
  now apply month_of_day_date.
Qed.

(** The first day after a month is the first day of the next one. *)
Lemma next_month_starts (y m : Z) :
  0 <= m <= 11 ->
  DayFromYear y + days_before_month (LeapOfYear y) m + DaysInMonth y m
  = DayFromYear (y + (m + 1) / 12)
    + days_before_month (LeapOfYear (y + (m + 1) / 12)) ((m + 1) mod 12).
Proof.
  intros Hm.
  assert (Hcases : m = 0 \/ m = 1 \/ m = 2 \/ m = 3 \/ m = 4 \/ m = 5 \/ m = 6
                   \/ m = 7 \/ m = 8 \/ m = 9 \/ m = 10 \/ m = 11) by lia.
  destruct Hcases as [->|[->|[->|[->|[->|[->|[->|[->|[->|[->|[->| ->]]]]]]]]]]];
    cbn [DaysInMonth days_before_month];
    match goal with
    | |- context [(?a + 1) / 12] =>
        let q := eval cbv in ((a + 1) / 12) in
        let r := eval cbv in ((a + 1) mod 12) in
        change ((a + 1) / 12) with q; change ((a + 1) mod 12) with r
    end;
    cbn [days_before_month]; rewrite ?Z.add_0_r, ?DayFromYear_succ;
    destruct (LeapOfYear_cases y) as [[El Ey]|[El Ey]]; rewrite ?El, ?Ey; lia.
Qed.

Lemma MakeDay_rollover (year month date : Z) :
  MakeDay year month date
  = MakeDay year (month + 1)
      (date - DaysInMonth (year + month / 12) (month mod 12)).
Proof.
  unfold MakeDay. cbv zeta.
  pose proof (Z.mod_pos_bound month 12 ltac:(lia)) as Hm.
  pose proof (next_month_starts (year + month / 12) (month mod 12) ltac:(lia)) as H.
  assert (Hq : (month + 1) / 12 = month / 12 + (month mod 12 + 1) / 12
               /\ (month + 1) mod 12 = (month mod 12 + 1) mod 12).
  { split.
    - rewrite (Z.div_mod month 12) at 1 by lia.
      replace (12 * (month / 12) + month mod 12 + 1)
        with ((month mod 12 + 1) + (month / 12) * 12) by ring.
      rewrite Z.div_add by lia. ring.
    - rewrite Z.add_mod by lia. rewrite (Z.mod_small 1 12) by lia. reflexivity. }
  destruct Hq as [Hq1 Hq2]. rewrite Hq1, Hq2, Z.add_assoc. lia.
Qed.

(** The fields of the day that [MakeDay] makes, for a date past the end of
    the month it is counted in. *)
Lemma fields_of_MakeDay_past (year month date time : Z) :
  let ym := year + month / 12 in
  let mn := month mod 12 in
  DaysInMonth ym mn < date <= 31 ->
  0 <= time < msPerDay ->
  let t := MakeDate (MakeDay year month date) time in
  YearFromTime t = year + (month + 1) / 12
  /\ MonthFromTime t = (month + 1) mod 12
  /\ DateFromTime t = date - DaysInMonth ym mn.
Proof.
  cbv zeta. intros Hdate Htime. rewrite MakeDay_rollover.
  pose proof (DaysInMonth_range (year + month / 12) (month mod 12)).
  pose proof (DaysInMonth_range (year + (month + 1) / 12) ((month + 1) mod 12)).
  apply (@fields_of_MakeDay year (month + 1)
           (date - DaysInMonth (year + month / 12) (month mod 12)) time);
    [lia | exact Htime].
Qed.

End MonthEnd.

Section Rollover.
Context {host : Host}.
Variable offset : Z.
Hypothesis fixed_offset : forall t isUTC, LocalTZA t isUTC = offset.
Open Scope Z_scope.

Lemma warranty_event_rolls_over (product_name purchase_date : jsstring) (tv n : Z) :
  Z.abs offset < msPerDay ->
  Date_of_string purchase_date = Some tv ->
  1 <= n <= longest_warranty ->
  let t := tv + offset in
  let k := MonthFromTime t + n in
  -200000 <= YearFromTime t <= 200000 ->
  DaysInMonth (YearFromTime t + k / 12) (k mod 12) < DateFromTime t ->
  Event.start (warranty_event product_name purchase_date (Number_of_Z n))
  = Some (YearFromTime t + (k + 1) / 12, (k + 1) mod 12 + 1,
          DateFromTime t - DaysInMonth (YearFromTime t + k / 12) (k mod 12)).
Proof.
  cbv zeta. intros Ho Hparse Hn Hyear Hdate.
  unfold warranty_event, expirationDate_of, Date_of_Date. cbn [Event.start].
  rewrite Hparse. unfold getMonth.
  rewrite (@LocalTime_fixed host offset fixed_offset tv).
  pose proof (MonthFromTime_range (tv + offset)) as Hm.
  destruct (@month_sum (MonthFromTime (tv + offset)) n Hm Hn) as [Hsum _].
  rewrite (@setMonth_some host tv _ _ Hsum).
  rewrite (@LocalTime_fixed host offset fixed_offset tv).
  pose proof (DateFromTime_upper (tv + offset)) as Hupper.
  pose proof (DateFromTime_positive (tv + offset)) as Hpos.
  pose proof (TimeWithinDay_range (tv + offset)) as Htime.
  destruct (fields_of_MakeDay_past (YearFromTime (tv + offset))
              (MonthFromTime (tv + offset) + n) (DateFromTime (tv + offset))
              (TimeWithinDay (tv + offset)) (conj Hdate Hupper) Htime)
    as (Hy & Hmo & Hd).
  apply (@fields_after_clip host offset fixed_offset _ _ _ _); trivial.
  apply new_time_in_range; trivial.
  - unfold longest_warranty in Hn. lia.
  - lia.
Qed.

End Rollover.

(** X18.  When the local day of the month of the purchase does not exist in
    the month the warranty ends in, the expiration date is not clamped to
    the end of that month: it rolls over into the month after, by the
    number of days the target month is short.  A purchase on 2024-01-31
    with a warranty of one month expires on 2024-03-02 on a host in UTC. *)
Theorem expiration_rolls_over_month_end
    (host : Host) (offset : Z) :
  (forall t isUTC, LocalTZA t isUTC = offset) ->
  (Z.abs offset < msPerDay)%Z ->
  forall (product_name purchase_date : jsstring) (tv n : Z),
    Date_of_string purchase_date = Some tv ->
    (1 <= n <= longest_warranty)%Z ->
    let t := (tv + offset)%Z in
    let k := (MonthFromTime t + n)%Z in
    let days := DaysInMonth (YearFromTime t + k / 12) (k mod 12) in
    (-200000 <= YearFromTime t <= 200000)%Z ->
    (days < DateFromTime t)%Z ->
    Event.start (warranty_event product_name purchase_date (Number_of_Z n))
    = Some ((YearFromTime t + (k + 1) / 12)%Z, ((k + 1) mod 12 + 1)%Z,
            (DateFromTime t - days)%Z)
    /\ (1 <= DateFromTime t - days <= 3)%Z.
Proof.
  intros Hfixed Ho product_name purchase_date tv n Hparse Hn. cbv zeta.
  intros Hyear Hdate. split.
  - now apply (@warranty_event_rolls_over host offset Hfixed).
  - pose proof (DateFromTime_upper (tv + offset)).
    pose proof (DaysInMonth_range
                  (YearFromTime (tv + offset)
                   + (MonthFromTime (tv + offset) + n) / 12)
                  ((MonthFromTime (tv + offset) + n) mod 12)).
    lia.
Qed.

Lemma expiration_rolls_over_month_end_witness :
  Event.start (@warranty_event utc_host (lit "Kettle") (lit "2024-01-31") 1%float)
  = Some (2024, 3, 2)%Z.
Proof.
  assert (Hoffset : (Z.abs 0 < msPerDay)%Z) by reflexivity.
  assert (Hparse : @Date_of_string utc_host (lit "2024-01-31")
                   = Some 1706659200000%Z) by (vm_compute; reflexivity).
  assert (Hn : (1 <= 1 <= longest_warranty)%Z) by (unfold longest_warranty; lia).
  pose proof (expiration_rolls_over_month_end utc_host 0 (fun _ _ => eq_refl)
                Hoffset (lit "Kettle") (lit "2024-01-31") 1706659200000%Z 1%Z
                Hparse Hn) as H.
  cbv zeta in H.
  assert (Hyear : (-200000 <= YearFromTime (1706659200000 + 0) <= 200000)%Z)
    by (vm_compute; split; discriminate).
  assert (Hdate : (DaysInMonth
                     (YearFromTime (1706659200000 + 0)
                      + (MonthFromTime (1706659200000 + 0) + 1) / 12)
                     ((MonthFromTime (1706659200000 + 0) + 1) mod 12)
                   < DateFromTime (1706659200000 + 0))%Z)
    by (vm_compute; reflexivity).
  destruct (H Hyear Hdate) as [E _].
  vm_compute in E. vm_compute. exact E.
Defined.
